(** * Analyst AI chat client (src/index.js): attachment queue, session
      orchestration and streamed-response ingestion.

    A shallow embedding of the module-level state of [src/index.js] and of
    the functions that mutate it, with the properties of the conversation
    contract proved about them.

    Modelling conventions.
    - A JavaScript string is a [string]; a character stands for one code
      unit of the Latin-1 range.
    - The module-level [let] variables and the few DOM values the handlers
      read or write form the record [State]; every handler is a function
      on [State].  DOM elements are taken to exist (the [safeGetElement]
      null branches only log), and [render], which only projects the state
      onto the DOM, is recorded as a counter.
    - [Date.now()], [confirm] and the answers of the remote service are
      inputs of the handlers.
    - A handler runs without interleaving with other handlers. *)

From Stdlib Require Import ZArith NArith Ascii String DecimalString.
From stdpp Require Import base decidable option list strings.

Local Open Scope Z_scope.

(** ** JavaScript string primitives used by the handlers *)

Module JS.

(** [s.lastIndexOf(c)] for a one-character needle: the greatest position
    of [c], or [-1]. *)
Fixpoint lastIndexOf_go (c : ascii) (s : string) (i found : Z) : Z :=
  match s with
  | EmptyString => found
  | String a s' => lastIndexOf_go c s' (i + 1) (if Ascii.eqb a c then i else found)
  end.

Definition lastIndexOf (c : ascii) (s : string) : Z := lastIndexOf_go c s 0 (-1).

Fixpoint drop_chars (n : nat) (s : string) : string :=
  match n, s with
  | O, _ => s
  | S _, EmptyString => EmptyString
  | S n', String _ s' => drop_chars n' s'
  end.

(** [s.substring(start)]: a negative start counts as 0, a start beyond the
    end gives the empty string. *)
Definition substring (start : Z) (s : string) : string :=
  drop_chars (Z.to_nat (Z.max 0 start)) s.

(** [toLowerCase] on one code unit below 256: A-Z and the Latin-1 capitals
    (0xC0-0xDE but the multiplication sign) move up by 32. *)
Definition lower_char (a : ascii) : ascii :=
  let n := N_of_ascii a in
  if ((65 <=? n) && (n <=? 90) || (192 <=? n) && (n <=? 222) && negb (n =? 215))%N
  then ascii_of_N (n + 32) else a.

Fixpoint toLowerCase (s : string) : string :=
  match s with
  | EmptyString => EmptyString
  | String a s' => String (lower_char a) (toLowerCase s')
  end.

(** White space of [trim] among the code units below 256. *)
Definition isWhiteSpace (a : ascii) : bool :=
  let n := N_of_ascii a in
  ((9 <=? n) && (n <=? 13) || (n =? 32) || (n =? 160))%N.

Fixpoint trimStart (s : string) : string :=
  match s with
  | EmptyString => EmptyString
  | String a s' => if isWhiteSpace a then trimStart s' else s
  end.

(** The end is trimmed from the right: a character is dropped when it is
    white space and everything after it has been dropped. *)
Fixpoint trimEnd (s : string) : string :=
  match s with
  | EmptyString => EmptyString
  | String a s' =>
      match trimEnd s' with
      | EmptyString => if isWhiteSpace a then EmptyString else String a EmptyString
      | r => String a r
      end
  end.

Definition trim (s : string) : string := trimEnd (trimStart s).

(** [hay.includes(needle)] on strings. *)
Fixpoint includes (needle hay : string) : bool :=
  String.prefix needle hay ||
  match hay with
  | EmptyString => false
  | String _ hay' => includes needle hay'
  end.

(** [list.join(sep)]. *)
Fixpoint join (sep : string) (l : list string) : string :=
  match l with
  | [] => ""
  | [x] => x
  | x :: l' => x +:+ sep +:+ join sep l'
  end.

(** [`${n}`] for a length. *)
Definition ofNat (n : nat) : string := NilEmpty.string_of_uint (Nat.to_uint n).

(** Truthiness of a string: only the empty string is falsy. *)
Definition truthy (s : string) : bool := negb (bool_decide (s = "")).

(** [array.findIndex(p)]: the first position that satisfies [p], or [-1]. *)
Definition findIndex {A} (P : A → Prop) `{∀ x, Decision (P x)} (l : list A) : Z :=
  match list_find P l with
  | Some (i, _) => Z.of_nat i
  | None => -1
  end.

End JS.

(** ** Data model *)

(** A [File] as the handlers see it: [name], [size] in bytes and the MIME
    [type]; the bytes themselves are an opaque payload. *)
Record File := mkFile {
  file_name : string;
  file_size : N;
  file_type : string
}.

Inductive Role := user | model.

(** [tokenCounts] of a message; a field that is [undefined] is [None]. *)
Record TokenCounts := mkTokenCounts {
  tc_input : option Z;
  tc_output : option Z;
  tc_total : option Z
}.

Record Message := mkMessage {
  msg_id : Z;
  msg_role : Role;
  msg_text : string;
  msg_tokenCounts : option TokenCounts
}.

Record PromptPrefix := mkPromptPrefix {
  prefix_id : string;
  prefix_name : string;
  prefix_content : string;
  prefix_isDefault : bool
}.

(** The handle returned by [model.startChat]: the history, the safety
    settings, the generation parameters and the system instruction passed
    to it are constants, so the handle is determined by its model. *)
Record ChatSession := mkChatSession { session_model : string }.

(** A content part of an outgoing message. *)
Inductive Part :=
| TextPart (text : string)
| FileDataPart (mimeType fileUri : string).

(** Requests sent to the remote service, in the order they are issued. *)
Inductive Request :=
| UploadStart (key : string) (file : File)
| UploadTransfer (uploadUrl : string) (file : File)
| CountTokens (modelName : string) (parts : list Part)
| SendMessageStream (session : ChatSession) (parts : list Part).

Global Instance File_eq_dec : EqDecision File.
Proof. solve_decision. Defined.
Global Instance Role_eq_dec : EqDecision Role.
Proof. solve_decision. Defined.
Global Instance TokenCounts_eq_dec : EqDecision TokenCounts.
Proof. solve_decision. Defined.
Global Instance Message_eq_dec : EqDecision Message.
Proof. solve_decision. Defined.

(** The module-level variables ([API_KEY], [genAI], [messages], [isLoading],
    [uploadedFiles], [chatSession], [promptPrefixes], [activePrefix]), the
    stored key of [localStorage], the DOM values the handlers use, and the
    logs of what the handlers emit. *)
Record State := mkState {
  API_KEY : string;
  genAI : option string;               (* the client and the key it was built with *)
  storedApiKey : option string;        (* localStorage 'gemini_api_key' *)
  messages : list Message;
  isLoading : bool;
  uploadedFiles : list File;
  chatSession : option ChatSession;
  promptPrefixes : list PromptPrefix;
  activePrefix : string;
  messageInputValue : string;          (* messageInput.value *)
  fileInputValue : string;             (* fileInput.value *)
  apiKeyInputValue : string;           (* apiKeyInput.value *)
  apiKeyModalHidden : bool;            (* apiKeyModal has class 'hidden' *)
  modelSelectValue : option string;    (* modelSelect.value, None without the element *)
  alerts : list string;                (* texts shown by alert() *)
  requests : list Request;             (* network requests issued *)
  renderCount : nat                    (* calls of render() *)
}.

Definition set_API_KEY (v : string) (st : State) : State :=
  mkState v (genAI st) (storedApiKey st) (messages st) (isLoading st) (uploadedFiles st)
    (chatSession st) (promptPrefixes st) (activePrefix st) (messageInputValue st)
    (fileInputValue st) (apiKeyInputValue st) (apiKeyModalHidden st) (modelSelectValue st)
    (alerts st) (requests st) (renderCount st).

Definition set_genAI (v : option string) (st : State) : State :=
  mkState (API_KEY st) v (storedApiKey st) (messages st) (isLoading st) (uploadedFiles st)
    (chatSession st) (promptPrefixes st) (activePrefix st) (messageInputValue st)
    (fileInputValue st) (apiKeyInputValue st) (apiKeyModalHidden st) (modelSelectValue st)
    (alerts st) (requests st) (renderCount st).

Definition set_storedApiKey (v : option string) (st : State) : State :=
  mkState (API_KEY st) (genAI st) v (messages st) (isLoading st) (uploadedFiles st)
    (chatSession st) (promptPrefixes st) (activePrefix st) (messageInputValue st)
    (fileInputValue st) (apiKeyInputValue st) (apiKeyModalHidden st) (modelSelectValue st)
    (alerts st) (requests st) (renderCount st).

Definition set_messages (v : list Message) (st : State) : State :=
  mkState (API_KEY st) (genAI st) (storedApiKey st) v (isLoading st) (uploadedFiles st)
    (chatSession st) (promptPrefixes st) (activePrefix st) (messageInputValue st)
    (fileInputValue st) (apiKeyInputValue st) (apiKeyModalHidden st) (modelSelectValue st)
    (alerts st) (requests st) (renderCount st).

Definition set_isLoading (v : bool) (st : State) : State :=
  mkState (API_KEY st) (genAI st) (storedApiKey st) (messages st) v (uploadedFiles st)
    (chatSession st) (promptPrefixes st) (activePrefix st) (messageInputValue st)
    (fileInputValue st) (apiKeyInputValue st) (apiKeyModalHidden st) (modelSelectValue st)
    (alerts st) (requests st) (renderCount st).

Definition set_uploadedFiles (v : list File) (st : State) : State :=
  mkState (API_KEY st) (genAI st) (storedApiKey st) (messages st) (isLoading st) v
    (chatSession st) (promptPrefixes st) (activePrefix st) (messageInputValue st)
    (fileInputValue st) (apiKeyInputValue st) (apiKeyModalHidden st) (modelSelectValue st)
    (alerts st) (requests st) (renderCount st).

Definition set_chatSession (v : option ChatSession) (st : State) : State :=
  mkState (API_KEY st) (genAI st) (storedApiKey st) (messages st) (isLoading st) (uploadedFiles st)
    v (promptPrefixes st) (activePrefix st) (messageInputValue st)
    (fileInputValue st) (apiKeyInputValue st) (apiKeyModalHidden st) (modelSelectValue st)
    (alerts st) (requests st) (renderCount st).

Definition set_messageInputValue (v : string) (st : State) : State :=
  mkState (API_KEY st) (genAI st) (storedApiKey st) (messages st) (isLoading st) (uploadedFiles st)
    (chatSession st) (promptPrefixes st) (activePrefix st) v
    (fileInputValue st) (apiKeyInputValue st) (apiKeyModalHidden st) (modelSelectValue st)
    (alerts st) (requests st) (renderCount st).

Definition set_fileInputValue (v : string) (st : State) : State :=
  mkState (API_KEY st) (genAI st) (storedApiKey st) (messages st) (isLoading st) (uploadedFiles st)
    (chatSession st) (promptPrefixes st) (activePrefix st) (messageInputValue st)
    v (apiKeyInputValue st) (apiKeyModalHidden st) (modelSelectValue st)
    (alerts st) (requests st) (renderCount st).

Definition set_apiKeyInputValue (v : string) (st : State) : State :=
  mkState (API_KEY st) (genAI st) (storedApiKey st) (messages st) (isLoading st) (uploadedFiles st)
    (chatSession st) (promptPrefixes st) (activePrefix st) (messageInputValue st)
    (fileInputValue st) v (apiKeyModalHidden st) (modelSelectValue st)
    (alerts st) (requests st) (renderCount st).

Definition set_apiKeyModalHidden (v : bool) (st : State) : State :=
  mkState (API_KEY st) (genAI st) (storedApiKey st) (messages st) (isLoading st) (uploadedFiles st)
    (chatSession st) (promptPrefixes st) (activePrefix st) (messageInputValue st)
    (fileInputValue st) (apiKeyInputValue st) v (modelSelectValue st)
    (alerts st) (requests st) (renderCount st).

Definition set_modelSelectValue (v : option string) (st : State) : State :=
  mkState (API_KEY st) (genAI st) (storedApiKey st) (messages st) (isLoading st) (uploadedFiles st)
    (chatSession st) (promptPrefixes st) (activePrefix st) (messageInputValue st)
    (fileInputValue st) (apiKeyInputValue st) (apiKeyModalHidden st) v
    (alerts st) (requests st) (renderCount st).

(** [alert(text)]. *)
Definition alert (text : string) (st : State) : State :=
  mkState (API_KEY st) (genAI st) (storedApiKey st) (messages st) (isLoading st) (uploadedFiles st)
    (chatSession st) (promptPrefixes st) (activePrefix st) (messageInputValue st)
    (fileInputValue st) (apiKeyInputValue st) (apiKeyModalHidden st) (modelSelectValue st)
    (alerts st ++ [text]) (requests st) (renderCount st).

(** Issuing a network request. *)
Definition send (r : Request) (st : State) : State :=
  mkState (API_KEY st) (genAI st) (storedApiKey st) (messages st) (isLoading st) (uploadedFiles st)
    (chatSession st) (promptPrefixes st) (activePrefix st) (messageInputValue st)
    (fileInputValue st) (apiKeyInputValue st) (apiKeyModalHidden st) (modelSelectValue st)
    (alerts st) (requests st ++ [r]) (renderCount st).

(** [render()]: writes the DOM only. *)
Definition render (st : State) : State :=
  mkState (API_KEY st) (genAI st) (storedApiKey st) (messages st) (isLoading st) (uploadedFiles st)
    (chatSession st) (promptPrefixes st) (activePrefix st) (messageInputValue st)
    (fileInputValue st) (apiKeyInputValue st) (apiKeyModalHidden st) (modelSelectValue st)
    (alerts st) (requests st) (S (renderCount st)).

(** ** Attachment queue (lines 905-962) *)

Definition validTypes : list string :=
  [".pdf"; ".docx"; ".txt"; ".html"; ".htm"; ".jpg"; ".jpeg"; ".png"; ".gif"; ".bmp"; ".tiff"].

Definition invalidTypeAlert : string :=
  "Please upload PDF, DOCX, TXT, HTML, HTM, or image files (JPG, PNG, GIF, BMP, TIFF) only.".

(** [file.name.substring(file.name.lastIndexOf('.'))]. *)
Definition fileExtension (file : File) : string :=
  JS.substring (JS.lastIndexOf "." (file_name file)) (file_name file).

(** [validTypes.includes(fileExtension.toLowerCase())]. *)
Definition hasValidType (file : File) : bool :=
  bool_decide (JS.toLowerCase (fileExtension file) ∈ validTypes).

(** [uploadedFiles.findIndex(f => f.name === file.name && f.size === f.size)]:
    the second conjunct compares [f.size] with itself. *)
Definition existingFileIndex (file : File) (queue : list File) : Z :=
  JS.findIndex (λ f, file_name f = file_name file ∧ file_size f = file_size f) queue.

Definition processFileUpload (file : File) (st : State) : State :=
  if hasValidType file then
    let st1 :=
      if bool_decide (existingFileIndex file (uploadedFiles st) = -1)
      then set_uploadedFiles (uploadedFiles st ++ [file]) st
      else st in
    render st1
  else
    set_fileInputValue "" (alert invalidTypeAlert st).

(** [files.forEach(file => processFileUpload(file))] of [handleDrop] and
    [handleFileSelection]. *)
Definition processFiles (files : list File) (st : State) : State :=
  foldl (λ s file, processFileUpload file s) st files.

Definition removeAllFiles (st : State) : State :=
  render (set_fileInputValue "" (set_uploadedFiles [] st)).

(** [uploadedFiles.splice(index, 1)] under the range test of [removeFile]. *)
Definition removeFile (index : Z) (st : State) : State :=
  if bool_decide (0 ≤ index) && bool_decide (index < Z.of_nat (length (uploadedFiles st))) then
    let st1 := set_uploadedFiles (delete (Z.to_nat index) (uploadedFiles st)) st in
    let st2 :=
      if bool_decide (length (uploadedFiles st1) = 0%nat)
      then set_fileInputValue "" st1 else st1 in
    render st2
  else st.

(** ** Session handlers (lines 760-857, 128-139) *)

Definition MODEL_NAME : string := "gemini-2.5-flash".

Definition nl : string := String "010" EmptyString.
Definition dquote : string := String "034" EmptyString.

Definition welcomeText : string :=
  "Hello! I'm Analyst AI specialized in document analysis. I can help you analyze documents, validate data consistency, and detect duplicate metrics across reports."
  +:+ nl +:+ nl +:+ "Upload documents or ask me anything!".

Definition setupNotice : string :=
  nl +:+ nl +:+ "**Important Setup Required**: You need to set up your Gemini API key before using this application. Click the "
  +:+ dquote +:+ "Set API Key" +:+ dquote +:+ " button in the top right corner to get started.".

Definition initializeChat (now : Z) (st : State) : State :=
  let welcomeMessage :=
    if negb (JS.truthy (API_KEY st)) then welcomeText +:+ setupNotice else welcomeText in
  render (set_messages [mkMessage now model welcomeMessage None] st).

Definition openApiKeyModal (st : State) : State :=
  let st1 := if JS.truthy (API_KEY st) then set_apiKeyInputValue (API_KEY st) st else st in
  set_apiKeyModalHidden false st1.

Definition closeApiKeyModal (st : State) : State := set_apiKeyModalHidden true st.

Definition apiKeySavedText : string :=
  "API key has been updated successfully! You can now use the chat.".

Definition saveApiKey (now : Z) (st : State) : State :=
  let newApiKey := JS.trim (apiKeyInputValue st) in
  if negb (JS.truthy newApiKey) then alert "Please enter a valid API key" st
  else
    let st1 := set_storedApiKey (Some newApiKey) st in
    let st2 := set_API_KEY newApiKey st1 in
    let st3 := set_genAI (Some (API_KEY st2)) st2 in
    let st4 := set_chatSession None st3 in
    let st5 := closeApiKeyModal st4 in
    let st6 := set_messages (messages st5 ++ [mkMessage now model apiKeySavedText None]) st5 in
    render st6.

Definition resetSession (now : Z) (st : State) : State :=
  let st1 := set_messages [] st in
  let st2 := set_chatSession None st1 in
  let st3 := removeAllFiles st2 in
  initializeChat now st3.

(** The [change] listener of the model selector: the browser has already
    stored the new value in the element when the listener runs; [confirmed]
    is the answer to [confirm(...)]. *)
Definition modelSelectChange (newValue : string) (confirmed : bool) (now : Z) (st : State) : State :=
  let st1 := set_modelSelectValue (Some newValue) st in
  if confirmed then resetSession now st1 else st1.

(** ** Prompt prefix lookup (lines 644-650) *)

Definition getActivePrefixContent (st : State) : string :=
  if JS.truthy (activePrefix st) then
    match list_find (λ p, prefix_id p = activePrefix st) (promptPrefixes st) with
    | Some (_, prefix) => prefix_content prefix
    | None => ""
    end
  else "".

(** ** Outcomes of calls that may throw, and the monad of a turn *)

(** A call either returns or throws an [Error]; of the error only its
    [message] is read ([error.message], empty when absent). *)
Inductive outcome (A : Type) : Type :=
| Returned (a : A)
| Thrown (message : string).
Global Arguments Returned {A} a.
Global Arguments Thrown {A} message.

Definition Turn (A : Type) : Type := State → outcome A * State.

Global Instance Turn_ret : MRet Turn := λ A a st, (Returned a, st).

Global Instance Turn_bind : MBind Turn := λ A B f m st,
  match m st with
  | (Returned a, st1) => f a st1
  | (Thrown e, st1) => (Thrown e, st1)
  end.

Definition throw {A} (message : string) : Turn A := λ st, (Thrown message, st).
Definition gets {A} (f : State → A) : Turn A := λ st, (Returned (f st), st).
Definition modify (f : State → State) : Turn unit := λ st, (Returned tt, f st).

(** ** Remote model gateway: what the service answers *)

Record FileMeta := mkFileMeta {
  meta_mimeType : string;
  meta_uri : string
}.

(** The answer to the upload-initiation request: [fetch] rejects, or a
    response with its [ok] flag, its body text and the value of the
    [X-Goog-Upload-URL] header (empty when absent). *)
Inductive StartResponse :=
| StartRejected (message : string)
| StartResponded (ok : bool) (body : string) (uploadUrl : string).

(** The end of the transfer: [onerror], or [onload] with the status, the
    response text, and what [JSON.parse(responseText).file] gives: [None]
    when parsing throws, [Some None] when the field is undefined. *)
Inductive TransferResponse :=
| TransferError
| TransferLoaded (status : nat) (responseText : string) (parsed : option (option FileMeta)).

Record UploadExchange := mkUploadExchange {
  upload_start : StartResponse;
  upload_transfer : TransferResponse
}.

Record Candidate := mkCandidate { finishReason : string }.

Record UsageMetadata := mkUsageMetadata {
  promptTokenCount : option Z;
  candidatesTokenCount : option Z;
  totalTokenCount : option Z
}.

(** A streamed chunk: [chunk.text()] is a call into the SDK and may throw. *)
Record Chunk := mkChunk {
  chunk_text : outcome string;
  chunk_candidates : option (list Candidate);
  chunk_usageMetadata : option UsageMetadata
}.

(** [result.stream]: finitely many chunks, after which the iteration ends
    or throws. *)
Record Stream := mkStream {
  stream_chunks : list Chunk;
  stream_failure : option string
}.

(** Everything a turn reads from outside the state. *)
Record Env := mkEnv {
  now_user : Z;                             (* Date.now() for the user message *)
  now_response : Z;                         (* Date.now() for responseId *)
  now_error : Z;                            (* Date.now() in the catch block *)
  upload_exchange : nat → UploadExchange;   (* the exchange of the i-th upload *)
  countTokens_result : outcome (option Z);  (* countResult.totalTokens *)
  sendMessageStream_result : outcome Stream
}.

(** ** uploadFileToGemini (lines 995-1056) *)

Definition uploadFileToGemini (x : UploadExchange) (file : File) : Turn (option FileMeta) :=
  λ st,
  if negb (JS.truthy (API_KEY st)) then (Thrown "API Key is required for file upload", st)
  else
    let st1 := send (UploadStart (API_KEY st) file) st in
    match upload_start x with
    | StartRejected e => (Thrown e, st1)
    | StartResponded ok errorText uploadUrl =>
        if negb ok then (Thrown ("Failed to initialize upload: " +:+ errorText), st1)
        else if negb (JS.truthy uploadUrl) then (Thrown "Failed to get upload URL from headers", st1)
        else
          let st2 := send (UploadTransfer uploadUrl file) st1 in
          match upload_transfer x with
          | TransferError => (Thrown "Network error during upload", st2)
          | TransferLoaded status responseText parsed =>
              if ((200 <=? status) && (status <? 300))%nat then
                match parsed with
                | Some meta => (Returned meta, st2)
                | None => (Thrown ("Failed to parse upload response: " +:+ responseText), st2)
                end
              else
                (Thrown ("Upload failed with status " +:+ JS.ofNat status +:+ ": " +:+ responseText), st2)
          end
    end.

(** ** handleSendMessage (lines 1087-1318) *)

(** The sentence synthesized for a submission without text. *)
Definition analyzeFilesSentence (files : list File) : string :=
  "Please analyze these " +:+ JS.ofNat (length files) +:+ " files: "
  +:+ JS.join ", " (file_name <$> files) +:+ ".".

(** Lines 1109-1114. *)
Definition composeFinalMessage (prefixContent userMessage : string) (files : list File) : string :=
  if JS.truthy prefixContent && JS.truthy userMessage then
    prefixContent +:+ nl +:+ nl +:+ userMessage
  else if JS.truthy prefixContent && bool_decide (0 < length files)%nat then
    prefixContent +:+ nl +:+ nl +:+ analyzeFilesSentence files
  else userMessage.

(** Lines 1117-1129. *)
Definition pushUserMessage (now : Z) (userMessage : string) (st : State) : State :=
  if JS.truthy userMessage then
    set_messages (messages st ++ [mkMessage now user userMessage None]) st
  else if bool_decide (0 < length (uploadedFiles st))%nat then
    set_messages
      (messages st ++ [mkMessage now user (analyzeFilesSentence (uploadedFiles st)) None]) st
  else st.

(** The message of the error the SDK's [getGenerativeModel] throws when
    [modelParams.model] is falsy. *)
Definition modelNameRequiredText : string :=
  "[GoogleGenerativeAI Error]: Must provide a model name. Example: genai.getGenerativeModel({ model: 'my-model-name' })".

(** [genAI.getGenerativeModel({ model: selectedModel })] (line 1140): a
    property read on [null] throws, and so does the SDK's method for an empty
    model name; otherwise the model of that name is returned. *)
Definition getGenerativeModel (selectedModel : string) : Turn string :=
  λ st,
  match genAI st with
  | Some _ =>
      if JS.truthy selectedModel then (Returned selectedModel, st)
      else (Thrown modelNameRequiredText, st)
  | None => (Thrown "Cannot read properties of null (reading 'getGenerativeModel')", st)
  end.

(** Lines 1143-1172. *)
Definition ensureChatSession (modelName : string) (st : State) : State :=
  match chatSession st with
  | Some _ => st
  | None => set_chatSession (Some (mkChatSession modelName)) st
  end.

(** Lines 1175-1181. *)
Definition pushPlaceholder (responseId : Z) (st : State) : State :=
  set_messages
    (messages st ++ [mkMessage responseId model "" (Some (mkTokenCounts (Some 0) (Some 0) None))]) st.

Definition reportTypeInstruction : string :=
  nl +:+ nl +:+ "Before analyzing the content, please identify the company name and what type of report each document is based on its content (Annual Report, Sustainability Report, or ESG Report) and mention this in your response in the format: "
  +:+ dquote +:+ "[Company Name] - [Document Type]" +:+ dquote +:+ ".".

(** Lines 1184-1193: the text part, if any. *)
Definition textParts (finalMessage : string) (files : list File) : list Part :=
  if JS.truthy finalMessage then
    [TextPart (if bool_decide (0 < length files)%nat
               then finalMessage +:+ reportTypeInstruction else finalMessage)]
  else [].

(** Lines 1200-1209: the uploads, one after the other. *)
Fixpoint uploadFiles (exchange : nat → UploadExchange) (i : nat) (files : list File)
  : Turn (list (option FileMeta)) :=
  match files with
  | [] => mret []
  | file :: rest =>
      λ st,
      match uploadFileToGemini (exchange i) file st with
      | (Thrown e, st1) =>
          (Thrown ("Failed to upload " +:+ file_name file +:+ ": " +:+ e), st1)
      | (Returned fileMetadata, st1) =>
          match uploadFiles exchange (S i) rest st1 with
          | (Returned uploadResults, st2) => (Returned (fileMetadata :: uploadResults), st2)
          | (Thrown e, st2) => (Thrown e, st2)
          end
      end
  end.

(** Lines 1213-1220: reading [fileMeta.mimeType] of an undefined result throws. *)
Fixpoint fileParts (uploadResults : list (option FileMeta)) : outcome (list Part) :=
  match uploadResults with
  | [] => Returned []
  | None :: _ => Thrown "Cannot read properties of undefined (reading 'mimeType')"
  | Some fileMeta :: rest =>
      match fileParts rest with
      | Returned parts => Returned (FileDataPart (meta_mimeType fileMeta) (meta_uri fileMeta) :: parts)
      | Thrown e => Thrown e
      end
  end.

(** Lines 1196-1221. *)
Definition attachFiles (env : Env) (contentParts : list Part) : Turn (list Part) :=
  λ st,
  if bool_decide (0 < length (uploadedFiles st))%nat then
    match uploadFiles (upload_exchange env) 0 (uploadedFiles st) st with
    | (Thrown e, st1) => (Thrown e, st1)
    | (Returned uploadResults, st1) =>
        match fileParts uploadResults with
        | Returned parts => (Returned (contentParts ++ parts), st1)
        | Thrown e => (Thrown e, st1)
        end
    end
  else (Returned contentParts, st).

Definition setInputTokens (count : option Z) (m : Message) : Message :=
  match msg_tokenCounts m with
  | Some tc =>
      mkMessage (msg_id m) (msg_role m) (msg_text m)
        (Some (mkTokenCounts count (tc_output tc) (tc_total tc)))
  | None => m
  end.

(** Lines 1224-1243: an error of the count, or of the write into a message
    without [tokenCounts], is caught and dropped. *)
Definition countInputTokens (env : Env) (modelName : string) (responseId : Z)
    (contentParts : list Part) : Turn unit :=
  λ st,
  let st1 := send (CountTokens modelName contentParts) st in
  match countTokens_result env with
  | Thrown _ => (Returned tt, st1)
  | Returned count =>
      let modelMessageIndex := JS.findIndex (λ msg, msg_id msg = responseId) (messages st1) in
      if bool_decide (modelMessageIndex ≠ -1) then
        match messages st1 !! Z.to_nat modelMessageIndex with
        | Some (mkMessage _ _ _ (Some _)) =>
            (Returned tt,
             render (set_messages
                       (alter (setInputTokens count) (Z.to_nat modelMessageIndex) (messages st1)) st1))
        | _ => (Returned tt, st1)
        end
      else (Returned tt, st1)
  end.

(** Line 1246. *)
Definition sendMessageStream (env : Env) (contentParts : list Part) : Turn Stream :=
  λ st,
  match chatSession st with
  | None => (Thrown "Cannot read properties of null (reading 'sendMessageStream')", st)
  | Some session =>
      let st1 := send (SendMessageStream session contentParts) st in
      match sendMessageStream_result env with
      | Returned stream => (Returned stream, st1)
      | Thrown e => (Thrown e, st1)
      end
  end.

(** Lines 1257-1267. *)
Definition finishAnnotation (reason : string) : string :=
  if bool_decide (reason = "SAFETY") then
    nl +:+ nl +:+ "**[Generation stopped due to Safety Filters]**"
  else if bool_decide (reason = "MAX_TOKENS") then
    nl +:+ nl +:+ "**[Generation stopped due to Max Token Limit]**"
  else nl +:+ nl +:+ "**[Generation stopped: " +:+ reason +:+ "]**".

(** Lines 1255-1268: what the chunk adds after its own text. *)
Definition chunkAnnotation (chunk : Chunk) : string :=
  match chunk_candidates chunk with
  | Some (candidate :: _) =>
      if JS.truthy (finishReason candidate) && negb (bool_decide (finishReason candidate = "STOP"))
      then finishAnnotation (finishReason candidate)
      else ""
  | _ => ""
  end.

(** Lines 1273-1282. *)
Definition setResponse (responseText : string) (usage : option UsageMetadata) (m : Message)
  : Message :=
  mkMessage (msg_id m) (msg_role m) responseText
    (match usage with
     | Some u =>
         Some (mkTokenCounts (promptTokenCount u) (candidatesTokenCount u) (totalTokenCount u))
     | None => msg_tokenCounts m
     end).

(** One iteration of the loop at lines 1250-1286. *)
Definition applyChunk (responseId : Z) (chunk : Chunk) (responseText : string) : Turn string :=
  λ st,
  match chunk_text chunk with
  | Thrown e => (Thrown e, st)
  | Returned chunkText =>
      let responseText' := (responseText +:+ chunkText) +:+ chunkAnnotation chunk in
      let modelMessageIndex := JS.findIndex (λ msg, msg_id msg = responseId) (messages st) in
      if bool_decide (modelMessageIndex ≠ -1) then
        (Returned responseText',
         render (set_messages
                   (alter (setResponse responseText' (chunk_usageMetadata chunk))
                      (Z.to_nat modelMessageIndex) (messages st)) st))
      else (Returned responseText', st)
  end.

Fixpoint applyChunks (responseId : Z) (chunks : list Chunk) (responseText : string)
  : Turn string :=
  match chunks with
  | [] => mret responseText
  | chunk :: rest =>
      responseText' ← applyChunk responseId chunk responseText;
      applyChunks responseId rest responseText'
  end.

(** The whole [for await] loop. *)
Definition consumeStream (responseId : Z) (stream : Stream) : Turn string :=
  responseText ← applyChunks responseId (stream_chunks stream) "";
  match stream_failure stream with
  | Some e => throw e
  | None => mret responseText
  end.

(** The states the renderer is shown during the loop, one per chunk applied. *)
Fixpoint streamSnapshots (responseId : Z) (chunks : list Chunk) (responseText : string)
    (st : State) : list State :=
  match chunks with
  | [] => []
  | chunk :: rest =>
      match applyChunk responseId chunk responseText st with
      | (Returned responseText', st1) => st1 :: streamSnapshots responseId rest responseText' st1
      | (Thrown _, _) => []
      end
  end.

(** Lines 1102-1246: from the loading flag to the opened stream. *)
Definition openTurn (env : Env) (userMessage : string) : Turn (Z * Stream) :=
  modify (set_isLoading true);;
  prefixContent ← gets getActivePrefixContent;
  files ← gets uploadedFiles;
  let finalMessage := composeFinalMessage prefixContent userMessage files in
  modify (pushUserMessage (now_user env) userMessage);;
  modify (set_messageInputValue "");;
  modify render;;
  selectedModel ← gets (λ st, default MODEL_NAME (modelSelectValue st));
  modelName ← getGenerativeModel selectedModel;
  modify (ensureChatSession modelName);;
  let responseId := now_response env + 1 in
  modify (pushPlaceholder responseId);;
  contentParts ← attachFiles env (textParts finalMessage files);
  countInputTokens env modelName responseId contentParts;;
  stream ← sendMessageStream env contentParts;
  mret (responseId, stream).

(** Lines 1288-1291. *)
Definition clearFilesAfterSuccess (st : State) : State :=
  if bool_decide (0 < length (uploadedFiles st))%nat then removeAllFiles st else st.

(** The [try] block. *)
Definition sendTurn (env : Env) (userMessage : string) : Turn unit :=
  '(responseId, stream) ← openTurn env userMessage;
  consumeStream responseId stream;;
  modify clearFilesAfterSuccess.

Definition genericErrorText : string := "Sorry, an error occurred. Please try again.".

Definition apiKeyErrorText : string :=
  "API key error: The API key you provided is not valid. Please click the "
  +:+ dquote +:+ "Set API Key" +:+ dquote +:+ " button to update your API key.".

Definition isApiKeyError (message : string) : bool :=
  JS.truthy message && JS.includes "API key not valid" message.

(** The text chosen at lines 1297-1307. *)
Definition errorText (message : string) : string :=
  if isApiKeyError message then apiKeyErrorText
  else if JS.truthy message then "Error: " +:+ message
  else genericErrorText.

(** The [catch] block (lines 1293-1313). *)
Definition handleTurnError (env : Env) (message : string) (st : State) : State :=
  let st1 :=
    if isApiKeyError message
    then set_chatSession None (set_genAI None (set_API_KEY "" st))
    else st in
  set_messages (messages st1 ++ [mkMessage (now_error env + 1) model (errorText message) None]) st1.

Definition handleSendMessage (env : Env) (st : State) : State :=
  let userMessage := JS.trim (messageInputValue st) in
  if negb (JS.truthy userMessage) && bool_decide (length (uploadedFiles st) = 0%nat) then st
  else if negb (JS.truthy (API_KEY st)) then openApiKeyModal st
  else
    let '(result, st1) := sendTurn env userMessage st in
    let st2 :=
      match result with
      | Returned _ => st1
      | Thrown e => handleTurnError env e st1
      end in
    render (set_isLoading false st2).

(** ** Vocabulary of the properties *)

(** The extensions the queue accepts, as the specification lists them. *)
Definition allowList : list string :=
  ["pdf"; "docx"; "txt"; "html"; "htm"; "jpg"; "jpeg"; "png"; "gif"; "bmp"; "tiff"].

(** A name carries an allowed extension when it ends in a dot followed by
    an entry of [allowList], letter case apart. *)
Definition hasAllowedExtension (name : string) : Prop :=
  ∃ stem ext, name = stem +:+ "." +:+ ext ∧ JS.toLowerCase ext ∈ allowList.

(** The (name, size) pair of an attachment. *)
Definition nameSize (f : File) : string * N := (file_name f, file_size f).

Fixpoint noChar (c : ascii) (s : string) : bool :=
  match s with
  | EmptyString => true
  | String a s' => negb (Ascii.eqb a c) && noChar c s'
  end.

Fixpoint allWhiteSpace (s : string) : bool :=
  match s with
  | EmptyString => true
  | String a s' => JS.isWhiteSpace a && allWhiteSpace s'
  end.

(** No two queued files share a name, and every queued file passed the
    type test. *)
Definition queueInvariant (queue : list File) : Prop :=
  NoDup (file_name <$> queue) ∧ Forall (λ f, hasValidType f = true) queue.

(** Identity and role of a message: what streaming never changes. *)
Definition header (m : Message) : Z * Role := (msg_id m, msg_role m).

(** The state with further requests logged. *)
Definition addRequests (rs : list Request) (st : State) : State :=
  mkState (API_KEY st) (genAI st) (storedApiKey st) (messages st) (isLoading st) (uploadedFiles st)
    (chatSession st) (promptPrefixes st) (activePrefix st) (messageInputValue st)
    (fileInputValue st) (apiKeyInputValue st) (apiKeyModalHidden st) (modelSelectValue st)
    (alerts st) (requests st ++ rs) (renderCount st).

(** The state of a turn once the user message is shown (line 1135). *)
Definition turnStart (env : Env) (userMessage : string) (st : State) : State :=
  render (set_messageInputValue ""
            (pushUserMessage (now_user env) userMessage (set_isLoading true st))).

(** The state of a turn once the placeholder is in the transcript (line 1181). *)
Definition turnReady (env : Env) (userMessage : string) (st : State) : State :=
  pushPlaceholder (now_response env + 1)
    (ensureChatSession (default MODEL_NAME (modelSelectValue st)) (turnStart env userMessage st)).

(** The user message a turn shows, if any: the text typed, or the
    synthesized sentence when only files were given. *)
Definition userMessages (now : Z) (userMessage : string) (files : list File) : list Message :=
  if JS.truthy userMessage then [mkMessage now user userMessage None]
  else if bool_decide (0 < length files)%nat
       then [mkMessage now user (analyzeFilesSentence files) None]
       else [].

Definition placeholderMessage (env : Env) : Message :=
  mkMessage (now_response env + 1) model "" (Some (mkTokenCounts (Some 0) (Some 0) None)).

(** An upload exchange that runs to the stored file's metadata. *)
Definition uploadCompletes (x : UploadExchange) : bool :=
  match upload_start x, upload_transfer x with
  | StartResponded true _ uploadUrl, TransferLoaded status _ (Some _) =>
      JS.truthy uploadUrl && ((200 <=? status) && (status <? 300))%nat
  | _, _ => false
  end.

(** A chunk whose [text()] call returns. *)
Definition chunkReadable (chunk : Chunk) : Prop := ∃ t, chunk_text chunk = Returned t.

(** [messages.findIndex(msg => msg.id === responseId)]. *)
Definition responseIndex (responseId : Z) (l : list Message) : Z :=
  JS.findIndex (λ msg, msg_id msg = responseId) l.

(** The text of the message at position [i] of the transcript. *)
Definition textAt (i : nat) (st : State) : string :=
  from_option msg_text "" (messages st !! i).

(** A state to evaluate the handlers on: a key is set, the transcript holds
    the greeting and one exchange, a session is open. *)
Definition sampleState : State :=
  mkState "KEY" (Some "KEY") (Some "KEY")
    [mkMessage 10 model welcomeText None;
     mkMessage 20 user "Summarize" None;
     mkMessage 21 model "Done." (Some (mkTokenCounts (Some 5) (Some 2) (Some 7)))]
    false [] (Some (mkChatSession MODEL_NAME)) [] "" "" "" "" true (Some MODEL_NAME) [] [] 3.

Definition reportPdf (size : N) : File := mkFile "report.pdf" size "application/pdf".

(** What a readable chunk adds to the response text: its own text, then
    the annotation of its finish reason. *)
Definition chunkAdds (chunk : Chunk) : string :=
  match chunk_text chunk with
  | Returned chunkText => chunkText +:+ chunkAnnotation chunk
  | Thrown _ => ""
  end.

(** The response text accumulated over a list of chunks. *)
Fixpoint streamText (chunks : list Chunk) : string :=
  match chunks with
  | [] => ""
  | chunk :: rest => chunkAdds chunk +:+ streamText rest
  end.

(** Sample answers of the service. *)
Definition completedUpload (uri : string) : UploadExchange :=
  mkUploadExchange (StartResponded true "" "https://upload.example/session")
    (TransferLoaded 200 "{}" (Some (Some (mkFileMeta "application/pdf" uri)))).

Definition refusedUpload (body : string) : UploadExchange :=
  mkUploadExchange (StartResponded false body "") TransferError.

Definition sampleStream : Stream :=
  mkStream
    [mkChunk (Returned "Revenue grew") (Some [mkCandidate ""]) None;
     mkChunk (Returned " by 4%") (Some [mkCandidate "MAX_TOKENS"])
       (Some (mkUsageMetadata (Some 12) (Some 5) (Some 17)))]
    None.

Definition sampleEnv (exchange : nat → UploadExchange) (answer : outcome Stream) : Env :=
  mkEnv 100 101 102 exchange (Returned (Some 12)) answer.

(** ** Further handlers *)

Definition set_promptPrefixes (v : list PromptPrefix) (st : State) : State :=
  mkState (API_KEY st) (genAI st) (storedApiKey st) (messages st) (isLoading st) (uploadedFiles st)
    (chatSession st) v (activePrefix st) (messageInputValue st)
    (fileInputValue st) (apiKeyInputValue st) (apiKeyModalHidden st) (modelSelectValue st)
    (alerts st) (requests st) (renderCount st).

Definition set_activePrefix (v : string) (st : State) : State :=
  mkState (API_KEY st) (genAI st) (storedApiKey st) (messages st) (isLoading st) (uploadedFiles st)
    (chatSession st) (promptPrefixes st) v (messageInputValue st)
    (fileInputValue st) (apiKeyInputValue st) (apiKeyModalHidden st) (modelSelectValue st)
    (alerts st) (requests st) (renderCount st).

(** *** Start of the page (lines 9-32 and 257) *)

(** The module-level variables as the script initializes them, followed by
    [initializeChat()]; [stored] is [localStorage.getItem('gemini_api_key')]
    and [page] gives the DOM values, logs and counters the script finds. *)
Definition startup (stored : option string) (now : Z) (page : State) : State :=
  let key := default "" stored in
  initializeChat now
    (mkState key (if JS.truthy key then Some key else None) stored [] false [] None [] ""
       (messageInputValue page) (fileInputValue page) (apiKeyInputValue page)
       (apiKeyModalHidden page) (modelSelectValue page)
       (alerts page) (requests page) (renderCount page)).

(** *** Clipboard paste (lines 284-307) *)

(** An item of [clipboardData.items]: its [kind] and what [getAsFile()]
    returns ([None] for [null]). *)
Record ClipboardItem := mkClipboardItem {
  item_kind : string;
  item_file : option File
}.

Definition pastedToast : string := "Image pasted and added to upload queue!".

(** The body of the loop: the state and the toasts shown so far. *)
Definition pasteItem (acc : State * list string) (item : ClipboardItem) : State * list string :=
  if bool_decide (item_kind item = "file") then
    match item_file item with
    | Some file =>
        if String.prefix "image/" (file_type file)
        then (processFileUpload file (fst acc), snd acc ++ [pastedToast])
        else acc
    | None => acc
    end
  else acc.

Definition handlePasteEvent (items : list ClipboardItem) (st : State) : State * list string :=
  foldl pasteItem (st, []) items.

(** *** Prompt prefix management (lines 346-504, 596-623, 734-745) *)

(** The values of the prefix form: the two inputs, the auto-apply box and
    [prefixForm.dataset.editingId] (empty when absent). *)
Record PrefixForm := mkPrefixForm {
  prefixNameInputValue : string;
  prefixContentInputValue : string;
  autoApplyChecked : bool;
  editingId : string
}.

Definition clearPrefixForm : PrefixForm := mkPrefixForm "" "" false "".

Definition prefixIncompleteAlert : string :=
  "Please enter both a name and content for the prefix.".

Definition prefixSavedAlert : string :=
  "Prompt saved successfully! To save this prompt permanently, please download it using the download button next to the prompt.".

(** Lines 365-397: the library after the update or the creation. [nowId] is
    [Date.now().toString()]. *)
Definition storePrefix (nowId name content : string) (form : PrefixForm) (st : State) : State :=
  if JS.truthy (editingId form) then
    let prefixIndex := JS.findIndex (λ p, prefix_id p = editingId form) (promptPrefixes st) in
    if bool_decide (prefixIndex ≠ -1) then
      match promptPrefixes st !! Z.to_nat prefixIndex with
      | Some old =>
          if negb (prefix_isDefault old) then
            set_promptPrefixes
              (<[Z.to_nat prefixIndex :=
                   mkPromptPrefix (prefix_id old) name content (prefix_isDefault old)]>
                 (promptPrefixes st)) st
          else
            set_promptPrefixes
              (promptPrefixes st ++
                 [mkPromptPrefix nowId (if JS.truthy name then name else prefix_name old)
                    content false]) st
      | None => st
      end
    else st
  else set_promptPrefixes (promptPrefixes st ++ [mkPromptPrefix nowId name content false]) st.

(** Lines 401-403: the prefix that auto-apply makes active. *)
Definition savedPrefix (form : PrefixForm) (st : State) : option PromptPrefix :=
  if JS.truthy (editingId form)
  then snd <$> list_find (λ p, prefix_id p = editingId form) (promptPrefixes st)
  else last (promptPrefixes st).

(** [savePrefix]: the new state and form; reading [savedPrefix.id] of an
    undefined prefix throws before the form is cleared. *)
Definition savePrefix (nowId : string) (form : PrefixForm) (st : State)
  : outcome unit * (State * PrefixForm) :=
  let name := JS.trim (prefixNameInputValue form) in
  let content := JS.trim (prefixContentInputValue form) in
  if negb (JS.truthy name) || negb (JS.truthy content) then
    (Returned tt, (alert prefixIncompleteAlert st, form))
  else
    let st1 := storePrefix nowId name content form st in
    let form1 :=
      if JS.truthy (editingId form)
      then mkPrefixForm (prefixNameInputValue form) (prefixContentInputValue form)
             (autoApplyChecked form) ""
      else form in
    if autoApplyChecked form then
      match savedPrefix form st1 with
      | Some saved =>
          (Returned tt, (alert prefixSavedAlert (set_activePrefix (prefix_id saved) st1),
                         clearPrefixForm))
      | None => (Thrown "Cannot read properties of undefined (reading 'id')", (st1, form1))
      end
    else (Returned tt, (alert prefixSavedAlert st1, clearPrefixForm)).

(** [editPrefix]: fills the form from the prefix found. *)
Definition editPrefix (prefixId : string) (st : State) (form : PrefixForm) : PrefixForm :=
  match list_find (λ p, prefix_id p = prefixId) (promptPrefixes st) with
  | Some (_, prefix) =>
      mkPrefixForm
        (if prefix_isDefault prefix then prefix_name prefix +:+ " (Copy)" else prefix_name prefix)
        (prefix_content prefix)
        (bool_decide (activePrefix st = prefixId))
        prefixId
  | None => form
  end.

Definition deletePrefix (prefixId : string) (st : State) : State :=
  match list_find (λ p, prefix_id p = prefixId) (promptPrefixes st) with
  | Some _ =>
      let st1 :=
        set_promptPrefixes (filter (λ p, prefix_id p ≠ prefixId) (promptPrefixes st)) st in
      if bool_decide (activePrefix st1 = prefixId) then set_activePrefix "" st1 else st1
  | None => st
  end.

(** [setActivePrefix] (with the value of the select), [setActivePrefixById]
    and [selectQuickPrefix] all assign [activePrefix]. *)
Definition setActivePrefixById (prefixId : string) (st : State) : State :=
  set_activePrefix prefixId st.

Definition removeActivePrefix (st : State) : State := set_activePrefix "" st.

(** *** Download name of a prompt (lines 424-446) *)

Definition isAlnum (a : ascii) : bool :=
  let n := N_of_ascii a in
  ((48 <=? n) && (n <=? 57) || (65 <=? n) && (n <=? 90) || (97 <=? n) && (n <=? 122))%N.

(** [name.replace(/[^a-z0-9]/gi, '_')]. *)
Fixpoint replaceNonAlnum (s : string) : string :=
  match s with
  | EmptyString => EmptyString
  | String a s' => String (if isAlnum a then a else "_"%char) (replaceNonAlnum s')
  end.

Definition promptFileName (name : string) : string :=
  JS.toLowerCase (replaceNonAlnum name) +:+ "_prompt.txt".

(** [downloadPromptAsFile]: the name and the content of the file offered,
    if the prefix exists. *)
Definition downloadPromptAsFile (prefixId : string) (st : State) : option (string * string) :=
  match list_find (λ p, prefix_id p = prefixId) (promptPrefixes st) with
  | Some (_, prefix) => Some (promptFileName (prefix_name prefix), prefix_content prefix)
  | None => None
  end.

(** *** The handlers as events *)

(** What the user or the page can do between two turns, each event naming
    the handler it runs; the values typed and the answers of the service
    come with the event. [PresetsLoaded] is the assignment that ends
    [loadPromptPresets] (lines 77 and 83), whatever was fetched. A handler
    runs to its end before the next event is handled. *)
Inductive Event :=
| AddFiles (files : list File)
| Paste (items : list ClipboardItem)
| RemoveFile (index : Z)
| RemoveAllFiles
| ResetSession (now : Z)
| TypeApiKey (typed : string)
| OpenApiKeyModal
| CloseApiKeyModal
| SaveApiKey (now : Z)
| ChangeModel (newValue : string) (confirmed : bool) (now : Z)
| TypeMessage (typed : string)
| Submit (env : Env)
| SavePrefix (nowId : string) (form : PrefixForm)
| DeletePrefix (prefixId : string)
| SelectPrefix (prefixId : string)
| RemoveActivePrefix
| PresetsLoaded (prefixes : list PromptPrefix).

Definition handle (st : State) (ev : Event) : State :=
  match ev with
  | AddFiles files => processFiles files st
  | Paste items => fst (handlePasteEvent items st)
  | RemoveFile index => removeFile index st
  | RemoveAllFiles => removeAllFiles st
  | ResetSession now => resetSession now st
  | TypeApiKey typed => set_apiKeyInputValue typed st
  | OpenApiKeyModal => openApiKeyModal st
  | CloseApiKeyModal => closeApiKeyModal st
  | SaveApiKey now => saveApiKey now st
  | ChangeModel newValue confirmed now => modelSelectChange newValue confirmed now st
  | TypeMessage typed => set_messageInputValue typed st
  | Submit env => handleSendMessage env st
  | SavePrefix nowId form => fst (snd (savePrefix nowId form st))
  | DeletePrefix prefixId => deletePrefix prefixId st
  | SelectPrefix prefixId => setActivePrefixById prefixId st
  | RemoveActivePrefix => removeActivePrefix st
  | PresetsLoaded prefixes => set_promptPrefixes prefixes st
  end.

Definition run (events : list Event) (st : State) : State := foldl handle st events.

(** ** Vocabulary of the further properties *)

(** The fields no step of a turn's [try] block assigns. *)
Definition untouched (st : State)
  : string * option string * option string * list PromptPrefix * string * string * bool
    * option string * list string :=
  (API_KEY st, genAI st, storedApiKey st, promptPrefixes st, activePrefix st,
   apiKeyInputValue st, apiKeyModalHidden st, modelSelectValue st, alerts st).

(** A message without its token counts. *)
Definition shownPart (m : Message) : Z * Role * string := (msg_id m, msg_role m, msg_text m).

(** The client exists exactly when a key is in use, and was built with it. *)
Definition clientMatchesKey (st : State) : Prop :=
  genAI st = if JS.truthy (API_KEY st) then Some (API_KEY st) else None.

(** The request log of the uploads of [files], the [i]-th exchange being
    the first, when every upload completes. *)
Fixpoint uploadRequests (key : string) (exchange : nat → UploadExchange) (i : nat)
    (files : list File) : list Request :=
  match files with
  | [] => []
  | file :: rest =>
      match upload_start (exchange i) with
      | StartResponded _ _ uploadUrl =>
          UploadStart key file :: UploadTransfer uploadUrl file
            :: uploadRequests key exchange (S i) rest
      | StartRejected _ => UploadStart key file :: uploadRequests key exchange (S i) rest
      end
  end.

(** The file reference an exchange ends with, if it stores a file. *)
Definition storedFile (x : UploadExchange) : option Part :=
  match upload_transfer x with
  | TransferLoaded _ _ (Some (Some meta)) =>
      Some (FileDataPart (meta_mimeType meta) (meta_uri meta))
  | _ => None
  end.

Definition isUploadRequest (r : Request) : bool :=
  match r with
  | UploadStart _ _ | UploadTransfer _ _ => true
  | _ => false
  end.

(** A clipboard item the paste handler hands to the queue. *)
Definition isPastedImage (item : ClipboardItem) : bool :=
  bool_decide (item_kind item = "file") &&
  match item_file item with
  | Some file => String.prefix "image/" (file_type file)
  | None => false
  end.

(** Every character of a string passes a test. *)
Fixpoint allChars (test : ascii → bool) (s : string) : bool :=
  match s with
  | EmptyString => true
  | String a s' => test a && allChars test s'
  end.

(** A lower-case letter, a digit or an underscore. *)
Definition isSafeChar (a : ascii) : bool :=
  let n := N_of_ascii a in
  ((48 <=? n) && (n <=? 57) || (97 <=? n) && (n <=? 122) || (n =? 95))%N.

(** The content [getActivePrefixContent] would return for the id [prefixId]. *)
Definition contentOf (prefixId : string) (prefixes : list PromptPrefix) : string :=
  from_option prefix_content "" (snd <$> list_find (λ p, prefix_id p = prefixId) prefixes).

(** Everything but the transcript, the request log and the render counter:
    what the steps of a turn after the placeholder never assign. *)
Definition outsideTranscript (st : State) :=
  (untouched st, uploadedFiles st, isLoading st, chatSession st, messageInputValue st,
   fileInputValue st).

(** The chunks the loop applies: those before the first whose [text()]
    throws. *)
Fixpoint chunksRead (chunks : list Chunk) : list Chunk :=
  match chunks with
  | [] => []
  | chunk :: rest =>
      match chunk_text chunk with
      | Returned _ => chunk :: chunksRead rest
      | Thrown _ => []
      end
  end.

(** The error that ends the loop, if any: the first [text()] that throws,
    or the failure of the iteration after the last chunk. *)
Fixpoint chunksError (chunks : list Chunk) (failure : option string) : option string :=
  match chunks with
  | [] => failure
  | chunk :: rest =>
      match chunk_text chunk with
      | Returned _ => chunksError rest failure
      | Thrown e => Some e
      end
  end.

Definition streamError (stream : Stream) : option string :=
  chunksError (stream_chunks stream) (stream_failure stream).

(** The session a turn talks to: the open one, or a new one for the model
    selected. *)
Definition sessionOfTurn (st : State) : ChatSession :=
  default (mkChatSession (default MODEL_NAME (modelSelectValue st))) (chatSession st).

(** The first guard of [handleSendMessage]: nothing typed and nothing queued. *)
Definition submitBlank (st : State) : bool :=
  negb (JS.truthy (JS.trim (messageInputValue st)))
  && bool_decide (length (uploadedFiles st) = 0%nat).

(** The messages a failed turn ends with. *)
Definition errorMessages (env : Env) (result : outcome unit) : list Message :=
  match result with
  | Returned _ => []
  | Thrown e => [mkMessage (now_error env + 1) model (errorText e) None]
  end.

(** The metadata an exchange resolves to ([None] for an undefined
    [response.file]). *)
Definition uploadedMeta (x : UploadExchange) : option FileMeta :=
  match upload_transfer x with
  | TransferLoaded _ _ (Some meta) => meta
  | _ => None
  end.

(** The fields the key, the session and the transcript live in. *)
Definition sessionPart (st : State) :=
  (API_KEY st, genAI st, storedApiKey st, isLoading st, chatSession st, messages st).

(** What holds whenever no handler is running: no turn is loading, the
    client is the one of the key in use, the queue has no two files of one
    name and only files of an allowed type, the transcript is not empty, a
    session is open only under a key, and the key in use is the stored one. *)
Definition settled (st : State) : Prop :=
  isLoading st = false ∧
  clientMatchesKey st ∧
  queueInvariant (uploadedFiles st) ∧
  messages st ≠ [] ∧
  (is_Some (chatSession st) → API_KEY st ≠ "") ∧
  (API_KEY st ≠ "" → storedApiKey st = Some (API_KEY st)).

(** The same surroundings with another answer to [countTokens]. *)
Definition withCountTokens (answer : outcome (option Z)) (env : Env) : Env :=
  mkEnv (now_user env) (now_response env) (now_error env) (upload_exchange env) answer
    (sendMessageStream_result env).

(** Two states that differ at most in the token counts of their messages
    and in the number of renderings. *)
Definition sameButTokens (s s' : State) : Prop :=
  shownPart <$> messages s = shownPart <$> messages s' ∧
  outsideTranscript s = outsideTranscript s' ∧
  requests s = requests s'.

(** Whether the client call of line 1140 returns: a client is set and the
    model name selected is not empty. *)
Definition clientReturns (st : State) : bool :=
  match genAI st with
  | Some _ => JS.truthy (default MODEL_NAME (modelSelectValue st))
  | None => false
  end.

(** The placeholder a turn pushes: none when the client call threw. *)
Definition placeholderMessages (env : Env) (st : State) : list Message :=
  if clientReturns st then [placeholderMessage env] else [].

(** * Properties *)

(** ** Strings *)

Lemma append_nil_l (b : string) : "" +:+ b = b.
Proof. reflexivity. Qed.

Lemma append_cons (x : ascii) (a b : string) : String x a +:+ b = String x (a +:+ b).
Proof. reflexivity. Qed.

(** Pushes the appends of a goal under the leading characters. *)
Ltac str_simpl := rewrite ?append_cons, ?append_nil_l.

Lemma append_assoc (a b c : string) : (a +:+ b) +:+ c = a +:+ b +:+ c.
Proof. induction a as [|x a IH]; str_simpl; [reflexivity | by rewrite IH]. Qed.

Lemma append_nil_r (a : string) : a +:+ "" = a.
Proof. induction a as [|x a IH]; str_simpl; [reflexivity | by rewrite IH]. Qed.

Lemma truthy_true_iff (s : string) : JS.truthy s = true ↔ s ≠ "".
Proof. unfold JS.truthy. rewrite negb_true_iff, bool_decide_eq_false. done. Qed.

Lemma truthy_false_iff (s : string) : JS.truthy s = false ↔ s = "".
Proof. unfold JS.truthy. rewrite negb_false_iff, bool_decide_eq_true. done. Qed.

Lemma append_length (a b : string) :
  String.length (a +:+ b) = (String.length a + String.length b)%nat.
Proof. induction a as [|x a IH]; str_simpl; simpl; [reflexivity | by rewrite IH]. Qed.

Lemma lower_char_dot (a : ascii) : JS.lower_char a = "."%char ↔ a = "."%char.
Proof.
  split; [| by intros ->].
  destruct a as [[] [] [] [] [] [] [] []]; vm_compute; congruence.
Qed.

Lemma noChar_dot_lower (s : string) : noChar "." (JS.toLowerCase s) = noChar "." s.
Proof.
  induction s as [|a s IH]; simpl; [reflexivity |].
  rewrite IH. f_equal. f_equal.
  destruct (Ascii.eqb_spec (JS.lower_char a) ".") as [E|E],
           (Ascii.eqb_spec a ".") as [E'|E']; try reflexivity.
  - destruct E'. by apply (proj1 (lower_char_dot a)).
  - destruct E. by apply (proj2 (lower_char_dot a)).
Qed.

Lemma lastIndexOf_go_noChar c s i found :
  noChar c s = true → JS.lastIndexOf_go c s i found = found.
Proof.
  revert i found. induction s as [|a s IH]; intros i found H; simpl in *; [reflexivity |].
  apply andb_prop in H as [Ha Hs].
  destruct (Ascii.eqb a c); [discriminate |]. by apply IH.
Qed.

Lemma lastIndexOf_go_last c stem ext i found :
  noChar c ext = true →
  JS.lastIndexOf_go c (stem +:+ String c ext) i found = i + Z.of_nat (String.length stem).
Proof.
  intros Hext. revert i found.
  induction stem as [|a stem IH]; intros i found; str_simpl; simpl.
  - rewrite Ascii.eqb_refl, lastIndexOf_go_noChar by done. lia.
  - rewrite IH. simpl. lia.
Qed.

Lemma drop_chars_app (stem rest : string) :
  JS.drop_chars (String.length stem) (stem +:+ rest) = rest.
Proof. induction stem as [|a stem IH]; str_simpl; simpl; [by destruct rest | done]. Qed.

Lemma drop_chars_suffix n (s : string) : ∃ stem, s = stem +:+ JS.drop_chars n s.
Proof.
  revert s. induction n as [|n IH]; intros s.
  - exists "". by destruct s.
  - destruct s as [|a s]; simpl.
    + by exists "".
    + destruct (IH s) as [stem E]. exists (String a stem). str_simpl. by rewrite <- E.
Qed.

Lemma trimStart_allWhiteSpace s : allWhiteSpace s = true → JS.trimStart s = "".
Proof.
  induction s as [|a s IH]; simpl; [done |].
  intros [Ha Hs]%andb_prop. rewrite Ha. by apply IH.
Qed.

Lemma trim_allWhiteSpace s : allWhiteSpace s = true → JS.trim s = "".
Proof. intros H. unfold JS.trim. by rewrite trimStart_allWhiteSpace. Qed.

(** ** The type check of the queue *)

Lemma allowList_noDot ext : ext ∈ allowList → noChar "." ext = true.
Proof.
  unfold allowList. rewrite !elem_of_cons, elem_of_nil.
  intros H. repeat destruct H as [->|H]; try reflexivity. destruct H.
Qed.

Lemma validTypes_allowList ext : "." +:+ ext ∈ validTypes ↔ ext ∈ allowList.
Proof.
  change ("." +:+ ext) with (String "." ext).
  unfold validTypes, allowList. rewrite !elem_of_cons, !elem_of_nil.
  split; intros H.
  - repeat destruct H as [H|H]; try (injection H as ->); tauto.
  - repeat destruct H as [->|H]; tauto.
Qed.

Lemma validTypes_dot s : s ∈ validTypes → ∃ ext, s = "." +:+ ext.
Proof.
  unfold validTypes. rewrite !elem_of_cons, elem_of_nil.
  intros H. repeat destruct H as [->|H]; try (eexists; reflexivity). destruct H.
Qed.

(** The test of [processFileUpload] accepts exactly the names that carry an
    allowed extension. *)
Lemma hasValidType_spec (file : File) :
  hasValidType file = true ↔ hasAllowedExtension (file_name file).
Proof.
  unfold hasValidType, fileExtension, hasAllowedExtension.
  rewrite bool_decide_eq_true. split.
  - intros H.
    destruct (validTypes_dot _ H) as [lext E].
    unfold JS.substring in *.
    destruct (drop_chars_suffix (Z.to_nat (Z.max 0 (JS.lastIndexOf "." (file_name file))))
                (file_name file)) as [stem Hstem].
    destruct (JS.drop_chars _ (file_name file)) as [|a ext]; [discriminate |].
    simpl in E. injection E as Ea El.
    apply lower_char_dot in Ea as ->.
    exists stem, ext. split; [exact Hstem |].
    apply validTypes_allowList. exact H.
  - intros (stem & ext & E & Hext).
    assert (noChar "." ext = true) as Hno.
    { rewrite <- noChar_dot_lower. by apply allowList_noDot. }
    rewrite E. unfold JS.lastIndexOf, JS.substring.
    change ("." +:+ ext) with (String "." ext).
    rewrite lastIndexOf_go_last by done.
    replace (Z.to_nat (Z.max 0 (0 + Z.of_nat (String.length stem))))
      with (String.length stem) by lia.
    rewrite drop_chars_app. simpl.
    change (String "." (JS.toLowerCase ext)) with ("." +:+ JS.toLowerCase ext).
    by apply validTypes_allowList.
Qed.

Lemma hasValidType_false (file : File) :
  hasValidType file = false ↔ ¬ hasAllowedExtension (file_name file).
Proof. rewrite <- hasValidType_spec. by destruct (hasValidType file). Qed.

(** ** The attachment queue *)

(** The duplicate test finds nothing exactly when no queued file has the
    name of the incoming one: sizes play no part in it. *)
Lemma existingFileIndex_absent (file : File) (queue : list File) :
  existingFileIndex file queue = -1 ↔ ∀ f, f ∈ queue → file_name f ≠ file_name file.
Proof.
  unfold existingFileIndex, JS.findIndex.
  destruct (list_find _ queue) as [[i f]|] eqn:E.
  - split; [lia |]. intros H.
    apply list_find_Some in E as (Hl & [Hn _] & _).
    destruct (H f); [by eapply list_elem_of_lookup_2 | done].
  - split; [| done]. intros _ f Hf Hn.
    apply list_find_None in E. rewrite Forall_forall in E.
    by apply (E f Hf).
Qed.

Lemma existingFileIndex_present (file : File) (queue : list File) :
  existingFileIndex file queue ≠ -1 → ∃ f, f ∈ queue ∧ file_name f = file_name file.
Proof.
  unfold existingFileIndex, JS.findIndex.
  destruct (list_find _ queue) as [[i f]|] eqn:E; [intros _ | done].
  apply list_find_Some in E as (Hl & [Hn _] & _).
  exists f. split; [by eapply list_elem_of_lookup_2 | done].
Qed.

Lemma processFileUpload_uploadedFiles (file : File) (st : State) :
  uploadedFiles (processFileUpload file st) =
    if hasValidType file && bool_decide (existingFileIndex file (uploadedFiles st) = -1)
    then uploadedFiles st ++ [file] else uploadedFiles st.
Proof.
  unfold processFileUpload.
  destruct (hasValidType file); [| reflexivity].
  by destruct (bool_decide _).
Qed.

(** What the code does with a file of an allowed type: it is appended
    unless a queued file has the same name. *)
Lemma processFileUpload_skips_iff_same_name (file : File) (st : State) :
  hasValidType file = true →
  (uploadedFiles (processFileUpload file st) = uploadedFiles st
     ↔ ∃ f, f ∈ uploadedFiles st ∧ file_name f = file_name file) ∧
  ((¬ ∃ f, f ∈ uploadedFiles st ∧ file_name f = file_name file) →
     uploadedFiles (processFileUpload file st) = uploadedFiles st ++ [file]).
Proof.
  intros Hv. rewrite processFileUpload_uploadedFiles, Hv. simpl.
  case_bool_decide as E.
  - pose proof (proj1 (existingFileIndex_absent _ _) E) as Hno. split.
    + split.
      * intros Heq. apply (f_equal length) in Heq. rewrite length_app in Heq.
        simpl in Heq. lia.
      * intros (f & Hf & Hn). by destruct (Hno f Hf).
    + done.
  - apply existingFileIndex_present in E. split; [by split | by intros []].
Qed.

Lemma processFileUpload_invariant (file : File) (st : State) :
  queueInvariant (uploadedFiles st) →
  queueInvariant (uploadedFiles (processFileUpload file st)).
Proof.
  intros [Hnd Hall]. rewrite processFileUpload_uploadedFiles.
  destruct (hasValidType file) eqn:Hv; simpl; [| done].
  case_bool_decide as E; [| done].
  split.
  - rewrite fmap_app. apply NoDup_app. split_and!; [done | | apply NoDup_singleton].
    intros name (f & -> & Hf)%list_elem_of_fmap Hin. simpl in Hin.
    apply list_elem_of_singleton in Hin.
    by apply (proj1 (existingFileIndex_absent _ _) E f Hf).
  - apply Forall_app. split; [done |]. by repeat constructor.
Qed.

Lemma processFiles_invariant (files : list File) (st : State) :
  queueInvariant (uploadedFiles st) →
  queueInvariant (uploadedFiles (processFiles files st)).
Proof.
  unfold processFiles. revert st.
  induction files as [|file files IH]; intros st H; simpl; [done |].
  apply IH. by apply processFileUpload_invariant.
Qed.

Lemma queueInvariant_nil : queueInvariant [].
Proof. split; constructor. Qed.

Lemma NoDup_names_nameSize (queue : list File) :
  NoDup (file_name <$> queue) → NoDup (nameSize <$> queue).
Proof.
  intros H. apply (NoDup_fmap_1 fst).
  by rewrite <- list_fmap_compose.
Qed.

(** C1 (as the code runs): with [report.pdf] of 100 bytes queued, adding a
    [report.pdf] of 200 bytes, a file of an allowed type whose (name, size)
    pair is not in the queue, leaves the queue unchanged: the file is
    skipped where C1 has it appended. *)
Theorem C1_same_name_other_size_is_skipped :
  let st := set_uploadedFiles [reportPdf 100] sampleState in
  let incoming := reportPdf 200 in
  hasValidType incoming = true ∧
  (∀ f, f ∈ uploadedFiles st → nameSize f ≠ nameSize incoming) ∧
  uploadedFiles (processFileUpload incoming st) = uploadedFiles st ∧
  uploadedFiles (processFileUpload incoming st) ≠ uploadedFiles st ++ [incoming].
Proof.
  cbv zeta. split_and!.
  - by vm_compute.
  - intros f Hf. simpl in Hf. apply list_elem_of_singleton in Hf as ->.
    unfold nameSize, reportPdf. simpl. intros [=].
  - by vm_compute.
  - vm_compute. intros [=].
Qed.

(** C5: after any sequence of [add(file)] calls from an empty queue no two
    entries have the same (name, size) pair and every entry carries an
    extension of the allow-list (letter case apart, as the code compares
    it); and a file whose extension is not allowed is rejected with the
    alert, the queue staying as it was. *)
Theorem C5_queue_invariant (files : list File) (st : State) (rejected : File) (st' : State) :
  uploadedFiles st = [] →
  ¬ hasAllowedExtension (file_name rejected) →
  let queue := uploadedFiles (processFiles files st) in
  NoDup (nameSize <$> queue) ∧
  (∀ f, f ∈ queue → hasAllowedExtension (file_name f)) ∧
  uploadedFiles (processFileUpload rejected st') = uploadedFiles st' ∧
  alerts (processFileUpload rejected st') = alerts st' ++ [invalidTypeAlert].
Proof.
  intros Hempty Hrej queue.
  assert (queueInvariant queue) as [Hnd Hall].
  { apply processFiles_invariant. rewrite Hempty. apply queueInvariant_nil. }
  apply hasValidType_false in Hrej.
  split_and!.
  - by apply NoDup_names_nameSize.
  - intros f Hf. apply hasValidType_spec. rewrite Forall_forall in Hall. by apply Hall.
  - rewrite processFileUpload_uploadedFiles, Hrej. reflexivity.
  - unfold processFileUpload. rewrite Hrej. reflexivity.
Qed.

Lemma C5_queue_invariant_witness :
  let files := [reportPdf 100; mkFile "setup.exe" 7 ""; reportPdf 200; mkFile "Scan.JPEG" 9 "image/jpeg"] in
  let st := set_uploadedFiles [] sampleState in
  let rejected := mkFile "report.exe" 5 "application/octet-stream" in
  let queue := uploadedFiles (processFiles files st) in
  queue = [reportPdf 100; mkFile "Scan.JPEG" 9 "image/jpeg"] ∧
  NoDup (nameSize <$> queue) ∧
  (∀ f, f ∈ queue → hasAllowedExtension (file_name f)) ∧
  uploadedFiles (processFileUpload rejected sampleState) = uploadedFiles sampleState ∧
  alerts (processFileUpload rejected sampleState) = alerts sampleState ++ [invalidTypeAlert].
Proof.
  cbv zeta. split; [by vm_compute |].
  apply (C5_queue_invariant _ (set_uploadedFiles [] sampleState)
           (mkFile "report.exe" 5 "application/octet-stream") sampleState).
  - reflexivity.
  - apply hasValidType_false. by vm_compute.
Defined.

(** C10: [removeFile(index)] with an index below 0 or not below the length
    of the queue changes nothing; with an index in range it removes the
    entry at that position and keeps the others in their order. *)
Theorem C10_removeFile (index : Z) (st : State) :
  let queue := uploadedFiles st in
  ((index < 0 ∨ Z.of_nat (length queue) ≤ index) → removeFile index st = st) ∧
  (0 ≤ index < Z.of_nat (length queue) →
     uploadedFiles (removeFile index st)
       = take (Z.to_nat index) queue ++ drop (S (Z.to_nat index)) queue ∧
     S (length (uploadedFiles (removeFile index st))) = length queue).
Proof.
  cbv zeta. unfold removeFile. split.
  - intros H.
    destruct (bool_decide (0 ≤ index)) eqn:E1; simpl; [| reflexivity].
    destruct (bool_decide (index < _)) eqn:E2; [| reflexivity].
    apply bool_decide_eq_true in E1, E2. lia.
  - intros [H1 H2].
    rewrite (bool_decide_eq_true_2 _ H1), (bool_decide_eq_true_2 _ H2). simpl.
    assert (uploadedFiles
              (if bool_decide (length (delete (Z.to_nat index) (uploadedFiles st)) = 0%nat)
               then set_fileInputValue ""
                      (set_uploadedFiles (delete (Z.to_nat index) (uploadedFiles st)) st)
               else set_uploadedFiles (delete (Z.to_nat index) (uploadedFiles st)) st)
            = delete (Z.to_nat index) (uploadedFiles st)) as E
      by (by destruct (bool_decide _)).
    rewrite E. split; [apply delete_take_drop |].
    rewrite length_delete; [lia |].
    apply lookup_lt_is_Some. lia.
Qed.

Lemma C10_removeFile_witness :
  let st := set_uploadedFiles [reportPdf 1; reportPdf 2; reportPdf 3] sampleState in
  removeFile (-1) st = st ∧ removeFile 3 st = st ∧
  uploadedFiles (removeFile 1 st) = [reportPdf 1; reportPdf 3].
Proof.
  cbv zeta. split_and!.
  - apply (C10_removeFile (-1)). left. lia.
  - apply (C10_removeFile 3). right. simpl. lia.
  - apply (C10_removeFile 1). simpl. lia.
Defined.

(** ** Blank submissions *)

(** C4: a submission whose text is empty or made of white space only, with
    an empty queue, changes nothing: transcript, loading flag and queue
    (and the rest of the state) are as before. *)
Theorem C4_blank_submit_is_noop (env : Env) (st : State) :
  allWhiteSpace (messageInputValue st) = true →
  uploadedFiles st = [] →
  let st' := handleSendMessage env st in
  messages st' = messages st ∧ isLoading st' = isLoading st ∧
  uploadedFiles st' = uploadedFiles st ∧ st' = st.
Proof.
  intros Hws Hq. cbv zeta.
  assert (handleSendMessage env st = st) as ->; [| done].
  unfold handleSendMessage. rewrite (trim_allWhiteSpace _ Hws), Hq. reflexivity.
Qed.

Lemma C4_blank_submit_is_noop_witness :
  let env := sampleEnv (λ _, completedUpload "files/1") (Returned sampleStream) in
  let st := set_messageInputValue (" " +:+ nl +:+ "  ") sampleState in
  handleSendMessage env st = st.
Proof.
  cbv zeta.
  apply (C4_blank_submit_is_noop
           (sampleEnv (λ _, completedUpload "files/1") (Returned sampleStream))
           (set_messageInputValue (" " +:+ nl +:+ "  ") sampleState)); reflexivity.
Defined.

(** ** Credential and model changes *)

Lemma saveApiKey_saved (now : Z) (st : State) :
  JS.truthy (JS.trim (apiKeyInputValue st)) = true →
  chatSession (saveApiKey now st) = None ∧
  messages (saveApiKey now st) = messages st ++ [mkMessage now model apiKeySavedText None] ∧
  API_KEY (saveApiKey now st) = JS.trim (apiKeyInputValue st) ∧
  storedApiKey (saveApiKey now st) = Some (JS.trim (apiKeyInputValue st)).
Proof. intros H. unfold saveApiKey. rewrite H. simpl. done. Qed.

Lemma resetSession_result (now : Z) (st : State) :
  chatSession (resetSession now st) = None ∧
  uploadedFiles (resetSession now st) = [] ∧
  messages (resetSession now st) =
    [mkMessage now model
       (if JS.truthy (API_KEY st) then welcomeText else welcomeText +:+ setupNotice) None].
Proof.
  unfold resetSession, initializeChat, removeAllFiles. simpl.
  by destruct (JS.truthy (API_KEY st)).
Qed.

(** C2 (as stated) fails for a model change: once the user confirms, the
    messages of the transcript are gone although the handle is reset; if
    the user declines, the handle is not reset. *)
Lemma C2_model_change_clears_transcript :
  let confirmed := modelSelectChange "gemini-2.5-pro" true 30 sampleState in
  let declined := modelSelectChange "gemini-2.5-pro" false 30 sampleState in
  ¬ (chatSession confirmed = None ∧ ∀ m, m ∈ messages sampleState → m ∈ messages confirmed) ∧
  ¬ (chatSession declined = None ∧ ∀ m, m ∈ messages sampleState → m ∈ messages declined).
Proof.
  cbv zeta. split.
  - intros [_ H].
    specialize (H (mkMessage 20 user "Summarize" None)).
    assert (mkMessage 20 user "Summarize" None ∈ messages sampleState) as Hin
      by (simpl; rewrite !elem_of_cons; tauto).
    apply H in Hin. unfold modelSelectChange in Hin.
    rewrite (proj2 (proj2 (resetSession_result _ _))) in Hin.
    apply list_elem_of_singleton in Hin. discriminate Hin.
  - intros [H _]. vm_compute in H. discriminate.
Qed.

(** C2 (amended): saving a new non-blank API key empties the session handle
    and keeps the transcript, to which one confirmation message is added (a
    blank key changes nothing but the alert shown); a model change the user
    confirms is a full reset, whatever the key dialog holds: handle and
    queue are emptied and the transcript is replaced by the greeting alone;
    one the user declines leaves handle, transcript and queue as they
    are. *)
Theorem C2_credential_or_model_change (now : Z) (st : State) (newValue : string) :
  (JS.trim (apiKeyInputValue st) ≠ "" →
     chatSession (saveApiKey now st) = None ∧
     messages (saveApiKey now st)
       = messages st ++ [mkMessage now model apiKeySavedText None]) ∧
  (JS.trim (apiKeyInputValue st) = "" →
     saveApiKey now st = alert "Please enter a valid API key" st) ∧
  (chatSession (modelSelectChange newValue true now st) = None ∧
   uploadedFiles (modelSelectChange newValue true now st) = [] ∧
   messages (modelSelectChange newValue true now st)
     = [mkMessage now model
          (if bool_decide (API_KEY st = "") then welcomeText +:+ setupNotice else welcomeText)
          None]) ∧
  (chatSession (modelSelectChange newValue false now st) = chatSession st ∧
   messages (modelSelectChange newValue false now st) = messages st ∧
   uploadedFiles (modelSelectChange newValue false now st) = uploadedFiles st ∧
   modelSelectChange newValue false now st = set_modelSelectValue (Some newValue) st).
Proof.
  split_and!.
  - intros Hkey%truthy_true_iff. split; by apply saveApiKey_saved.
  - intros Hkey. unfold saveApiKey. by rewrite Hkey.
  - apply resetSession_result.
  - apply resetSession_result.
  - unfold modelSelectChange.
    rewrite (proj2 (proj2 (resetSession_result now _))).
    change (API_KEY (set_modelSelectValue (Some newValue) st)) with (API_KEY st).
    unfold JS.truthy. by destruct (bool_decide (API_KEY st = "")).
  - reflexivity.
  - reflexivity.
  - reflexivity.
  - reflexivity.
Qed.

Lemma C2_credential_or_model_change_witness :
  let st := set_apiKeyInputValue " NEW-KEY " sampleState in
  (chatSession (saveApiKey 30 st) = None ∧
   messages (saveApiKey 30 st) = messages st ++ [mkMessage 30 model apiKeySavedText None]) ∧
  messages (modelSelectChange "gemini-2.5-pro" true 30 sampleState)
    = [mkMessage 30 model welcomeText None] ∧
  chatSession (modelSelectChange "gemini-2.5-pro" false 30 sampleState)
    = Some (mkChatSession MODEL_NAME).
Proof.
  cbv zeta.
  destruct (C2_credential_or_model_change 30
              (set_apiKeyInputValue " NEW-KEY " sampleState) "") as (Hsave & _).
  destruct (C2_credential_or_model_change 30 sampleState "gemini-2.5-pro")
    as (_ & _ & (_ & _ & Hm) & (Hc & _)).
  split_and!; [apply Hsave; by vm_compute | apply Hsave; by vm_compute | exact Hm | exact Hc].
Defined.

(** ** The phases of a turn *)

Lemma addRequests_nil (st : State) : addRequests [] st = st.
Proof. destruct st. unfold addRequests. simpl. by rewrite app_nil_r. Qed.

Lemma addRequests_addRequests (rs rs' : list Request) (st : State) :
  addRequests rs' (addRequests rs st) = addRequests (rs ++ rs') st.
Proof. unfold addRequests. simpl. by rewrite app_assoc. Qed.

Lemma send_addRequests (r : Request) (st : State) : send r st = addRequests [r] st.
Proof. reflexivity. Qed.

Lemma pushUserMessage_eq (now : Z) (userMessage : string) (st : State) :
  pushUserMessage now userMessage st =
    set_messages (messages st ++ userMessages now userMessage (uploadedFiles st)) st.
Proof.
  unfold pushUserMessage, userMessages.
  destruct (JS.truthy userMessage); [reflexivity |].
  destruct (bool_decide _); [reflexivity |].
  destruct st. unfold set_messages. simpl. by rewrite app_nil_r.
Qed.

(** [openTurn], phase by phase. *)
Lemma openTurn_eq (env : Env) (userMessage : string) (st : State) :
  openTurn env userMessage st =
    match genAI st with
    | None =>
        (Thrown "Cannot read properties of null (reading 'getGenerativeModel')",
         turnStart env userMessage st)
    | Some _ =>
        let finalMessage :=
          composeFinalMessage (getActivePrefixContent st) userMessage (uploadedFiles st) in
        let modelName := default MODEL_NAME (modelSelectValue st) in
        if JS.truthy modelName then
          match attachFiles env (textParts finalMessage (uploadedFiles st))
                  (turnReady env userMessage st) with
          | (Thrown e, s1) => (Thrown e, s1)
          | (Returned contentParts, s1) =>
              match countInputTokens env modelName (now_response env + 1) contentParts s1 with
              | (Thrown e, s2) => (Thrown e, s2)
              | (Returned _, s2) =>
                  match sendMessageStream env contentParts s2 with
                  | (Returned stream, s3) => (Returned (now_response env + 1, stream), s3)
                  | (Thrown e, s3) => (Thrown e, s3)
                  end
              end
          end
        else (Thrown modelNameRequiredText, turnStart env userMessage st)
    end.
Proof.
  unfold openTurn, mbind, Turn_bind, mret, Turn_ret, modify, gets, getGenerativeModel,
    turnReady, turnStart.
  rewrite pushUserMessage_eq.
  cbn beta iota.
  change (genAI (render _)) with (genAI st).
  change (modelSelectValue (render _)) with (modelSelectValue st).
  destruct (genAI st); [| reflexivity].
  cbn beta iota zeta.
  destruct (JS.truthy (default MODEL_NAME (modelSelectValue st))); [| reflexivity].
  cbn beta iota zeta.
  destruct (attachFiles _ _ _) as [[parts|e] s1]; [| reflexivity].
  destruct (countInputTokens _ _ _ _ _) as [[[]|e] s2]; [| reflexivity].
  destruct (sendMessageStream _ _ _) as [[stream|e] s3]; reflexivity.
Qed.

Lemma turnReady_fields (env : Env) (userMessage : string) (st : State) :
  API_KEY (turnReady env userMessage st) = API_KEY st ∧
  genAI (turnReady env userMessage st) = genAI st ∧
  uploadedFiles (turnReady env userMessage st) = uploadedFiles st ∧
  isLoading (turnReady env userMessage st) = true ∧
  requests (turnReady env userMessage st) = requests st ∧
  is_Some (chatSession (turnReady env userMessage st)) ∧
  messages (turnReady env userMessage st) =
    messages st ++ userMessages (now_user env) userMessage (uploadedFiles st)
      ++ [placeholderMessage env].
Proof.
  unfold turnReady, turnStart, ensureChatSession, pushPlaceholder, placeholderMessage.
  rewrite pushUserMessage_eq. simpl.
  destruct (chatSession st) eqn:E; simpl; rewrite ?E, <- ?app_assoc; split_and!; eauto.
Qed.

(** ** Uploads *)

Lemma uploadFileToGemini_completes (x : UploadExchange) (file : File) (st : State) :
  JS.truthy (API_KEY st) = true → uploadCompletes x = true →
  ∃ meta rs, uploadFileToGemini x file st = (Returned meta, addRequests rs st).
Proof.
  unfold uploadCompletes, uploadFileToGemini. intros Hk Hc. rewrite Hk.
  destruct (upload_start x) as [|[] body url]; try discriminate.
  destruct (upload_transfer x) as [|status text [meta|]]; try discriminate.
  apply andb_prop in Hc as [Hu Hs]. rewrite Hu, Hs. cbn [negb].
  exists meta, [UploadStart (API_KEY st) file; UploadTransfer url file].
  by rewrite !send_addRequests, addRequests_addRequests.
Qed.

Lemma uploadFileToGemini_refused (x : UploadExchange) (file : File) (st : State) body url :
  JS.truthy (API_KEY st) = true → upload_start x = StartResponded false body url →
  uploadFileToGemini x file st =
    (Thrown ("Failed to initialize upload: " +:+ body),
     addRequests [UploadStart (API_KEY st) file] st).
Proof. unfold uploadFileToGemini. intros -> ->. reflexivity. Qed.

(** The text of the error a refused upload start ends the turn with. *)
Lemma uploadFiles_refused (x : nat → UploadExchange) (pre : list File) :
  ∀ (i : nat) (file : File) (post : list File) (st : State) (body url : string),
    JS.truthy (API_KEY st) = true →
    (∀ j, (j < length pre)%nat → uploadCompletes (x (i + j)%nat) = true) →
    upload_start (x (i + length pre)%nat) = StartResponded false body url →
    ∃ rs, uploadFiles x i (pre ++ file :: post) st =
            (Thrown ("Failed to upload " +:+ file_name file
                     +:+ ": Failed to initialize upload: " +:+ body),
             addRequests rs st).
Proof.
  induction pre as [|f pre IH]; intros i file post st body url Hk Hpre Hstart.
  - simpl in *. rewrite Nat.add_0_r in Hstart.
    rewrite (uploadFileToGemini_refused _ _ _ _ _ Hk Hstart). eexists. reflexivity.
  - simpl.
    destruct (uploadFileToGemini_completes (x i) f st Hk) as (meta & rs & ->).
    { rewrite <- (Nat.add_0_r i). apply Hpre. simpl. lia. }
    destruct (IH (S i) file post (addRequests rs st) body url) as [rs' ->].
    + exact Hk.
    + intros j Hj. replace (S i + j)%nat with (i + S j)%nat by lia. apply Hpre. simpl. lia.
    + replace (S i + length pre)%nat with (i + length (f :: pre))%nat by (simpl; lia).
      exact Hstart.
    + rewrite addRequests_addRequests. eexists. reflexivity.
Qed.

Lemma bool_decide_length_pos {A} (pre : list A) (x : A) (post : list A) :
  bool_decide (0 < length (pre ++ x :: post))%nat = true.
Proof. apply bool_decide_eq_true. rewrite length_app. simpl. lia. Qed.

Lemma attachFiles_refused (env : Env) (parts : list Part) (st : State)
    (pre post : list File) (file : File) (body url : string) :
  JS.truthy (API_KEY st) = true →
  uploadedFiles st = pre ++ file :: post →
  (∀ j, (j < length pre)%nat → uploadCompletes (upload_exchange env j) = true) →
  upload_start (upload_exchange env (length pre)) = StartResponded false body url →
  ∃ rs, attachFiles env parts st =
          (Thrown ("Failed to upload " +:+ file_name file
                   +:+ ": Failed to initialize upload: " +:+ body),
           addRequests rs st).
Proof.
  intros Hk Hq Hpre Hstart. unfold attachFiles. rewrite Hq, bool_decide_length_pos.
  destruct (uploadFiles_refused (upload_exchange env) pre 0 file post st body url)
    as [rs ->]; eauto.
Qed.

(** What [handleSendMessage] leaves when the [try] block throws. *)
Lemma handleSendMessage_thrown (env : Env) (st st1 : State) (e : string) :
  JS.truthy (API_KEY st) = true →
  (JS.truthy (JS.trim (messageInputValue st)) = true ∨ uploadedFiles st ≠ []) →
  sendTurn env (JS.trim (messageInputValue st)) st = (Thrown e, st1) →
  handleSendMessage env st = render (set_isLoading false (handleTurnError env e st1)).
Proof.
  intros Hk Hg Ht. unfold handleSendMessage.
  assert (negb (JS.truthy (JS.trim (messageInputValue st)))
          && bool_decide (length (uploadedFiles st) = 0%nat) = false) as ->.
  { destruct Hg as [->|Hq]; [reflexivity |].
    apply andb_false_intro2, bool_decide_eq_false.
    by destruct (uploadedFiles st). }
  rewrite Hk, Ht. reflexivity.
Qed.

Lemma handleSendMessage_returned (env : Env) (st st1 : State) :
  JS.truthy (API_KEY st) = true →
  (JS.truthy (JS.trim (messageInputValue st)) = true ∨ uploadedFiles st ≠ []) →
  sendTurn env (JS.trim (messageInputValue st)) st = (Returned tt, st1) →
  handleSendMessage env st = render (set_isLoading false st1).
Proof.
  intros Hk Hg Ht. unfold handleSendMessage.
  assert (negb (JS.truthy (JS.trim (messageInputValue st)))
          && bool_decide (length (uploadedFiles st) = 0%nat) = false) as ->.
  { destruct Hg as [->|Hq]; [reflexivity |].
    apply andb_false_intro2, bool_decide_eq_false.
    by destruct (uploadedFiles st). }
  rewrite Hk, Ht. reflexivity.
Qed.

Lemma handleTurnError_fields (env : Env) (e : string) (st : State) :
  messages (handleTurnError env e st) =
    messages st ++ [mkMessage (now_error env + 1) model (errorText e) None] ∧
  uploadedFiles (handleTurnError env e st) = uploadedFiles st ∧
  requests (handleTurnError env e st) = requests st ∧
  API_KEY (handleTurnError env e st) = (if isApiKeyError e then "" else API_KEY st) ∧
  chatSession (handleTurnError env e st) = (if isApiKeyError e then None else chatSession st).
Proof. unfold handleTurnError. by destruct (isApiKeyError e). Qed.

Lemma sendTurn_openTurn_thrown (env : Env) (userMessage : string) (st st1 : State) e :
  openTurn env userMessage st = (Thrown e, st1) →
  sendTurn env userMessage st = (Thrown e, st1).
Proof. intros H. unfold sendTurn, mbind, Turn_bind. by rewrite H. Qed.

(** The [finally] block touches the loading flag and the renderer only. *)
Lemma finally_fields (st : State) :
  messages (render (set_isLoading false st)) = messages st ∧
  uploadedFiles (render (set_isLoading false st)) = uploadedFiles st ∧
  API_KEY (render (set_isLoading false st)) = API_KEY st ∧
  chatSession (render (set_isLoading false st)) = chatSession st ∧
  requests (render (set_isLoading false st)) = requests st ∧
  isLoading (render (set_isLoading false st)) = false.
Proof. done. Qed.

Lemma truthy_cons (a : ascii) (s : string) : JS.truthy (String a s) = true.
Proof. unfold JS.truthy. by rewrite bool_decide_eq_false_2. Qed.



(** ** Upload refused at its start *)

(** C8 (as stated) fails when the refusal reads as an invalid key: the one
    message the transcript gains after the placeholder is the API-key
    message, and no message holds the upload error text. *)
Lemma C8_key_refusal_hides_upload_error :
  let body := "API key not valid. Please pass a valid API key." in
  let env := sampleEnv (λ _, refusedUpload body) (Returned sampleStream) in
  let st := set_uploadedFiles [reportPdf 100] sampleState in
  upload_start (upload_exchange env 0) = StartResponded false body "" ∧
  ¬ ∃ m, m ∈ messages (handleSendMessage env st) ∧
         (JS.includes body (msg_text m) = true ∨
          JS.includes "Failed to initialize upload" (msg_text m) = true).
Proof.
  cbv zeta. split; [reflexivity |].
  intros (m & Hm & Hinc).
  assert (Forall (λ m, JS.includes "API key not valid. Please pass a valid API key." (msg_text m) = false
                       ∧ JS.includes "Failed to initialize upload" (msg_text m) = false)
            (messages (handleSendMessage
                         (sampleEnv (λ _, refusedUpload "API key not valid. Please pass a valid API key.")
                            (Returned sampleStream))
                         (set_uploadedFiles [reportPdf 100] sampleState)))) as Hall
    by (vm_compute; repeat constructor).
  rewrite Forall_forall in Hall. destruct (Hall m Hm) as [H1 H2].
  destruct Hinc; congruence.
Qed.

(** C8 (amended): when the start request of an upload is answered with a
    non-success status, the turn stops there: after the user message and
    the empty placeholder the transcript gains one model message, which
    carries the upload error text, or the API-key text (with the key
    cleared) if the error text contains 'API key not valid'; the loading
    flag is false again and the queue is not cleared. An upload is started
    only once the client call of line 1140 has returned: a client is set
    and the model name selected is not empty. *)
Theorem C8_upload_start_refused (env : Env) (st : State) (pre post : list File)
    (file : File) (body url : string) :
  JS.truthy (API_KEY st) = true →
  genAI st ≠ None →
  default MODEL_NAME (modelSelectValue st) ≠ "" →
  uploadedFiles st = pre ++ file :: post →
  (∀ j, (j < length pre)%nat → uploadCompletes (upload_exchange env j) = true) →
  upload_start (upload_exchange env (length pre)) = StartResponded false body url →
  let uploadError :=
    "Failed to upload " +:+ file_name file +:+ ": Failed to initialize upload: " +:+ body in
  let st' := handleSendMessage env st in
  messages st' =
    messages st ++ userMessages (now_user env) (JS.trim (messageInputValue st)) (uploadedFiles st)
      ++ [placeholderMessage env;
          mkMessage (now_error env + 1) model (errorText uploadError) None] ∧
  (JS.includes "API key not valid" uploadError = false →
     errorText uploadError = "Error: " +:+ uploadError) ∧
  (JS.includes "API key not valid" uploadError = true →
     errorText uploadError = apiKeyErrorText ∧ API_KEY st' = "") ∧
  isLoading st' = false ∧
  uploadedFiles st' = uploadedFiles st.
Proof.
  intros Hk Hg Hsel Hq Hpre Hstart uploadError st'.
  set (um := JS.trim (messageInputValue st)).
  destruct (turnReady_fields env um st) as (Hk' & _ & Hq' & _ & _ & _ & Hm).
  destruct (attachFiles_refused env
              (textParts (composeFinalMessage (getActivePrefixContent st) um (uploadedFiles st))
                 (uploadedFiles st))
              (turnReady env um st) pre post file body url) as [rs Hatt];
    [by rewrite Hk' | by rewrite Hq' | done | done |].
  assert (sendTurn env um st = (Thrown uploadError, addRequests rs (turnReady env um st))) as Ht.
  { apply sendTurn_openTurn_thrown. rewrite openTurn_eq.
    destruct (genAI st); [| done]. cbv zeta.
    by rewrite (proj2 (truthy_true_iff _) Hsel), Hatt. }
  assert (st' = render (set_isLoading false
                          (handleTurnError env uploadError
                             (addRequests rs (turnReady env um st))))) as ->.
  { apply handleSendMessage_thrown; [done | | done].
    right. rewrite Hq. by destruct pre. }
  destruct (handleTurnError_fields env uploadError (addRequests rs (turnReady env um st)))
    as (Em & Eq & _ & Ek & _).
  assert (isApiKeyError uploadError = JS.includes "API key not valid" uploadError) as Eapi.
  { unfold isApiKeyError, uploadError. str_simpl. by rewrite truthy_cons. }
  destruct (finally_fields (handleTurnError env uploadError
                               (addRequests rs (turnReady env um st))))
    as (-> & -> & -> & _ & _ & ->).
  split_and!.
  - rewrite Em. change (messages (addRequests rs ?s)) with (messages s).
    rewrite Hm, <- !app_assoc. reflexivity.
  - intros Hno. unfold errorText. rewrite Eapi, Hno.
    unfold uploadError at 1. str_simpl. by rewrite truthy_cons.
  - intros Hyes. split.
    + unfold errorText. by rewrite Eapi, Hyes.
    + rewrite Ek, Eapi, Hyes. reflexivity.
  - reflexivity.
  - rewrite Eq. exact Hq'.
Qed.

Lemma C8_upload_start_refused_witness :
  let env := sampleEnv (λ i, match i with
                             | O => completedUpload "files/1"
                             | _ => refusedUpload "quota exceeded"
                             end) (Returned sampleStream) in
  let st := set_messageInputValue "Compare"
              (set_uploadedFiles [reportPdf 100; mkFile "esg.pdf" 7 "application/pdf"] sampleState) in
  messages (handleSendMessage env st) =
    messages st ++
      [mkMessage 100 user "Compare" None;
       mkMessage 102 model "" (Some (mkTokenCounts (Some 0) (Some 0) None));
       mkMessage 103 model
         "Error: Failed to upload esg.pdf: Failed to initialize upload: quota exceeded" None] ∧
  isLoading (handleSendMessage env st) = false ∧
  uploadedFiles (handleSendMessage env st) = uploadedFiles st.
Proof.
  cbv zeta.
  destruct (C8_upload_start_refused
              (sampleEnv (λ i, match i with
                               | O => completedUpload "files/1"
                               | _ => refusedUpload "quota exceeded"
                               end) (Returned sampleStream))
              (set_messageInputValue "Compare"
                 (set_uploadedFiles [reportPdf 100; mkFile "esg.pdf" 7 "application/pdf"]
                    sampleState))
              [reportPdf 100] [] (mkFile "esg.pdf" 7 "application/pdf") "quota exceeded" "")
    as (Hm & _ & _ & Hl & Hq).
  - reflexivity.
  - discriminate.
  - discriminate.
  - reflexivity.
  - intros j Hj. simpl in Hj. assert (j = 0%nat) as -> by lia. reflexivity.
  - reflexivity.
  - split_and!; [| exact Hl | exact Hq].
    rewrite Hm. reflexivity.
Defined.

(** ** Streaming *)

Lemma fmap_alter_same {A B} (f : A → B) (g : A → A) (l : list A) (i : nat) :
  (∀ x, f (g x) = f x) → f <$> alter g i l = f <$> l.
Proof.
  intros H. rewrite (list_fmap_alter f g (λ y, y)).
  - by apply list_alter_id.
  - apply Forall_forall. auto.
Qed.

(** One chunk: the response text grows by what the chunk adds; the message
    written is the first one whose id is [responseId]; identities and roles
    of the transcript and the queue stay as they are. *)
Lemma applyChunk_readable (responseId : Z) (chunk : Chunk) (said chunkText : string)
    (st : State) :
  chunk_text chunk = Returned chunkText →
  ∃ st', applyChunk responseId chunk said st
           = (Returned ((said +:+ chunkText) +:+ chunkAnnotation chunk), st') ∧
         header <$> messages st' = header <$> messages st ∧
         uploadedFiles st' = uploadedFiles st ∧
         ∀ i, textAt i st' = textAt i st ∨
              textAt i st' = (said +:+ chunkText) +:+ chunkAnnotation chunk.
Proof.
  intros Ht. unfold applyChunk. rewrite Ht.
  case_bool_decide as E.
  - eexists. split; [reflexivity |]. split_and!.
    + simpl. by apply fmap_alter_same.
    + reflexivity.
    + intros i. unfold textAt. simpl. rewrite list_lookup_alter.
      case_decide as Ei; [| by left].
      subst i. destruct (messages st !! _); [by right | by left].
  - eexists. split; [reflexivity |]. split_and!; auto.
Qed.

Lemma applyChunk_thrown (responseId : Z) (chunk : Chunk) (said e : string) (st : State) :
  chunk_text chunk = Thrown e → applyChunk responseId chunk said st = (Thrown e, st).
Proof. intros Ht. unfold applyChunk. by rewrite Ht. Qed.

Lemma chunkAdds_readable (chunk : Chunk) (chunkText : string) :
  chunk_text chunk = Returned chunkText →
  chunkAdds chunk = chunkText +:+ chunkAnnotation chunk.
Proof. intros Ht. unfold chunkAdds. by rewrite Ht. Qed.

(** The loop over readable chunks returns, with the accumulated text. *)
Lemma applyChunks_readable (responseId : Z) (chunks : list Chunk) :
  Forall chunkReadable chunks →
  ∀ (said : string) (st : State),
    ∃ st', applyChunks responseId chunks said st
             = (Returned (said +:+ streamText chunks), st') ∧
           header <$> messages st' = header <$> messages st ∧
           uploadedFiles st' = uploadedFiles st.
Proof.
  induction 1 as [|chunk rest [chunkText Ht] _ IH]; intros said st.
  - exists st. simpl. by rewrite append_nil_r.
  - destruct (applyChunk_readable responseId chunk said chunkText st Ht)
      as (st1 & E1 & Hh1 & Hq1 & _).
    destruct (IH ((said +:+ chunkText) +:+ chunkAnnotation chunk) st1)
      as (st2 & E2 & Hh2 & Hq2).
    exists st2. split_and!.
    + simpl. unfold mbind, Turn_bind. rewrite E1, E2.
      rewrite (chunkAdds_readable _ _ Ht), !append_assoc. reflexivity.
    + congruence.
    + congruence.
Qed.

Lemma streamText_app (pre post : list Chunk) :
  streamText (pre ++ post) = streamText pre +:+ streamText post.
Proof.
  induction pre as [|c pre IH]; simpl; [reflexivity |].
  by rewrite IH, append_assoc.
Qed.

(** Between two consecutive states shown during the loop, the text at any
    position that held a beginning of the response text is extended. *)
Lemma streamSnapshots_extend (responseId : Z) (p : nat) (chunks : list Chunk) :
  ∀ (said : string) (st : State) (k : nat) (before after : State),
    (∃ rest, said = textAt p st +:+ rest) →
    (st :: streamSnapshots responseId chunks said st) !! k = Some before →
    (st :: streamSnapshots responseId chunks said st) !! S k = Some after →
    ∃ added, textAt p after = textAt p before +:+ added.
Proof.
  induction chunks as [|chunk chunks IH]; intros said st k before after Hinv Hb Ha.
  - destruct k; discriminate.
  - cbn [streamSnapshots] in Hb, Ha.
    destruct (chunk_text chunk) as [chunkText|e] eqn:Ht.
    + destruct (applyChunk_readable responseId chunk said chunkText st Ht)
        as (st1 & E1 & _ & _ & Htext).
      rewrite E1 in Hb, Ha.
      destruct Hinv as [rest Hsaid].
      destruct k as [|k].
      * simpl in Hb, Ha. injection Hb as <-. injection Ha as <-.
        destruct (Htext p) as [->| ->].
        -- exists "". by rewrite append_nil_r.
        -- exists (rest +:+ chunkText +:+ chunkAnnotation chunk).
           rewrite Hsaid at 1. by rewrite !append_assoc.
      * apply (IH ((said +:+ chunkText) +:+ chunkAnnotation chunk) st1 k before after).
        -- destruct (Htext p) as [->| ->].
           ++ exists (rest +:+ chunkText +:+ chunkAnnotation chunk).
              rewrite Hsaid at 1. by rewrite !append_assoc.
           ++ exists "". by rewrite append_nil_r.
        -- exact Hb.
        -- exact Ha.
    + rewrite (applyChunk_thrown _ _ _ _ _ Ht) in Ha. destruct k; discriminate.
Qed.

(** The states shown are the states the loop goes through: it ends, or
    stops at a throw, in the last one shown. *)
Lemma applyChunks_last_snapshot (responseId : Z) (chunks : list Chunk) :
  ∀ (said : string) (st : State),
    snd (applyChunks responseId chunks said st)
      = default st (last (streamSnapshots responseId chunks said st)).
Proof.
  induction chunks as [|chunk chunks IH]; intros said st; [reflexivity |].
  cbn [applyChunks streamSnapshots]. unfold mbind, Turn_bind.
  destruct (chunk_text chunk) as [chunkText|e] eqn:Ht.
  - destruct (applyChunk_readable responseId chunk said chunkText st Ht) as (st1 & -> & _).
    fold (applyChunks responseId chunks). rewrite IH, last_cons.
    by destruct (last (streamSnapshots responseId chunks _ st1)).
  - by rewrite (applyChunk_thrown _ _ _ _ _ Ht).
Qed.

(** ** What the phases before the stream leave *)

Lemma uploadFileToGemini_frame (x : UploadExchange) (file : File) (st : State) :
  ∃ rs, snd (uploadFileToGemini x file st) = addRequests rs st.
Proof.
  unfold uploadFileToGemini.
  destruct (JS.truthy (API_KEY st)); cbn [negb]; [| exists []; by rewrite addRequests_nil].
  destruct (upload_start x) as [e|[] body url]; cbn [negb];
    try (by exists [UploadStart (API_KEY st) file]).
  destruct (JS.truthy url); cbn [negb]; [| by exists [UploadStart (API_KEY st) file]].
  exists [UploadStart (API_KEY st) file; UploadTransfer url file].
  cbv zeta. rewrite !send_addRequests, addRequests_addRequests.
  destruct (upload_transfer x) as [|status text [meta|]]; [reflexivity | |];
    by destruct ((200 <=? status)%nat && (status <? 300)%nat).
Qed.

Lemma uploadFiles_frame (x : nat → UploadExchange) (files : list File) :
  ∀ (i : nat) (st : State), ∃ rs, snd (uploadFiles x i files st) = addRequests rs st.
Proof.
  induction files as [|file files IH]; intros i st.
  - exists []. by rewrite addRequests_nil.
  - cbn [uploadFiles].
    destruct (uploadFileToGemini_frame (x i) file st) as [rs E].
    destruct (uploadFileToGemini (x i) file st) as [[meta|e] st1]; simpl in E; subst st1.
    + destruct (IH (S i) (addRequests rs st)) as [rs' E'].
      destruct (uploadFiles x (S i) files (addRequests rs st)) as [[metas|e] st2];
        simpl in E'; subst st2; rewrite addRequests_addRequests; by eexists.
    + by exists rs.
Qed.

Lemma attachFiles_frame (env : Env) (parts : list Part) (st : State) :
  ∃ rs, snd (attachFiles env parts st) = addRequests rs st.
Proof.
  unfold attachFiles.
  destruct (bool_decide _); [| exists []; by rewrite addRequests_nil].
  destruct (uploadFiles_frame (upload_exchange env) (uploadedFiles st) 0 st) as [rs E].
  destruct (uploadFiles _ _ _ st) as [[metas|e] st1]; simpl in E; subst st1.
  - exists rs. by destruct (fileParts metas).
  - by exists rs.
Qed.

Lemma setInputTokens_keeps (count : option Z) (m : Message) :
  header (setInputTokens count m) = header m ∧
  msg_text (setInputTokens count m) = msg_text m.
Proof. unfold setInputTokens. by destruct (msg_tokenCounts m). Qed.

(** The count of input tokens never fails the turn and leaves ids, roles
    and texts of the transcript as they are. *)
Lemma countInputTokens_frame (env : Env) (modelName : string) (responseId : Z)
    (parts : list Part) (st : State) :
  ∃ st', countInputTokens env modelName responseId parts st = (Returned tt, st') ∧
         header <$> messages st' = header <$> messages st ∧
         msg_text <$> messages st' = msg_text <$> messages st ∧
         uploadedFiles st' = uploadedFiles st ∧
         chatSession st' = chatSession st.
Proof.
  unfold countInputTokens.
  destruct (countTokens_result env) as [count|e]; [| by eexists].
  destruct (bool_decide _); [| by eexists].
  destruct (messages (send _ st) !! _) as [[? ? ? [tc|]]|]; try (by eexists).
  eexists. split; [reflexivity |]. simpl. split_and!; try done.
  - apply fmap_alter_same. intros m. apply setInputTokens_keeps.
  - apply fmap_alter_same. intros m. apply setInputTokens_keeps.
Qed.

Lemma sendMessageStream_returned (env : Env) (parts : list Part) (st st' : State)
    (stream : Stream) :
  sendMessageStream env parts st = (Returned stream, st') →
  sendMessageStream_result env = Returned stream ∧ ∃ rs, st' = addRequests rs st.
Proof.
  unfold sendMessageStream.
  destruct (chatSession st) as [session|]; [| discriminate].
  destruct (sendMessageStream_result env) as [s|e]; [| discriminate].
  intros [= -> <-]. split; [reflexivity | by eexists].
Qed.

Lemma textAt_fmap (i : nat) (st : State) :
  textAt i st = default "" ((msg_text <$> messages st) !! i).
Proof. unfold textAt. rewrite list_lookup_fmap. by destruct (messages st !! i). Qed.

(** When the stream of a turn is open, the transcript is the earlier one
    followed by the user message and the placeholder, whose text is empty
    and which is the last message. *)
Lemma openTurn_returned (env : Env) (userMessage : string) (st st1 : State)
    (responseId : Z) (stream : Stream) :
  openTurn env userMessage st = (Returned (responseId, stream), st1) →
  responseId = now_response env + 1 ∧
  sendMessageStream_result env = Returned stream ∧
  header <$> messages st1 =
    header <$> (messages st ++ userMessages (now_user env) userMessage (uploadedFiles st)
                ++ [placeholderMessage env]) ∧
  msg_text <$> messages st1 =
    msg_text <$> (messages st ++ userMessages (now_user env) userMessage (uploadedFiles st)
                  ++ [placeholderMessage env]) ∧
  textAt (pred (length (messages st1))) st1 = "" ∧
  uploadedFiles st1 = uploadedFiles st.
Proof.
  rewrite openTurn_eq. destruct (genAI st); [| discriminate]. cbv zeta.
  destruct (JS.truthy (default MODEL_NAME (modelSelectValue st))); [| discriminate].
  destruct (turnReady_fields env userMessage st) as (_ & _ & Hq & _ & _ & _ & Hm).
  destruct (attachFiles_frame env
              (textParts (composeFinalMessage (getActivePrefixContent st) userMessage
                            (uploadedFiles st)) (uploadedFiles st))
              (turnReady env userMessage st)) as [rs E1].
  destruct (attachFiles _ _ _) as [[parts|e] s1]; [| discriminate]. simpl in E1. subst s1.
  destruct (countInputTokens_frame env (default MODEL_NAME (modelSelectValue st))
              (now_response env + 1) parts (addRequests rs (turnReady env userMessage st)))
    as (s2 & -> & Hh & Ht & Hq2 & _).
  destruct (sendMessageStream env parts s2) as [[stream'|e] s3] eqn:E3; [| discriminate].
  intros [= <- <- <-].
  apply sendMessageStream_returned in E3 as [Hres [rs' ->]].
  change (messages (addRequests rs' s2)) with (messages s2).
  change (uploadedFiles (addRequests rs' s2)) with (uploadedFiles s2).
  change (messages (addRequests rs (turnReady env userMessage st)))
    with (messages (turnReady env userMessage st)) in Hh, Ht.
  rewrite Hm in Hh, Ht.
  split_and!; [reflexivity | exact Hres | exact Hh | exact Ht | | by rewrite Hq2].
  rewrite textAt_fmap.
  change (messages (addRequests rs' s2)) with (messages s2).
  replace (length (messages s2)) with (length (msg_text <$> messages s2))
    by apply length_fmap.
  rewrite Ht, app_assoc, fmap_app, length_app. simpl.
  rewrite Nat.add_1_r. simpl.
  rewrite lookup_app_r by lia. by rewrite Nat.sub_diag.
Qed.

(** C6: during the stream of a turn, from one state shown to the next the
    text of the placeholder (the last message of the transcript when the
    stream is opened, with an empty text) is extended: the earlier value is
    a prefix of the later one, and the length does not decrease. *)
Theorem C6_streaming_extends_placeholder (env : Env) (userMessage : string) (st st1 : State)
    (responseId : Z) (stream : Stream) (k : nat) (before after : State) :
  openTurn env userMessage st = (Returned (responseId, stream), st1) →
  let placeholder := pred (length (messages st1)) in
  let shown := st1 :: streamSnapshots responseId (stream_chunks stream) "" st1 in
  shown !! k = Some before →
  shown !! S k = Some after →
  textAt placeholder st1 = "" ∧
  (∃ added, textAt placeholder after = textAt placeholder before +:+ added) ∧
  (String.length (textAt placeholder before) ≤ String.length (textAt placeholder after))%nat.
Proof.
  intros Hopen placeholder shown Hb Ha.
  destruct (openTurn_returned _ _ _ _ _ _ Hopen) as (_ & _ & _ & _ & Hempty & _).
  destruct (streamSnapshots_extend responseId placeholder (stream_chunks stream)
              "" st1 k before after) as [added Hadd]; [| exact Hb | exact Ha |].
  { exists "". fold placeholder in Hempty. by rewrite Hempty. }
  split_and!; [exact Hempty | by exists added |].
  rewrite Hadd, append_length. lia.
Qed.

Lemma C6_streaming_extends_placeholder_witness :
  let env := sampleEnv (λ _, completedUpload "files/1") (Returned sampleStream) in
  let st := set_messageInputValue "Summarize" sampleState in
  let st1 := snd (openTurn env "Summarize" st) in
  let shown := st1 :: streamSnapshots 102 (stream_chunks sampleStream) "" st1 in
  textAt 4 <$> shown =
    [""; "Revenue grew";
     "Revenue grew by 4%" +:+ nl +:+ nl +:+ "**[Generation stopped due to Max Token Limit]**"] ∧
  ∃ added, textAt 4 (default st1 (shown !! 2%nat))
           = textAt 4 (default st1 (shown !! 1%nat)) +:+ added.
Proof.
  cbv zeta. split; [by vm_compute |].
  apply (C6_streaming_extends_placeholder
           (sampleEnv (λ _, completedUpload "files/1") (Returned sampleStream))
           "Summarize" (set_messageInputValue "Summarize" sampleState)
           (snd (openTurn (sampleEnv (λ _, completedUpload "files/1") (Returned sampleStream))
                   "Summarize" (set_messageInputValue "Summarize" sampleState)))
           102 sampleStream 1).
  - by vm_compute.
  - by vm_compute.
  - by vm_compute.
Defined.

(** ** The end of a successful turn *)

Lemma clearFilesAfterSuccess_fields (st : State) :
  messages (clearFilesAfterSuccess st) = messages st ∧
  uploadedFiles (clearFilesAfterSuccess st) = [].
Proof.
  unfold clearFilesAfterSuccess. case_bool_decide as E; [done |].
  split; [done |]. destruct (uploadedFiles st); [done | simpl in E; lia].
Qed.

(** ** The composed text *)



(** ** The transcript only grows during a turn *)

Lemma applyChunks_frame (responseId : Z) (chunks : list Chunk) :
  ∀ (said : string) (st : State),
    header <$> messages (snd (applyChunks responseId chunks said st)) = header <$> messages st.
Proof.
  induction chunks as [|chunk chunks IH]; intros said st; [reflexivity |].
  cbn [applyChunks]. unfold mbind, Turn_bind.
  destruct (chunk_text chunk) as [chunkText|e] eqn:Ht.
  - destruct (applyChunk_readable responseId chunk said chunkText st Ht)
      as (st1 & -> & Hh & _).
    fold (applyChunks responseId chunks). rewrite IH. exact Hh.
  - by rewrite (applyChunk_thrown _ _ _ _ _ Ht).
Qed.

Lemma consumeStream_frame (responseId : Z) (stream : Stream) (st : State) :
  header <$> messages (snd (consumeStream responseId stream st)) = header <$> messages st.
Proof.
  unfold consumeStream, mbind, Turn_bind.
  pose proof (applyChunks_frame responseId (stream_chunks stream) "" st) as H.
  destruct (applyChunks _ _ _ st) as [[said|e] st1]; [| exact H].
  by destruct (stream_failure stream).
Qed.

Lemma sendMessageStream_frame (env : Env) (parts : list Part) (st : State) :
  ∃ rs, snd (sendMessageStream env parts st) = addRequests rs st.
Proof.
  unfold sendMessageStream.
  destruct (chatSession st) as [session|]; [| exists []; by rewrite addRequests_nil].
  exists [SendMessageStream session parts].
  by destruct (sendMessageStream_result env).
Qed.

(** ** The catch block *)

(** The [catch] block leaves the key stored in [localStorage] in place. *)
Lemma handleTurnError_keeps_storedApiKey (env : Env) (e : string) (st : State) :
  storedApiKey (handleTurnError env e st) = storedApiKey st.
Proof. unfold handleTurnError. by destruct (isApiKeyError e). Qed.

(** ** The placeholder receives the response *)

Section Placeholder.

Variable responseId : Z.

Lemma findIndex_lookup (l : list Message) (p : nat) :
  responseIndex responseId l = Z.of_nat p → ∃ m, l !! p = Some m ∧ msg_id m = responseId.
Proof.
  unfold responseIndex, JS.findIndex.
  destruct (list_find _ l) as [[i m]|] eqn:E; [| lia].
  intros Hi. apply Nat2Z.inj in Hi as ->.
  apply list_find_Some in E as (Hl & Hid & _). eauto.
Qed.

(** The search depends on the ids only. *)
Lemma findIndex_same_ids (l l' : list Message) :
  msg_id <$> l = msg_id <$> l' → responseIndex responseId l = responseIndex responseId l'.
Proof.
  unfold responseIndex, JS.findIndex. intros H.
  assert (fst <$> list_find (λ msg, msg_id msg = responseId) l
          = fst <$> list_find (λ msg, msg_id msg = responseId) l') as E.
  { revert l' H. induction l as [|x l IH]; intros [|y l'] H; try discriminate; [done |].
    injection H as Hxy Hl. cbn [list_find]. rewrite <- Hxy.
    case_decide; [done |].
    specialize (IH l' Hl).
    destruct (list_find _ l) as [[i a]|], (list_find _ l') as [[j b]|];
      simpl in *; congruence. }
  destruct (list_find _ l) as [[i a]|], (list_find _ l') as [[j b]|];
    simpl in E; congruence.
Qed.

Lemma header_ids (l l' : list Message) :
  header <$> l = header <$> l' → msg_id <$> l = msg_id <$> l'.
Proof.
  intros H. apply (f_equal (fmap fst)) in H.
  by rewrite <- !list_fmap_compose in H.
Qed.

(** When the search finds position [p], a readable chunk writes the
    accumulated text there. *)
Lemma applyChunk_fills (chunk : Chunk) (said chunkText : string) (st : State) (p : nat) :
  chunk_text chunk = Returned chunkText →
  responseIndex responseId (messages st) = Z.of_nat p →
  textAt p (snd (applyChunk responseId chunk said st))
    = (said +:+ chunkText) +:+ chunkAnnotation chunk.
Proof.
  intros Ht Hp. destruct (findIndex_lookup _ _ Hp) as (m & Hm & _).
  unfold applyChunk. rewrite Ht. fold (responseIndex responseId (messages st)). rewrite Hp.
  rewrite bool_decide_eq_true_2 by lia.
  unfold textAt. simpl. rewrite Nat2Z.id, list_lookup_alter_eq, Hm. reflexivity.
Qed.

Lemma applyChunks_fills (chunks : list Chunk) :
  ∀ (chunk : Chunk) (said : string) (st : State) (p : nat),
    Forall chunkReadable (chunk :: chunks) →
    responseIndex responseId (messages st) = Z.of_nat p →
    textAt p (snd (applyChunks responseId (chunk :: chunks) said st))
      = said +:+ streamText (chunk :: chunks).
Proof.
  induction chunks as [|next chunks IH]; intros chunk said st p Hread Hp.
  - apply Forall_cons in Hread as [[chunkText Ht] _].
    cbn [applyChunks]. unfold mbind, Turn_bind.
    pose proof (applyChunk_fills chunk said chunkText st p Ht Hp) as Hfill.
    destruct (applyChunk responseId chunk said st) as [[said'|e] st1]; simpl in *.
    + rewrite Hfill. cbn [streamText].
      by rewrite (chunkAdds_readable _ _ Ht), append_nil_r, append_assoc.
    + rewrite Hfill. cbn [streamText].
      by rewrite (chunkAdds_readable _ _ Ht), append_nil_r, append_assoc.
  - apply Forall_cons in Hread as [[chunkText Ht] Hrest].
    destruct (applyChunk_readable responseId chunk said chunkText st Ht)
      as (st1 & E1 & Hh & _).
    change (applyChunks responseId (chunk :: next :: chunks) said st)
      with (mbind (applyChunks responseId (next :: chunks))
              (applyChunk responseId chunk said) st).
    unfold mbind, Turn_bind. rewrite E1.
    rewrite (IH next _ st1 p Hrest).
    + cbn [streamText]. by rewrite (chunkAdds_readable _ _ Ht), !append_assoc.
    + rewrite <- Hp. apply findIndex_same_ids, header_ids. exact Hh.
Qed.

End Placeholder.

(** A turn whose stream is read to its end leaves the accumulated text in
    the placeholder, provided the search by id finds the placeholder (no
    earlier message has its id). *)
Lemma handleSendMessage_fills_placeholder (env : Env) (st st1 : State) (responseId : Z)
    (stream : Stream) :
  JS.truthy (API_KEY st) = true →
  (JS.truthy (JS.trim (messageInputValue st)) = true ∨ uploadedFiles st ≠ []) →
  openTurn env (JS.trim (messageInputValue st)) st = (Returned (responseId, stream), st1) →
  Forall chunkReadable (stream_chunks stream) →
  stream_chunks stream ≠ [] →
  stream_failure stream = None →
  responseIndex responseId (messages st1) = Z.of_nat (pred (length (messages st1))) →
  textAt (pred (length (messages st1))) (handleSendMessage env st)
    = streamText (stream_chunks stream).
Proof.
  intros Hk Hg Hopen Hread Hne Hfail Hfound.
  destruct (stream_chunks stream) as [|chunk chunks] eqn:Hchunks; [done |].
  pose proof (applyChunks_fills responseId chunks chunk "" st1 _ Hread Hfound) as Hfill.
  destruct (applyChunks_readable responseId _ Hread "" st1) as (st2 & E2 & _).
  rewrite E2 in Hfill. simpl in Hfill.
  assert (sendTurn env (JS.trim (messageInputValue st)) st
          = (Returned tt, clearFilesAfterSuccess st2)) as Eturn.
  { unfold sendTurn, consumeStream, mbind, Turn_bind.
    by rewrite Hopen, Hchunks, E2, Hfail. }
  rewrite (handleSendMessage_returned env st _ Hk Hg Eturn).
  unfold textAt in *.
  rewrite (proj1 (finally_fields _)), (proj1 (clearFilesAfterSuccess_fields st2)).
  exact Hfill.
Qed.

(** * Further properties *)

(** ** The queue under additions, removals and pastes *)

Lemma existingFileIndex_self (file : File) (queue : list File) :
  existingFileIndex file (queue ++ [file]) ≠ -1.
Proof.
  intros H. apply (proj1 (existingFileIndex_absent _ _) H file); [| done].
  apply elem_of_app. right. by apply list_elem_of_singleton.
Qed.

(** Offering the same file twice in a row queues it at most once. *)
Theorem processFileUpload_idempotent (file : File) (st : State) :
  uploadedFiles (processFileUpload file (processFileUpload file st))
    = uploadedFiles (processFileUpload file st).
Proof.
  rewrite (processFileUpload_uploadedFiles file (processFileUpload file st)).
  rewrite processFileUpload_uploadedFiles.
  destruct (hasValidType file); [| reflexivity]. cbn [andb].
  destruct (bool_decide (existingFileIndex file (uploadedFiles st) = -1)) eqn:E.
  - rewrite bool_decide_eq_false_2; [reflexivity |]. apply existingFileIndex_self.
  - by rewrite E.
Qed.

Lemma processFileUpload_appends (file : File) (st : State) :
  uploadedFiles st `prefix_of` uploadedFiles (processFileUpload file st) ∧
  (∀ f, f ∈ uploadedFiles (processFileUpload file st) →
        f ∈ uploadedFiles st ∨ (f = file ∧ hasValidType file = true)) ∧
  (hasValidType file = true →
     file_name file ∈ file_name <$> uploadedFiles (processFileUpload file st)).
Proof.
  rewrite processFileUpload_uploadedFiles.
  destruct (hasValidType file); cbn [andb].
  - case_bool_decide as E.
    + split_and!.
      * by apply prefix_app_r.
      * intros f [?|Hf%list_elem_of_singleton]%elem_of_app; auto.
      * intros _. apply list_elem_of_fmap. exists file. split; [done |].
        apply elem_of_app. right. by apply list_elem_of_singleton.
    + split_and!; [done | auto |].
      intros _. apply existingFileIndex_present in E as (f & Hf & Hn).
      apply list_elem_of_fmap. by exists f.
  - split_and!; [done | auto | discriminate].
Qed.

(** Additions never remove or reorder what is queued: the earlier queue is
    a prefix of the new one, every new entry is one of the files offered,
    and every offered file with an allowed extension has its name in the
    queue afterwards. *)
Theorem processFiles_only_appends (files : list File) (st : State) :
  uploadedFiles st `prefix_of` uploadedFiles (processFiles files st) ∧
  (∀ f, f ∈ uploadedFiles (processFiles files st) → f ∈ uploadedFiles st ∨ f ∈ files) ∧
  (∀ f, f ∈ files → hasAllowedExtension (file_name f) →
        file_name f ∈ file_name <$> uploadedFiles (processFiles files st)).
Proof.
  unfold processFiles. revert st.
  induction files as [|file files IH]; intros st; simpl.
  - split_and!; [done | auto |]. intros f Hf. by apply elem_of_nil in Hf.
  - destruct (IH (processFileUpload file st)) as (Hp & Hin & Hnames).
    destruct (processFileUpload_appends file st) as (Hp1 & Hin1 & Hname1).
    split_and!.
    + by etrans.
    + intros f Hf. destruct (Hin f Hf) as [H1|H2].
      * destruct (Hin1 f H1) as [?|[-> _]]; [by left | right; by left].
      * right. by right.
    + intros f [->|Hf]%elem_of_cons Hallowed.
      * apply hasValidType_spec in Hallowed. specialize (Hname1 Hallowed).
        destruct Hp as [k ->]. rewrite fmap_app. apply elem_of_app. by left.
      * by apply Hnames.
Qed.

Lemma processFiles_only_appends_witness :
  let st := set_uploadedFiles [reportPdf 1] sampleState in
  let files := [mkFile "notes.txt" 3 "text/plain"; mkFile "tool.exe" 9 ""] in
  uploadedFiles (processFiles files st) = [reportPdf 1; mkFile "notes.txt" 3 "text/plain"] ∧
  "notes.txt" ∈ file_name <$> uploadedFiles (processFiles files st).
Proof.
  cbv zeta. split; [by vm_compute |].
  apply (proj2 (proj2 (processFiles_only_appends
                         [mkFile "notes.txt" 3 "text/plain"; mkFile "tool.exe" 9 ""]
                         (set_uploadedFiles [reportPdf 1] sampleState)))
           (mkFile "notes.txt" 3 "text/plain")).
  - by left.
  - apply hasValidType_spec. by vm_compute.
Defined.

(** Adding a file with an allowed extension and a name not yet queued, then
    removing the last entry, gives the queue back. *)
Theorem add_then_remove_last (file : File) (st : State) :
  hasAllowedExtension (file_name file) →
  (∀ f, f ∈ uploadedFiles st → file_name f ≠ file_name file) →
  uploadedFiles (removeFile (Z.of_nat (length (uploadedFiles st))) (processFileUpload file st))
    = uploadedFiles st.
Proof.
  intros Hallowed Hfresh.
  apply hasValidType_spec in Hallowed.
  assert (uploadedFiles (processFileUpload file st) = uploadedFiles st ++ [file]) as Eq.
  { rewrite processFileUpload_uploadedFiles, Hallowed. cbn [andb].
    by rewrite bool_decide_eq_true_2 by (by apply existingFileIndex_absent). }
  unfold removeFile. rewrite Eq, length_app. simpl.
  rewrite bool_decide_eq_true_2 by lia.
  rewrite bool_decide_eq_true_2 by lia. cbn [andb].
  rewrite Nat2Z.id.
  assert (delete (length (uploadedFiles st)) (uploadedFiles st ++ [file]) = uploadedFiles st) as Ed.
  { rewrite delete_take_drop, take_app_length.
    rewrite drop_ge by (rewrite length_app; simpl; lia). by rewrite app_nil_r. }
  rewrite Ed. by destruct (bool_decide _).
Qed.

Lemma add_then_remove_last_witness :
  let st := set_uploadedFiles [reportPdf 1] sampleState in
  let file := mkFile "notes.txt" 3 "text/plain" in
  uploadedFiles (removeFile 1 (processFileUpload file st)) = [reportPdf 1].
Proof.
  cbv zeta.
  apply (add_then_remove_last (mkFile "notes.txt" 3 "text/plain")
           (set_uploadedFiles [reportPdf 1] sampleState)).
  - apply hasValidType_spec. by vm_compute.
  - intros f Hf. simpl in Hf. apply list_elem_of_singleton in Hf as ->. discriminate.
Defined.

Lemma pasteItem_fold (items : list ClipboardItem) :
  ∀ (st : State) (toasts : list string),
    uploadedFiles st `prefix_of` uploadedFiles (fst (foldl pasteItem (st, toasts) items)) ∧
    (∀ f, f ∈ uploadedFiles (fst (foldl pasteItem (st, toasts) items)) →
          f ∈ uploadedFiles st ∨
          (String.prefix "image/" (file_type f) = true ∧
           hasAllowedExtension (file_name f) ∧
           mkClipboardItem "file" (Some f) ∈ items)) ∧
    snd (foldl pasteItem (st, toasts) items)
      = toasts ++ ((λ _, pastedToast) <$> filter (λ item, isPastedImage item = true) items) ∧
    (queueInvariant (uploadedFiles st) →
     queueInvariant (uploadedFiles (fst (foldl pasteItem (st, toasts) items)))).
Proof.
  induction items as [|item items IH]; intros st toasts.
  - simpl. rewrite app_nil_r. split_and!; [done | auto | done | done].
  - cbn [foldl].
    assert (pasteItem (st, toasts) item =
              if isPastedImage item
              then (processFileUpload (default (reportPdf 0) (item_file item)) st,
                    toasts ++ [pastedToast])
              else (st, toasts)) as Estep.
    { unfold pasteItem, isPastedImage. destruct item as [kind [file|]]; simpl;
        case_bool_decide; simpl; try done; by destruct (String.prefix _ _). }
    rewrite Estep. rewrite filter_cons.
    destruct (isPastedImage item) eqn:Eimg.
    + rewrite decide_True by done.
      assert (∃ file, item = mkClipboardItem "file" (Some file) ∧
                      String.prefix "image/" (file_type file) = true) as (file & -> & Himg).
      { unfold isPastedImage in Eimg. destruct item as [kind [file|]]; simpl in Eimg.
        - apply andb_prop in Eimg as [Hk Hp]. apply bool_decide_eq_true in Hk.
          simpl in Hk. subst kind. by exists file.
        - by rewrite andb_false_r in Eimg. }
      cbn [item_file from_option id].
      destruct (IH (processFileUpload file st) (toasts ++ [pastedToast]))
        as (Hp & Hin & Ht & Hinv).
      destruct (processFileUpload_appends file st) as (Hp1 & Hin1 & _).
      split_and!.
      * by etrans.
      * intros f Hf. destruct (Hin f Hf) as [H1|(H2 & H3 & H4)].
        -- destruct (Hin1 f H1) as [?|[-> Hv]]; [by left |].
           right. split_and!; [done | by apply hasValidType_spec | by left].
        -- right. split_and!; [done | done | by right].
      * rewrite Ht, fmap_cons, <- app_assoc. reflexivity.
      * intros Hq. apply Hinv. by apply processFileUpload_invariant.
    + rewrite decide_False by done.
      destruct (IH st toasts) as (Hp & Hin & Ht & Hinv).
      split_and!; [done | | done | done].
      intros f Hf. destruct (Hin f Hf) as [?|(H2 & H3 & H4)]; [by left |].
      right. split_and!; [done | done | by right].
Qed.

(** A paste hands to the queue the image files only: what was queued stays
    in place, every new entry is a pasted file of an image type with an
    allowed extension, and the toast is shown once per pasted image,
    whether the queue took it or not. *)
Theorem handlePasteEvent_queues_images_only (items : list ClipboardItem) (st : State) :
  uploadedFiles st `prefix_of` uploadedFiles (fst (handlePasteEvent items st)) ∧
  (∀ f, f ∈ uploadedFiles (fst (handlePasteEvent items st)) →
        f ∈ uploadedFiles st ∨
        (String.prefix "image/" (file_type f) = true ∧
         hasAllowedExtension (file_name f) ∧
         mkClipboardItem "file" (Some f) ∈ items)) ∧
  snd (handlePasteEvent items st)
    = (λ _, pastedToast) <$> filter (λ item, isPastedImage item = true) items.
Proof.
  destruct (pasteItem_fold items st []) as (H1 & H2 & H3 & _).
  split_and!; [exact H1 | exact H2 | exact H3].
Qed.

(** ** The prompt library *)

Lemma getActivePrefixContent_eq (st : State) :
  getActivePrefixContent st =
    if JS.truthy (activePrefix st) then contentOf (activePrefix st) (promptPrefixes st) else "".
Proof.
  unfold getActivePrefixContent, contentOf.
  destruct (JS.truthy (activePrefix st)); [| reflexivity].
  by destruct (list_find _ (promptPrefixes st)) as [[i p]|].
Qed.

(** Filtering out entries the search would not stop at does not change
    what the search finds. *)
Lemma list_find_filter_snd {A} (P Q : A → Prop) `{∀ x, Decision (P x)} `{∀ x, Decision (Q x)}
    (l : list A) :
  (∀ x, P x → Q x) →
  snd <$> list_find P (filter Q l) = snd <$> list_find P l.
Proof.
  intros HPQ. induction l as [|x l IH]; [reflexivity |].
  rewrite filter_cons. cbn [list_find].
  destruct (decide (Q x)) as [Hq|Hq].
  - cbn [list_find]. destruct (decide (P x)); [reflexivity |].
    destruct (list_find P (filter Q l)) as [[i a]|], (list_find P l) as [[j b]|];
      simpl in *; congruence.
  - destruct (decide (P x)) as [Hp|Hp]; [by destruct Hq; apply HPQ |].
    rewrite IH. by destruct (list_find P l) as [[j b]|].
Qed.

(** Deleting a prompt removes every entry with its id and keeps the others;
    if it was the active one no prefix is active afterwards, and otherwise
    the active content is what it was. *)
Theorem deletePrefix_effects (prefixId : string) (st : State) :
  (∀ p, p ∈ promptPrefixes (deletePrefix prefixId st) → prefix_id p ≠ prefixId) ∧
  (∀ p, p ∈ promptPrefixes st → prefix_id p ≠ prefixId →
        p ∈ promptPrefixes (deletePrefix prefixId st)) ∧
  (activePrefix st = prefixId → getActivePrefixContent (deletePrefix prefixId st) = "") ∧
  (activePrefix st ≠ prefixId →
     getActivePrefixContent (deletePrefix prefixId st) = getActivePrefixContent st).
Proof.
  unfold deletePrefix.
  destruct (list_find _ (promptPrefixes st)) as [[i found]|] eqn:E.
  - cbn zeta. change (activePrefix (set_promptPrefixes ?l st)) with (activePrefix st).
    split_and!.
    + intros p Hp.
      assert (p ∈ filter (λ p, prefix_id p ≠ prefixId) (promptPrefixes st)) as Hf
        by (by destruct (bool_decide (activePrefix st = prefixId))).
      by apply list_elem_of_filter in Hf as [Hne _].
    + intros p Hp Hne.
      assert (p ∈ filter (λ p, prefix_id p ≠ prefixId) (promptPrefixes st)) as Hf
        by (by apply list_elem_of_filter).
      by destruct (bool_decide (activePrefix st = prefixId)).
    + intros Ha. rewrite bool_decide_eq_true_2 by done. reflexivity.
    + intros Ha. rewrite bool_decide_eq_false_2 by done.
      rewrite !getActivePrefixContent_eq. simpl.
      destruct (JS.truthy (activePrefix st)); [| reflexivity].
      unfold contentOf. rewrite list_find_filter_snd; [reflexivity |].
      intros p Hp. congruence.
  - apply list_find_None in E. rewrite Forall_forall in E.
    split_and!; [exact E | auto | | auto].
    intros Ha. rewrite getActivePrefixContent_eq.
    destruct (JS.truthy (activePrefix st)); [| reflexivity].
    unfold contentOf. rewrite Ha.
    rewrite (proj2 (list_find_None (λ p, prefix_id p = prefixId) (promptPrefixes st)));
      [reflexivity | by apply Forall_forall].
Qed.

Lemma deletePrefix_effects_witness :
  let st := mkState "KEY" (Some "KEY") (Some "KEY") [] false [] None
              [mkPromptPrefix "esg" "ESG metrics" "List every ESG metric." true;
               mkPromptPrefix "17" "Short" "Be brief." false] "esg"
              "" "" "" true None [] [] 0 in
  getActivePrefixContent st = "List every ESG metric." ∧
  getActivePrefixContent (deletePrefix "esg" st) = "" ∧
  getActivePrefixContent (deletePrefix "17" st) = "List every ESG metric.".
Proof.
  cbv zeta. split_and!.
  - reflexivity.
  - apply deletePrefix_effects. reflexivity.
  - etrans; [apply deletePrefix_effects; discriminate | reflexivity].
Defined.

(** The three things [savePrefix] can do to the library: nothing, replace
    the content of a prompt of the user in place, or append a new prompt. *)
Lemma storePrefix_cases (nowId name content : string) (form : PrefixForm) (st : State) :
  activePrefix (storePrefix nowId name content form st) = activePrefix st ∧
  alerts (storePrefix nowId name content form st) = alerts st ∧
  (promptPrefixes (storePrefix nowId name content form st) = promptPrefixes st ∨
   (∃ k old, promptPrefixes st !! k = Some old ∧ prefix_isDefault old = false ∧
             promptPrefixes (storePrefix nowId name content form st)
               = <[k := mkPromptPrefix (prefix_id old) name content false]> (promptPrefixes st)) ∨
   (∃ new, promptPrefixes (storePrefix nowId name content form st) = promptPrefixes st ++ [new] ∧
           prefix_id new = nowId ∧ prefix_content new = content ∧
           prefix_isDefault new = false)).
Proof.
  unfold storePrefix.
  destruct (JS.truthy (editingId form)).
  - case_bool_decide; [| by split_and!; auto].
    destruct (promptPrefixes st !! _) as [old|] eqn:Hold; [| by split_and!; auto].
    destruct (prefix_isDefault old) eqn:Hd; cbn [negb].
    + split_and!; [done | done |]. right; right. by eexists.
    + split_and!; [done | done |]. right; left. eexists _, old. by rewrite Hd.
  - split_and!; [done | done |]. right; right. by eexists.
Qed.

Lemma savePrefix_state (nowId : string) (form : PrefixForm) (st : State) :
  let name := JS.trim (prefixNameInputValue form) in
  let content := JS.trim (prefixContentInputValue form) in
  let st' := fst (snd (savePrefix nowId form st)) in
  (negb (JS.truthy name) || negb (JS.truthy content) = true ∧
   st' = alert prefixIncompleteAlert st) ∨
  (negb (JS.truthy name) || negb (JS.truthy content) = false ∧
   promptPrefixes st' = promptPrefixes (storePrefix nowId name content form st)).
Proof.
  cbv zeta. unfold savePrefix.
  destruct (negb _ || negb _); [by left |]. right. split; [done |].
  destruct (autoApplyChecked form); [| done].
  by destruct (savedPrefix form _).
Qed.

(** [savePrefix] never removes or reorders prompts and never changes a
    default prompt: the ids of the library stay in place, at most one entry
    is added, and every default entry is where and what it was; with a
    blank name or content the library and the active prefix stay as they
    are and the alert is shown. *)
Theorem savePrefix_keeps_library (nowId : string) (form : PrefixForm) (st : State) :
  let st' := fst (snd (savePrefix nowId form st)) in
  prefix_id <$> promptPrefixes st `prefix_of` prefix_id <$> promptPrefixes st' ∧
  (length (promptPrefixes st') ≤ S (length (promptPrefixes st)))%nat ∧
  (∀ i p, promptPrefixes st !! i = Some p → prefix_isDefault p = true →
          promptPrefixes st' !! i = Some p) ∧
  (JS.trim (prefixNameInputValue form) = "" ∨ JS.trim (prefixContentInputValue form) = "" →
     promptPrefixes st' = promptPrefixes st ∧ activePrefix st' = activePrefix st ∧
     alerts st' = alerts st ++ [prefixIncompleteAlert]).
Proof.
  intros st'.
  destruct (savePrefix_state nowId form st) as [[Hblank E]|[Hfull E]]; fold st' in E.
  - rewrite E. simpl. split_and!; [done | lia | auto | done].
  - destruct (storePrefix_cases nowId (JS.trim (prefixNameInputValue form))
                (JS.trim (prefixContentInputValue form)) form st) as (_ & _ & Hcases).
    rewrite E. split_and!.
    + destruct Hcases as [->|[(k & old & Hk & Hd & ->)|(new & -> & _)]].
      * done.
      * rewrite list_fmap_insert. simpl.
        rewrite list_insert_id; [done |]. by rewrite list_lookup_fmap, Hk.
      * rewrite fmap_app. by apply prefix_app_r.
    + destruct Hcases as [->|[(k & old & Hk & Hd & ->)|(new & -> & _)]].
      * lia.
      * rewrite length_insert. lia.
      * rewrite length_app. simpl. lia.
    + intros i p Hi Hp.
      destruct Hcases as [->|[(k & old & Hk & Hd & ->)|(new & -> & _)]].
      * done.
      * rewrite list_lookup_insert_ne; [done |]. intros ->. congruence.
      * rewrite lookup_app_l; [done |]. by eapply lookup_lt_Some.
    + intros Hb. exfalso.
      apply orb_false_elim in Hfull as [H1 H2].
      apply negb_false_iff, truthy_true_iff in H1, H2. by destruct Hb.
Qed.

Lemma savePrefix_keeps_library_witness :
  let st := mkState "KEY" (Some "KEY") (Some "KEY") [] false [] None
              [mkPromptPrefix "esg" "ESG metrics" "List every ESG metric." true] "esg"
              "" "" "" true None [] [] 0 in
  let form := mkPrefixForm "ESG metrics (Copy)" "  " true "esg" in
  promptPrefixes (fst (snd (savePrefix "1700000000000" form st))) = promptPrefixes st ∧
  activePrefix (fst (snd (savePrefix "1700000000000" form st))) = "esg" ∧
  promptPrefixes
    (fst (snd (savePrefix "1700000000000" (mkPrefixForm "Mine" "Be brief." false "esg") st)))
    !! 0%nat = Some (mkPromptPrefix "esg" "ESG metrics" "List every ESG metric." true).
Proof.
  cbv zeta. split_and!.
  - apply savePrefix_keeps_library. right. reflexivity.
  - etrans; [apply savePrefix_keeps_library; right; reflexivity | reflexivity].
  - apply savePrefix_keeps_library; reflexivity.
Defined.

(** A new prompt saved with auto-apply becomes the active prefix of the
    next turn, provided no prompt of the library already has its id (two
    prompts created in the same millisecond would share one). *)
Theorem savePrefix_new_is_applied (nowId : string) (form : PrefixForm) (st : State) :
  editingId form = "" →
  autoApplyChecked form = true →
  JS.trim (prefixNameInputValue form) ≠ "" →
  JS.trim (prefixContentInputValue form) ≠ "" →
  nowId ≠ "" →
  (∀ p, p ∈ promptPrefixes st → prefix_id p ≠ nowId) →
  ∃ st',
    savePrefix nowId form st = (Returned tt, (st', clearPrefixForm)) ∧
    promptPrefixes st' =
      promptPrefixes st ++ [mkPromptPrefix nowId (JS.trim (prefixNameInputValue form))
                              (JS.trim (prefixContentInputValue form)) false] ∧
    activePrefix st' = nowId ∧
    getActivePrefixContent st' = JS.trim (prefixContentInputValue form).
Proof.
  intros Hid Hauto Hname Hcontent Hnow Hfresh.
  unfold savePrefix, storePrefix, savedPrefix.
  rewrite (proj2 (truthy_true_iff _) Hname), (proj2 (truthy_true_iff _) Hcontent).
  rewrite Hid, Hauto. change (JS.truthy "") with false. cbn [negb orb].
  change (promptPrefixes (set_promptPrefixes ?l st)) with l.
  rewrite last_snoc. eexists. split; [reflexivity |].
  split_and!; [reflexivity | reflexivity |].
  rewrite getActivePrefixContent_eq. simpl.
  rewrite (proj2 (truthy_true_iff _) Hnow). unfold contentOf.
  rewrite list_find_app_r
    by (apply list_find_None, Forall_forall; intros p Hp; by apply Hfresh).
  simpl. by rewrite decide_True.
Qed.

Lemma savePrefix_new_is_applied_witness :
  let st := mkState "KEY" (Some "KEY") (Some "KEY") [] false [] None
              [mkPromptPrefix "esg" "ESG metrics" "List every ESG metric." true] ""
              "" "" "" true None [] [] 0 in
  let form := mkPrefixForm " Short " " Be brief. " true "" in
  ∃ st', savePrefix "1700000000000" form st = (Returned tt, (st', clearPrefixForm)) ∧
         getActivePrefixContent st' = "Be brief.".
Proof.
  cbv zeta.
  destruct (savePrefix_new_is_applied "1700000000000" (mkPrefixForm " Short " " Be brief. " true "")
              (mkState "KEY" (Some "KEY") (Some "KEY") [] false [] None
                 [mkPromptPrefix "esg" "ESG metrics" "List every ESG metric." true] ""
                 "" "" "" true None [] [] 0))
    as (st' & E & _ & _ & Hc).
  - reflexivity.
  - reflexivity.
  - by vm_compute.
  - by vm_compute.
  - discriminate.
  - intros p Hp. simpl in Hp. apply list_elem_of_singleton in Hp as ->. discriminate.
  - exists st'. split; [exact E | exact Hc].
Defined.

(** Saving the edit of a default prompt with auto-apply appends the edited
    copy to the library but makes the original default the active prefix:
    the next turn is prefixed with the content of the original. *)
Theorem savePrefix_default_copy_applies_original (nowId : string) (form : PrefixForm)
    (st : State) (i : nat) (old : PromptPrefix) :
  editingId form ≠ "" →
  list_find (λ p, prefix_id p = editingId form) (promptPrefixes st) = Some (i, old) →
  prefix_isDefault old = true →
  autoApplyChecked form = true →
  JS.trim (prefixNameInputValue form) ≠ "" →
  JS.trim (prefixContentInputValue form) ≠ "" →
  ∃ st',
    savePrefix nowId form st = (Returned tt, (st', clearPrefixForm)) ∧
    promptPrefixes st' =
      promptPrefixes st ++ [mkPromptPrefix nowId (JS.trim (prefixNameInputValue form))
                              (JS.trim (prefixContentInputValue form)) false] ∧
    activePrefix st' = prefix_id old ∧
    getActivePrefixContent st' = prefix_content old.
Proof.
  intros Hid Hfind Hdefault Hauto Hname Hcontent.
  pose proof Hfind as Hfound.
  apply list_find_Some in Hfound as (Hlookup & Hold & _).
  unfold savePrefix, storePrefix, savedPrefix, JS.findIndex.
  rewrite (proj2 (truthy_true_iff _) Hname), (proj2 (truthy_true_iff _) Hcontent).
  rewrite (proj2 (truthy_true_iff _) Hid), Hauto, Hfind. cbn [negb orb].
  rewrite bool_decide_eq_true_2 by lia.
  rewrite Nat2Z.id, Hlookup, Hdefault. cbn [negb].
  change (promptPrefixes (set_promptPrefixes ?l st)) with l.
  rewrite (list_find_app_l _ _ _ _ _ Hfind). simpl.
  eexists. split; [reflexivity |].
  split_and!; [reflexivity | reflexivity |].
  rewrite getActivePrefixContent_eq. simpl.
  rewrite Hold, (proj2 (truthy_true_iff _) Hid). unfold contentOf.
  by rewrite (list_find_app_l _ _ _ _ _ Hfind).
Qed.

Lemma savePrefix_default_copy_applies_original_witness :
  let st := mkState "KEY" (Some "KEY") (Some "KEY") [] false [] None
              [mkPromptPrefix "esg" "ESG metrics" "List every ESG metric." true] ""
              "" "" "" true None [] [] 0 in
  let form := mkPrefixForm "ESG metrics (Copy)" "List Scope 1 only." true "esg" in
  ∃ st', savePrefix "1700000000000" form st = (Returned tt, (st', clearPrefixForm)) ∧
         getActivePrefixContent st' = "List every ESG metric.".
Proof.
  cbv zeta.
  destruct (savePrefix_default_copy_applies_original "1700000000000"
              (mkPrefixForm "ESG metrics (Copy)" "List Scope 1 only." true "esg")
              (mkState "KEY" (Some "KEY") (Some "KEY") [] false [] None
                 [mkPromptPrefix "esg" "ESG metrics" "List every ESG metric." true] ""
                 "" "" "" true None [] [] 0)
              0 (mkPromptPrefix "esg" "ESG metrics" "List every ESG metric." true))
    as (st' & E & _ & _ & Hc).
  - discriminate.
  - reflexivity.
  - reflexivity.
  - reflexivity.
  - by vm_compute.
  - by vm_compute.
  - exists st'. split; [exact E | exact Hc].
Defined.

(** Opening a prompt of the user in the form and saving it untouched leaves
    library and active prefix as they are (only the success alert is
    added), when its name and content have no white space at the ends. *)
Theorem editPrefix_savePrefix_roundtrip (nowId prefixId : string) (form : PrefixForm)
    (st : State) (i : nat) (p : PromptPrefix) :
  prefixId ≠ "" →
  list_find (λ p, prefix_id p = prefixId) (promptPrefixes st) = Some (i, p) →
  prefix_isDefault p = false →
  JS.trim (prefix_name p) = prefix_name p → prefix_name p ≠ "" →
  JS.trim (prefix_content p) = prefix_content p → prefix_content p ≠ "" →
  savePrefix nowId (editPrefix prefixId st form) st
    = (Returned tt, (alert prefixSavedAlert st, clearPrefixForm)).
Proof.
  intros Hid Hfind Hdefault Hname Hname' Hcontent Hcontent'.
  pose proof Hfind as Hfound.
  apply list_find_Some in Hfound as (Hlookup & Hp & _).
  assert (mkPromptPrefix (prefix_id p) (prefix_name p) (prefix_content p) false = p) as Ep
    by (destruct p; simpl in *; by subst).
  unfold editPrefix. rewrite Hfind, Hdefault.
  unfold savePrefix, storePrefix, savedPrefix, JS.findIndex.
  cbn [prefixNameInputValue prefixContentInputValue autoApplyChecked editingId].
  rewrite Hname, Hcontent.
  rewrite (proj2 (truthy_true_iff _) Hname'), (proj2 (truthy_true_iff _) Hcontent').
  rewrite (proj2 (truthy_true_iff _) Hid), Hfind. cbn [negb orb].
  rewrite (bool_decide_eq_true_2 (Z.of_nat i ≠ -1)) by lia.
  rewrite Nat2Z.id, Hlookup, Hdefault. cbn [negb].
  rewrite Ep, (list_insert_id _ _ _ Hlookup).
  assert (set_promptPrefixes (promptPrefixes st) st = st) as -> by (by destruct st).
  case_bool_decide as Ha; [| reflexivity].
  rewrite Hfind. simpl. rewrite Hp, <- Ha.
  assert (set_activePrefix (activePrefix st) st = st) as -> by (by destruct st).
  reflexivity.
Qed.

Lemma editPrefix_savePrefix_roundtrip_witness :
  let st := mkState "KEY" (Some "KEY") (Some "KEY") [] false [] None
              [mkPromptPrefix "esg" "ESG metrics" "List every ESG metric." true;
               mkPromptPrefix "17" "Short" "Be brief." false] "17"
              "" "" "" true None [] [] 0 in
  savePrefix "1700000000000" (editPrefix "17" st clearPrefixForm) st
    = (Returned tt, (alert prefixSavedAlert st, clearPrefixForm)).
Proof.
  cbv zeta.
  apply (editPrefix_savePrefix_roundtrip "1700000000000" "17" clearPrefixForm _ 1
           (mkPromptPrefix "17" "Short" "Be brief." false)).
  - discriminate.
  - reflexivity.
  - reflexivity.
  - by vm_compute.
  - discriminate.
  - by vm_compute.
  - discriminate.
Defined.

(** ** The download name of a prompt *)

Lemma safe_after_replace (a : ascii) :
  isSafeChar (JS.lower_char (if isAlnum a then a else "_"%char)) = true.
Proof. destruct a as [[] [] [] [] [] [] [] []]; by vm_compute. Qed.

Lemma safe_char_fixed (a : ascii) :
  isSafeChar a = true → JS.lower_char (if isAlnum a then a else "_"%char) = a.
Proof. destruct a as [[] [] [] [] [] [] [] []]; vm_compute; congruence. Qed.

(** The name under which a prompt is downloaded is made of lower-case
    letters, digits and underscores only, one per character of the prompt
    name, followed by [_prompt.txt]; a prompt name already of that form is
    kept as it is. *)
Theorem promptFileName_safe (name : string) :
  ∃ stem, promptFileName name = stem +:+ "_prompt.txt" ∧
          String.length stem = String.length name ∧
          allChars isSafeChar stem = true ∧
          (allChars isSafeChar name = true → stem = name).
Proof.
  exists (JS.toLowerCase (replaceNonAlnum name)). split; [reflexivity |].
  induction name as [|a name (IH1 & IH2 & IH3)]; [done |].
  simpl. split_and!.
  - by rewrite IH1.
  - by rewrite safe_after_replace, IH2.
  - intros [Ha Hn]%andb_prop. by rewrite (safe_char_fixed a Ha), (IH3 Hn).
Qed.

Lemma promptFileName_safe_witness :
  promptFileName "ESG Metrics: Scope 1/2" = "esg_metrics__scope_1_2_prompt.txt" ∧
  promptFileName "short_1" = "short_1_prompt.txt".
Proof.
  split; [by vm_compute |].
  destruct (promptFileName_safe "short_1") as (stem & -> & _ & _ & Hkeep).
  by rewrite Hkeep.
Defined.

(** ** What a turn leaves outside the transcript *)

Lemma turnReady_outside (env : Env) (userMessage : string) (st : State) :
  outsideTranscript (turnReady env userMessage st)
    = (untouched st, uploadedFiles st, true, Some (sessionOfTurn st), "", fileInputValue st).
Proof.
  unfold turnReady, turnStart, ensureChatSession, pushPlaceholder, sessionOfTurn.
  rewrite pushUserMessage_eq. unfold outsideTranscript, untouched. simpl.
  destruct (chatSession st) eqn:E; simpl; rewrite ?E; reflexivity.
Qed.

Lemma turnStart_outside (env : Env) (userMessage : string) (st : State) :
  outsideTranscript (turnStart env userMessage st)
    = (untouched st, uploadedFiles st, true, chatSession st, "", fileInputValue st).
Proof. unfold turnStart. by rewrite pushUserMessage_eq. Qed.

Lemma countInputTokens_outside (env : Env) (modelName : string) (responseId : Z)
    (parts : list Part) (st : State) :
  outsideTranscript (snd (countInputTokens env modelName responseId parts st))
    = outsideTranscript st ∧
  requests (snd (countInputTokens env modelName responseId parts st))
    = requests st ++ [CountTokens modelName parts].
Proof.
  unfold countInputTokens.
  destruct (countTokens_result env) as [count|e]; [| done].
  destruct (bool_decide _); [| done].
  by destruct (messages (send _ st) !! _) as [[? ? ? [tc|]]|].
Qed.

Lemma applyChunk_outside (responseId : Z) (chunk : Chunk) (said : string) (st : State) :
  outsideTranscript (snd (applyChunk responseId chunk said st)) = outsideTranscript st ∧
  requests (snd (applyChunk responseId chunk said st)) = requests st.
Proof.
  unfold applyChunk. destruct (chunk_text chunk); [| done]. by destruct (bool_decide _).
Qed.

Lemma applyChunks_outside (responseId : Z) (chunks : list Chunk) :
  ∀ (said : string) (st : State),
    outsideTranscript (snd (applyChunks responseId chunks said st)) = outsideTranscript st ∧
    requests (snd (applyChunks responseId chunks said st)) = requests st.
Proof.
  induction chunks as [|chunk chunks IH]; intros said st; [done |].
  cbn [applyChunks]. unfold mbind, Turn_bind.
  destruct (applyChunk_outside responseId chunk said st) as [Ho Hr].
  destruct (applyChunk responseId chunk said st) as [[said'|e] st1]; [| done].
  simpl in Ho, Hr. fold (applyChunks responseId chunks).
  destruct (IH said' st1) as [Ho' Hr']. split; congruence.
Qed.

Lemma consumeStream_outside (responseId : Z) (stream : Stream) (st : State) :
  outsideTranscript (snd (consumeStream responseId stream st)) = outsideTranscript st ∧
  requests (snd (consumeStream responseId stream st)) = requests st.
Proof.
  unfold consumeStream, mbind, Turn_bind.
  pose proof (applyChunks_outside responseId (stream_chunks stream) "" st) as H.
  destruct (applyChunks _ _ _ st) as [[said|e] st1]; [| exact H].
  by destruct (stream_failure stream).
Qed.

(** The state in which [openTurn] ends is the prepared one but for the
    transcript and the requests. *)
Lemma openTurn_outside (env : Env) (userMessage : string) (st : State) :
  outsideTranscript (snd (openTurn env userMessage st))
    = (untouched st, uploadedFiles st, true,
       (if clientReturns st then Some (sessionOfTurn st) else chatSession st),
       "", fileInputValue st).
Proof.
  rewrite openTurn_eq. unfold clientReturns.
  destruct (genAI st); [| apply turnStart_outside]. cbv zeta.
  destruct (JS.truthy (default MODEL_NAME (modelSelectValue st))); [| apply turnStart_outside].
  rewrite <- (turnReady_outside env userMessage st).
  destruct (attachFiles_frame env
              (textParts (composeFinalMessage (getActivePrefixContent st) userMessage
                            (uploadedFiles st)) (uploadedFiles st))
              (turnReady env userMessage st)) as [rs E1].
  destruct (attachFiles _ _ _) as [[parts|e] s1]; simpl in E1; subst s1; [| done].
  destruct (countInputTokens_outside env (default MODEL_NAME (modelSelectValue st))
              (now_response env + 1) parts (addRequests rs (turnReady env userMessage st)))
    as [Ho _].
  destruct (countInputTokens_frame env (default MODEL_NAME (modelSelectValue st))
              (now_response env + 1) parts (addRequests rs (turnReady env userMessage st)))
    as (s2 & E2 & _).
  rewrite E2 in Ho |- *. simpl in Ho.
  destruct (sendMessageStream_frame env parts s2) as [rs' E3].
  destruct (sendMessageStream env parts s2) as [[stream|e] s3]; simpl in E3; subst s3;
    cbn [snd]; exact Ho.
Qed.

Lemma outsideTranscript_inv (st : State) u q l c m f :
  outsideTranscript st = (u, q, l, c, m, f) →
  untouched st = u ∧ uploadedFiles st = q ∧ isLoading st = l ∧ chatSession st = c ∧
  messageInputValue st = m ∧ fileInputValue st = f.
Proof.
  unfold outsideTranscript. generalize (untouched st). intros u0 [= -> -> -> -> -> ->]. done.
Qed.

Lemma clearFilesAfterSuccess_outside (st : State) :
  untouched (clearFilesAfterSuccess st) = untouched st ∧
  isLoading (clearFilesAfterSuccess st) = isLoading st ∧
  messageInputValue (clearFilesAfterSuccess st) = messageInputValue st ∧
  chatSession (clearFilesAfterSuccess st) = chatSession st ∧
  requests (clearFilesAfterSuccess st) = requests st.
Proof. unfold clearFilesAfterSuccess. by destruct (bool_decide _). Qed.

(** The [try] block of a turn: outside the transcript it sets the loading
    flag, empties the input, opens the session, and empties the queue if it
    runs to its end. *)
Lemma sendTurn_outside (env : Env) (userMessage : string) (st : State) :
  untouched (snd (sendTurn env userMessage st)) = untouched st ∧
  isLoading (snd (sendTurn env userMessage st)) = true ∧
  messageInputValue (snd (sendTurn env userMessage st)) = "" ∧
  chatSession (snd (sendTurn env userMessage st))
    = (if clientReturns st then Some (sessionOfTurn st) else chatSession st) ∧
  uploadedFiles (snd (sendTurn env userMessage st))
    = match fst (sendTurn env userMessage st) with
      | Returned _ => []
      | Thrown _ => uploadedFiles st
      end.
Proof.
  pose proof (openTurn_outside env userMessage st) as Ho.
  unfold sendTurn, mbind, Turn_bind.
  destruct (openTurn env userMessage st) as [[[responseId stream]|e] s1]; simpl in Ho.
  - destruct (consumeStream_outside responseId stream s1) as [Hc _].
    destruct (consumeStream responseId stream s1) as [[said|e] s2]; simpl in Hc.
    + rewrite Ho in Hc. cbn [fst snd modify].
      apply outsideTranscript_inv in Hc as (Hu & _ & Hl & Hs & Hm & _).
      destruct (clearFilesAfterSuccess_fields s2) as [_ Hq].
      destruct (clearFilesAfterSuccess_outside s2) as (-> & -> & -> & -> & _).
      by split_and!.
    + rewrite Ho in Hc. cbn [fst snd].
      apply outsideTranscript_inv in Hc as (Hu & Hq & Hl & Hs & Hm & _). by split_and!.
  - cbn [fst snd].
    apply outsideTranscript_inv in Ho as (Hu & Hq & Hl & Hs & Hm & _). by split_and!.
Qed.

(** The three ways through [handleSendMessage]. *)
Lemma handleSendMessage_cases (env : Env) (st : State) :
  (submitBlank st = true ∧ handleSendMessage env st = st) ∨
  (submitBlank st = false ∧ API_KEY st = "" ∧
   handleSendMessage env st = set_apiKeyModalHidden false st) ∨
  (submitBlank st = false ∧ API_KEY st ≠ "" ∧
   handleSendMessage env st =
     render (set_isLoading false
               (match fst (sendTurn env (JS.trim (messageInputValue st)) st) with
                | Returned _ => snd (sendTurn env (JS.trim (messageInputValue st)) st)
                | Thrown e =>
                    handleTurnError env e (snd (sendTurn env (JS.trim (messageInputValue st)) st))
                end))).
Proof.
  unfold handleSendMessage, submitBlank.
  destruct (negb _ && bool_decide _); [by left |]. right.
  destruct (JS.truthy (API_KEY st)) eqn:Hk; cbn [negb].
  - right. apply truthy_true_iff in Hk. split_and!; [done | done |].
    by destruct (sendTurn env _ st) as [[[]|e] s1].
  - left. apply truthy_false_iff in Hk. split_and!; [done | done |].
    unfold openApiKeyModal. by rewrite Hk.
Qed.

Lemma handleTurnError_outside (env : Env) (e : string) (st : State) :
  storedApiKey (handleTurnError env e st) = storedApiKey st ∧
  promptPrefixes (handleTurnError env e st) = promptPrefixes st ∧
  activePrefix (handleTurnError env e st) = activePrefix st ∧
  modelSelectValue (handleTurnError env e st) = modelSelectValue st ∧
  alerts (handleTurnError env e st) = alerts st ∧
  isLoading (handleTurnError env e st) = isLoading st ∧
  messageInputValue (handleTurnError env e st) = messageInputValue st ∧
  genAI (handleTurnError env e st) = (if isApiKeyError e then None else genAI st).
Proof. unfold handleTurnError. by destruct (isApiKeyError e). Qed.

Lemma untouched_inv (st st' : State) :
  untouched st' = untouched st →
  API_KEY st' = API_KEY st ∧ genAI st' = genAI st ∧ storedApiKey st' = storedApiKey st ∧
  promptPrefixes st' = promptPrefixes st ∧ activePrefix st' = activePrefix st ∧
  apiKeyInputValue st' = apiKeyInputValue st ∧ apiKeyModalHidden st' = apiKeyModalHidden st ∧
  modelSelectValue st' = modelSelectValue st ∧ alerts st' = alerts st.
Proof. unfold untouched. intros [= -> -> -> -> -> -> -> -> ->]. done. Qed.

Lemma finally_settings (st : State) :
  storedApiKey (render (set_isLoading false st)) = storedApiKey st ∧
  promptPrefixes (render (set_isLoading false st)) = promptPrefixes st ∧
  activePrefix (render (set_isLoading false st)) = activePrefix st ∧
  modelSelectValue (render (set_isLoading false st)) = modelSelectValue st ∧
  alerts (render (set_isLoading false st)) = alerts st ∧
  genAI (render (set_isLoading false st)) = genAI st ∧
  messageInputValue (render (set_isLoading false st)) = messageInputValue st.
Proof. done. Qed.

(** ** Turns: guards, loading flag, queue and settings *)

(** Without a key a submission sends nothing, adds nothing to the
    transcript and keeps the text typed and the queue; unless it is blank,
    it opens the key prompt. *)
Theorem submit_without_key (env : Env) (st : State) :
  API_KEY st = "" →
  requests (handleSendMessage env st) = requests st ∧
  messages (handleSendMessage env st) = messages st ∧
  messageInputValue (handleSendMessage env st) = messageInputValue st ∧
  uploadedFiles (handleSendMessage env st) = uploadedFiles st ∧
  isLoading (handleSendMessage env st) = isLoading st ∧
  (submitBlank st = false → apiKeyModalHidden (handleSendMessage env st) = false).
Proof.
  intros Hk.
  destruct (handleSendMessage_cases env st) as [[Hb ->]|[(Hb & _ & ->)|(_ & Hk' & _)]];
    [| done | done].
  split_and!; try done. by rewrite Hb.
Qed.

Lemma submit_without_key_witness :
  let env := sampleEnv (λ _, completedUpload "files/1") (Returned sampleStream) in
  let st := set_messageInputValue "Summarize"
              (set_chatSession None (set_genAI None (set_API_KEY "" sampleState))) in
  requests (handleSendMessage env st) = [] ∧
  messageInputValue (handleSendMessage env st) = "Summarize" ∧
  apiKeyModalHidden (handleSendMessage env st) = false.
Proof.
  cbv zeta.
  destruct (submit_without_key
              (sampleEnv (λ _, completedUpload "files/1") (Returned sampleStream))
              (set_messageInputValue "Summarize"
                 (set_chatSession None (set_genAI None (set_API_KEY "" sampleState)))))
    as (H1 & _ & H3 & _ & _ & H6); [reflexivity |].
  split_and!; [exact H1 | exact H3 | by apply H6].
Defined.

(** A submission never leaves the loading flag set: if it was clear before,
    it is clear afterwards, whatever the service answers; and once the
    guards are passed the input box is empty. *)
Theorem submit_ends_idle (env : Env) (st : State) :
  isLoading st = false →
  isLoading (handleSendMessage env st) = false ∧
  (submitBlank st = false → API_KEY st ≠ "" →
     messageInputValue (handleSendMessage env st) = "").
Proof.
  intros Hl.
  destruct (handleSendMessage_cases env st) as [[Hb ->]|[(Hb & Hk & ->)|(Hb & Hk & ->)]].
  - split; [done |]. intros Hb'. congruence.
  - split; [done |]. intros _ Hk'. done.
  - split; [done |]. intros _ _.
    destruct (sendTurn_outside env (JS.trim (messageInputValue st)) st)
      as (_ & _ & Hm & _ & _).
    rewrite (proj2 (proj2 (proj2 (proj2 (proj2 (proj2 (finally_settings _))))))).
    destruct (fst (sendTurn env _ st)) as [[]|e]; [exact Hm |].
    by rewrite (proj1 (proj2 (proj2 (proj2 (proj2 (proj2 (proj2
                 (handleTurnError_outside env e _)))))))).
Qed.

Lemma submit_ends_idle_witness :
  let env := sampleEnv (λ _, refusedUpload "quota exceeded") (Returned sampleStream) in
  let st := set_messageInputValue "Compare" (set_uploadedFiles [reportPdf 100] sampleState) in
  isLoading (handleSendMessage env st) = false ∧
  messageInputValue (handleSendMessage env st) = "".
Proof.
  cbv zeta.
  destruct (submit_ends_idle
              (sampleEnv (λ _, refusedUpload "quota exceeded") (Returned sampleStream))
              (set_messageInputValue "Compare" (set_uploadedFiles [reportPdf 100] sampleState)))
    as [H1 H2]; [reflexivity |].
  split; [exact H1 |]. apply H2; [reflexivity | discriminate].
Defined.

(** The queue after a submission that passes the guards: emptied when the
    turn ran to its end, left exactly as it was when anything in it threw. *)
Theorem submit_clears_queue_on_success_only (env : Env) (st : State) :
  submitBlank st = false →
  API_KEY st ≠ "" →
  uploadedFiles (handleSendMessage env st)
    = match fst (sendTurn env (JS.trim (messageInputValue st)) st) with
      | Returned _ => []
      | Thrown _ => uploadedFiles st
      end.
Proof.
  intros Hb Hk.
  destruct (handleSendMessage_cases env st) as [[Hb' _]|[(_ & Hk' & _)|(_ & _ & ->)]];
    [congruence | done |].
  destruct (sendTurn_outside env (JS.trim (messageInputValue st)) st)
    as (_ & _ & _ & _ & Hq).
  rewrite (proj1 (proj2 (finally_fields _))).
  destruct (fst (sendTurn env _ st)) as [[]|e]; [exact Hq |].
  by rewrite (proj1 (proj2 (handleTurnError_fields env e _))).
Qed.

Lemma submit_clears_queue_on_success_only_witness :
  let ok := sampleEnv (λ _, completedUpload "files/1") (Returned sampleStream) in
  let broken := sampleEnv (λ _, completedUpload "files/1")
                  (Returned (mkStream (stream_chunks sampleStream) (Some "network error"))) in
  let st := set_uploadedFiles [reportPdf 100] sampleState in
  uploadedFiles (handleSendMessage ok st) = [] ∧
  uploadedFiles (handleSendMessage broken st) = [reportPdf 100].
Proof.
  cbv zeta. split.
  - etrans; [apply submit_clears_queue_on_success_only; [reflexivity | discriminate] |].
    by vm_compute.
  - etrans; [apply submit_clears_queue_on_success_only; [reflexivity | discriminate] |].
    by vm_compute.
Defined.

(** A submission never writes the stored key, the prompt library, the
    active prefix, the model selection or an alert; the key in use is
    either kept or, with the client and the session, cleared. *)
Theorem submit_keeps_settings (env : Env) (st : State) :
  storedApiKey (handleSendMessage env st) = storedApiKey st ∧
  promptPrefixes (handleSendMessage env st) = promptPrefixes st ∧
  activePrefix (handleSendMessage env st) = activePrefix st ∧
  modelSelectValue (handleSendMessage env st) = modelSelectValue st ∧
  alerts (handleSendMessage env st) = alerts st ∧
  ((API_KEY (handleSendMessage env st) = API_KEY st ∧
    genAI (handleSendMessage env st) = genAI st) ∨
   (API_KEY (handleSendMessage env st) = "" ∧
    genAI (handleSendMessage env st) = None ∧
    chatSession (handleSendMessage env st) = None)).
Proof.
  destruct (handleSendMessage_cases env st) as [[_ ->]|[(_ & _ & ->)|(_ & _ & ->)]].
  - split_and!; auto.
  - split_and!; auto.
  - destruct (sendTurn_outside env (JS.trim (messageInputValue st)) st) as (Hu & _).
    apply untouched_inv in Hu as (Hk & Hg & Hs & Hp & Ha & _ & _ & Hm & Hal).
    destruct (finally_settings
                (match fst (sendTurn env (JS.trim (messageInputValue st)) st) with
                 | Returned _ => snd (sendTurn env (JS.trim (messageInputValue st)) st)
                 | Thrown e =>
                     handleTurnError env e
                       (snd (sendTurn env (JS.trim (messageInputValue st)) st))
                 end)) as (-> & -> & -> & -> & -> & -> & _).
    destruct (finally_fields
                (match fst (sendTurn env (JS.trim (messageInputValue st)) st) with
                 | Returned _ => snd (sendTurn env (JS.trim (messageInputValue st)) st)
                 | Thrown e =>
                     handleTurnError env e
                       (snd (sendTurn env (JS.trim (messageInputValue st)) st))
                 end)) as (_ & _ & -> & -> & _ & _).
    destruct (fst (sendTurn env _ st)) as [[]|e].
    + split_and!; auto.
    + destruct (handleTurnError_outside env e (snd (sendTurn env (JS.trim (messageInputValue st)) st)))
        as (-> & -> & -> & -> & -> & _ & _ & Hg').
      destruct (handleTurnError_fields env e (snd (sendTurn env (JS.trim (messageInputValue st)) st)))
        as (_ & _ & _ & Hk' & Hc').
      split_and!; try done.
      rewrite Hk', Hg', Hc'. destruct (isApiKeyError e); [by right | left; by rewrite Hk, Hg].
Qed.

(** ** Turns: the transcript *)

Lemma userMessages_one (now : Z) (st : State) :
  submitBlank st = false →
  ∃ shown, userMessages now (JS.trim (messageInputValue st)) (uploadedFiles st)
           = [mkMessage now user shown None].
Proof.
  unfold submitBlank, userMessages. intros Hb.
  destruct (JS.truthy (JS.trim (messageInputValue st))); [by eexists |].
  cbn [negb andb] in Hb. apply bool_decide_eq_false in Hb.
  rewrite bool_decide_eq_true_2 by (destruct (uploadedFiles st); simpl in *; [done | lia]).
  by eexists.
Qed.

(** When the client call throws, the turn stops after the user message. *)
Lemma openTurn_without_client (env : Env) (userMessage : string) (st : State) :
  clientReturns st = false →
  ∃ e, openTurn env userMessage st = (Thrown e, turnStart env userMessage st).
Proof.
  unfold clientReturns. intros Hc. rewrite openTurn_eq.
  destruct (genAI st); [| by eexists]. cbv zeta. rewrite Hc. by eexists.
Qed.

Lemma openTurn_headers (env : Env) (userMessage : string) (st : State) :
  header <$> messages (snd (openTurn env userMessage st))
    = header <$> (messages st ++ userMessages (now_user env) userMessage (uploadedFiles st)
                  ++ placeholderMessages env st).
Proof.
  unfold placeholderMessages.
  destruct (clientReturns st) eqn:Hc.
  2:{ destruct (openTurn_without_client env userMessage st Hc) as [e ->].
      unfold turnStart. rewrite pushUserMessage_eq, app_nil_r. reflexivity. }
  unfold clientReturns in Hc. rewrite openTurn_eq.
  destruct (genAI st); [| done]. cbv zeta. rewrite Hc.
  destruct (turnReady_fields env userMessage st) as (_ & _ & _ & _ & _ & _ & Hm).
  rewrite <- Hm.
  destruct (attachFiles_frame env
              (textParts (composeFinalMessage (getActivePrefixContent st) userMessage
                            (uploadedFiles st)) (uploadedFiles st))
              (turnReady env userMessage st)) as [rs E1].
  destruct (attachFiles _ _ _) as [[parts|e] s1]; simpl in E1; subst s1; [| done].
  destruct (countInputTokens_frame env (default MODEL_NAME (modelSelectValue st))
              (now_response env + 1) parts (addRequests rs (turnReady env userMessage st)))
    as (s2 & -> & Hh & _).
  destruct (sendMessageStream_frame env parts s2) as [rs' E3].
  destruct (sendMessageStream env parts s2) as [[stream|e] s3]; simpl in E3; subst s3;
    cbn [snd]; exact Hh.
Qed.

Lemma sendTurn_headers (env : Env) (userMessage : string) (st : State) :
  header <$> messages (snd (sendTurn env userMessage st))
    = header <$> (messages st ++ userMessages (now_user env) userMessage (uploadedFiles st)
                  ++ placeholderMessages env st).
Proof.
  rewrite <- (openTurn_headers env userMessage st).
  unfold sendTurn, mbind, Turn_bind.
  destruct (openTurn env userMessage st) as [[[responseId stream]|e] s1]; [| done].
  pose proof (consumeStream_frame responseId stream s1) as Ec.
  destruct (consumeStream responseId stream s1) as [[said|e] s2]; simpl in Ec |- *.
  - by rewrite (proj1 (clearFilesAfterSuccess_fields s2)).
  - done.
Qed.

Lemma sendTurn_without_client (env : Env) (userMessage : string) (st : State) :
  clientReturns st = false → ∃ e, fst (sendTurn env userMessage st) = Thrown e.
Proof.
  intros Hc. destruct (openTurn_without_client env userMessage st Hc) as [e E].
  exists e. unfold sendTurn, mbind, Turn_bind. by rewrite E.
Qed.

(** The ids and roles of the transcript after a submission that passed the
    guards. *)
Lemma submit_headers (env : Env) (st : State) :
  submitBlank st = false →
  API_KEY st ≠ "" →
  header <$> messages (handleSendMessage env st)
    = (header <$> messages st)
      ++ [(now_user env, user)]
      ++ (if clientReturns st then [(now_response env + 1, model)] else [])
      ++ (header <$> errorMessages env (fst (sendTurn env (JS.trim (messageInputValue st)) st))).
Proof.
  intros Hb Hk.
  destruct (handleSendMessage_cases env st) as [[Hb' _]|[(_ & Hk' & _)|(_ & _ & ->)]];
    [congruence | done |].
  rewrite (proj1 (finally_fields _)).
  pose proof (sendTurn_headers env (JS.trim (messageInputValue st)) st) as Hh.
  destruct (userMessages_one (now_user env) st Hb) as [shown Hu].
  rewrite Hu in Hh. unfold placeholderMessages in Hh.
  assert (header <$> messages (snd (sendTurn env (JS.trim (messageInputValue st)) st))
          = (header <$> messages st) ++ [(now_user env, user)]
            ++ (if clientReturns st then [(now_response env + 1, model)] else [])) as Hh'.
  { rewrite Hh, fmap_app. by destruct (clientReturns st). }
  destruct (fst (sendTurn env _ st)) as [[]|e]; cbn [errorMessages].
  - rewrite Hh', fmap_nil, app_nil_r. done.
  - rewrite (proj1 (handleTurnError_fields env e _)), fmap_app, Hh'.
    by rewrite <- !app_assoc.
Qed.

(** What a submission that passes the guards adds to the transcript: the
    earlier messages keep place, id and role, and after them come one user
    message, the model placeholder unless the client call threw (no client,
    or an empty model name), and, only if the turn threw, one error
    message; a client call that throws always ends in the error message. *)
Theorem submit_transcript_shape (env : Env) (st : State) :
  submitBlank st = false →
  API_KEY st ≠ "" →
  header <$> messages (handleSendMessage env st)
    = (header <$> messages st)
      ++ [(now_user env, user)]
      ++ (if clientReturns st then [(now_response env + 1, model)] else [])
      ++ (header <$> errorMessages env (fst (sendTurn env (JS.trim (messageInputValue st)) st))) ∧
  (clientReturns st = false →
     ∃ e, fst (sendTurn env (JS.trim (messageInputValue st)) st) = Thrown e).
Proof.
  intros Hb Hk. split.
  - by apply submit_headers.
  - apply sendTurn_without_client.
Qed.

Lemma submit_transcript_shape_witness :
  let env := sampleEnv (λ _, completedUpload "files/1") (Thrown "Failed to fetch") in
  let st := set_messageInputValue "Summarize" sampleState in
  let unnamed := set_modelSelectValue (Some "") st in
  header <$> messages (handleSendMessage env st)
    = [(10, model); (20, user); (21, model); (100, user); (102, model); (103, model)] ∧
  header <$> messages (handleSendMessage env unnamed)
    = [(10, model); (20, user); (21, model); (100, user); (103, model)].
Proof.
  cbv zeta. split.
  - etrans; [apply submit_transcript_shape; [reflexivity | discriminate] |].
    by vm_compute.
  - etrans; [apply submit_transcript_shape; [reflexivity | discriminate] |].
    by vm_compute.
Defined.

(** ** Turns: the requests *)

Lemma uploadFileToGemini_log (x : UploadExchange) (file : File) (st : State) :
  ∃ rs, snd (uploadFileToGemini x file st) = addRequests rs st ∧
        Forall (λ r, isUploadRequest r = true) rs ∧
        (∀ meta, fst (uploadFileToGemini x file st) = Returned meta →
                 JS.truthy (API_KEY st) = true ∧ uploadCompletes x = true ∧
                 meta = uploadedMeta x ∧
                 rs = uploadRequests (API_KEY st) (λ _, x) 0 [file]).
Proof.
  unfold uploadFileToGemini, uploadCompletes, uploadedMeta.
  destruct (JS.truthy (API_KEY st)); cbn [negb].
  2:{ exists []. rewrite addRequests_nil. split_and!; [done | constructor | discriminate]. }
  destruct (upload_start x) as [e|[] body url] eqn:Hs; cbn [negb].
  1,3: exists [UploadStart (API_KEY st) file];
       split_and!; [done | by repeat constructor | discriminate].
  destruct (JS.truthy url) eqn:Hu; cbn [negb].
  2:{ exists [UploadStart (API_KEY st) file].
      split_and!; [done | by repeat constructor | discriminate]. }
  exists [UploadStart (API_KEY st) file; UploadTransfer url file].
  cbv zeta. rewrite !send_addRequests, addRequests_addRequests.
  destruct (upload_transfer x) as [|status text [meta|]].
  - split_and!; [done | by repeat constructor | discriminate].
  - destruct ((200 <=? status)%nat && (status <? 300)%nat).
    + split_and!; [done | by repeat constructor |].
      intros meta' [= <-]. simpl. by rewrite Hs.
    + split_and!; [done | by repeat constructor | discriminate].
  - destruct ((200 <=? status)%nat && (status <? 300)%nat);
      (split_and!; [done | by repeat constructor | discriminate]).
Qed.

(** The upload loop logs upload requests only; if it returns, every upload
    completed, the results are those of the exchanges in order, and the log
    is the sequence of start and transfer requests, file by file. *)
Lemma uploadFiles_log (x : nat → UploadExchange) (files : list File) :
  ∀ (i : nat) (st : State),
    ∃ rs, snd (uploadFiles x i files st) = addRequests rs st ∧
          Forall (λ r, isUploadRequest r = true) rs ∧
          (∀ metas, fst (uploadFiles x i files st) = Returned metas →
             (∀ j, (j < length files)%nat → uploadCompletes (x (i + j)%nat) = true) ∧
             metas = (λ j, uploadedMeta (x j)) <$> seq i (length files) ∧
             rs = uploadRequests (API_KEY st) x i files).
Proof.
  induction files as [|file files IH]; intros i st.
  - exists []. rewrite addRequests_nil. split_and!; [done | constructor |].
    intros metas [= <-]. split_and!; [simpl; lia | done | done].
  - cbn [uploadFiles].
    destruct (uploadFileToGemini_log (x i) file st) as (rs & E & Hup & Hret).
    destruct (uploadFileToGemini (x i) file st) as [[meta|e] st1]; simpl in E; subst st1.
    + destruct (Hret meta eq_refl) as (Hk & Hc & -> & ->).
      destruct (IH (S i) (addRequests
                            (uploadRequests (API_KEY st) (λ _, x i) 0 [file]) st))
        as (rs' & E' & Hup' & Hret').
      destruct (uploadFiles x (S i) files _) as [[metas|e] st2]; simpl in E'; subst st2.
      * rewrite addRequests_addRequests. eexists. split; [reflexivity |].
        split; [by apply Forall_app |].
        intros metas' [= <-].
        destruct (Hret' metas eq_refl) as (Hall & -> & ->).
        split_and!.
        -- intros [|j] Hj; [by rewrite Nat.add_0_r |].
           replace (i + S j)%nat with (S i + j)%nat by lia. apply Hall. simpl in Hj. lia.
        -- done.
        -- simpl. unfold uploadCompletes in Hc.
           destruct (upload_start (x i)) as [|ok body url]; [discriminate |]. done.
      * rewrite addRequests_addRequests. eexists. split; [reflexivity |].
        split; [by apply Forall_app | discriminate].
    + exists rs. split_and!; [done | done | discriminate].
Qed.

Lemma attachFiles_log (env : Env) (parts : list Part) (st : State) :
  ∃ rs, snd (attachFiles env parts st) = addRequests rs st ∧
        Forall (λ r, isUploadRequest r = true) rs ∧
        (∀ parts', fst (attachFiles env parts st) = Returned parts' →
           (∀ j, (j < length (uploadedFiles st))%nat →
                 uploadCompletes (upload_exchange env j) = true) ∧
           rs = uploadRequests (API_KEY st) (upload_exchange env) 0 (uploadedFiles st) ∧
           ∃ fileRefs, parts' = parts ++ fileRefs ∧
             Some <$> fileRefs
               = (λ j, storedFile (upload_exchange env j)) <$> seq 0 (length (uploadedFiles st))).
Proof.
  unfold attachFiles.
  destruct (uploadedFiles st) as [|f files] eqn:Hq.
  - simpl. exists []. rewrite addRequests_nil. split_and!; [done | constructor |].
    intros parts' [= <-]. split_and!; [simpl; lia | done |].
    exists []. by rewrite app_nil_r.
  - rewrite bool_decide_eq_true_2 by (simpl; lia).
    destruct (uploadFiles_log (upload_exchange env) (f :: files) 0 st) as (rs & E & Hup & Hret).
    destruct (uploadFiles _ _ _ st) as [[metas|e] st1]; simpl in E; subst st1.
    + destruct (Hret metas eq_refl) as (Hall & Hmetas & ->).
      exists (uploadRequests (API_KEY st) (upload_exchange env) 0 (f :: files)).
      destruct (fileParts metas) as [fileRefs|e] eqn:Hfp.
      * split_and!; [done | done |]. intros parts' [= <-].
        split_and!; [exact Hall | done |]. exists fileRefs. split; [done |].
        subst metas. clear -Hfp. revert fileRefs Hfp.
        generalize (seq 0 (length (f :: files))). intros l.
        induction l as [|j l IH]; intros fileRefs Hfp; simpl in *.
        -- by injection Hfp as <-.
        -- unfold uploadedMeta, storedFile in *.
           destruct (upload_transfer (upload_exchange env j)) as [|? ? [[meta|]|]];
             try discriminate.
           destruct (fileParts _) as [rest|]; [| discriminate].
           injection Hfp as <-. simpl. f_equal. by apply IH.
      * split_and!; [done | done | discriminate].
    + exists rs. split_and!; [done | done | discriminate].
Qed.

Lemma requests_addRequests (rs : list Request) (st : State) :
  requests (addRequests rs st) = requests st ++ rs.
Proof. reflexivity. Qed.

Lemma uploadFiles_completes (x : nat → UploadExchange) (files : list File) :
  ∀ (i : nat) (st : State),
    JS.truthy (API_KEY st) = true →
    (∀ j, (j < length files)%nat → uploadCompletes (x (i + j)%nat) = true) →
    ∃ metas, fst (uploadFiles x i files st) = Returned metas.
Proof.
  induction files as [|file files IH]; intros i st Hk Hc; [by eexists |].
  cbn [uploadFiles].
  destruct (uploadFileToGemini_completes (x i) file st Hk) as (meta & rs & ->).
  { rewrite <- (Nat.add_0_r i). apply Hc. simpl. lia. }
  destruct (IH (S i) (addRequests rs st) Hk) as [metas Hm].
  { intros j Hj. replace (S i + j)%nat with (i + S j)%nat by lia. apply Hc. simpl. lia. }
  destruct (uploadFiles x (S i) files (addRequests rs st)) as [[metas'|e] s2];
    [by eexists | discriminate].
Qed.

Lemma fileParts_stored (x : nat → UploadExchange) (l : list nat) :
  (∀ j, j ∈ l → is_Some (storedFile (x j))) →
  ∃ fileRefs, fileParts ((λ j, uploadedMeta (x j)) <$> l) = Returned fileRefs.
Proof.
  induction l as [|j l IH]; intros Hs; [by eexists |].
  destruct IH as [fileRefs E]; [intros k Hk; apply Hs; by right |].
  destruct (Hs j) as [part Hp]; [by left |].
  rewrite fmap_cons. cbn [fileParts]. rewrite E.
  unfold storedFile in Hp. unfold uploadedMeta at 1.
  destruct (upload_transfer (x j)) as [|? ? [[meta|]|]]; try discriminate.
  by eexists.
Qed.

Lemma attachFiles_completes (env : Env) (parts : list Part) (st : State) :
  JS.truthy (API_KEY st) = true →
  (∀ j, (j < length (uploadedFiles st))%nat →
        uploadCompletes (upload_exchange env j) = true ∧
        is_Some (storedFile (upload_exchange env j))) →
  ∃ parts', fst (attachFiles env parts st) = Returned parts'.
Proof.
  intros Hk Hc. unfold attachFiles.
  destruct (bool_decide _); [| by eexists].
  destruct (uploadFiles_completes (upload_exchange env) (uploadedFiles st) 0 st Hk)
    as [metas Hm]; [intros j Hj; by apply Hc |].
  destruct (uploadFiles_log (upload_exchange env) (uploadedFiles st) 0 st)
    as (rs & _ & _ & Hret).
  destruct (uploadFiles _ _ _ st) as [[metas'|e] s1]; [| discriminate].
  destruct (Hret metas' eq_refl) as (_ & -> & _).
  destruct (fileParts_stored (upload_exchange env) (seq 0 (length (uploadedFiles st))))
    as [fileRefs ->]; [| by eexists].
  intros j Hj%elem_of_seq. apply Hc. lia.
Qed.

(** Once the files are attached the count request goes to the model
    selected and the chat request to the session of the turn, with the
    same parts. *)
Lemma openTurn_after_attach (env : Env) (userMessage : string) (st : State)
    (parts : list Part) :
  clientReturns st = true →
  fst (attachFiles env
         (textParts (composeFinalMessage (getActivePrefixContent st) userMessage
                       (uploadedFiles st)) (uploadedFiles st))
         (turnReady env userMessage st)) = Returned parts →
  fst (openTurn env userMessage st)
    = match sendMessageStream_result env with
      | Returned stream => Returned (now_response env + 1, stream)
      | Thrown e => Thrown e
      end ∧
  requests (snd (openTurn env userMessage st))
    = requests (snd (attachFiles env
                       (textParts (composeFinalMessage (getActivePrefixContent st) userMessage
                                     (uploadedFiles st)) (uploadedFiles st))
                       (turnReady env userMessage st)))
      ++ [CountTokens (default MODEL_NAME (modelSelectValue st)) parts;
          SendMessageStream (sessionOfTurn st) parts].
Proof.
  unfold clientReturns. intros Hg Ha. rewrite openTurn_eq.
  destruct (genAI st); [| done]. cbv zeta. rewrite Hg.
  destruct (attachFiles_frame env
              (textParts (composeFinalMessage (getActivePrefixContent st) userMessage
                            (uploadedFiles st)) (uploadedFiles st))
              (turnReady env userMessage st)) as [rs E1].
  destruct (attachFiles _ _ _) as [[parts'|e] s1]; simpl in Ha, E1; [| discriminate].
  injection Ha as ->. subst s1.
  destruct (countInputTokens_outside env (default MODEL_NAME (modelSelectValue st))
              (now_response env + 1) parts (addRequests rs (turnReady env userMessage st)))
    as [Ho Hr].
  destruct (countInputTokens_frame env (default MODEL_NAME (modelSelectValue st))
              (now_response env + 1) parts (addRequests rs (turnReady env userMessage st)))
    as (s2 & E2 & _).
  rewrite E2 in Ho, Hr |- *. cbn [snd] in Ho, Hr.
  change (outsideTranscript (addRequests rs (turnReady env userMessage st)))
    with (outsideTranscript (turnReady env userMessage st)) in Ho.
  rewrite turnReady_outside in Ho.
  apply outsideTranscript_inv in Ho as (_ & _ & _ & Hs & _).
  unfold sendMessageStream. rewrite Hs, send_addRequests.
  destruct (sendMessageStream_result env) as [stream|e]; cbn [fst snd];
    (split; [done |]); by rewrite requests_addRequests, Hr, <- app_assoc.
Qed.

Lemma openTurn_attach_thrown (env : Env) (userMessage : string) (st : State) (e : string) :
  clientReturns st = true →
  fst (attachFiles env
         (textParts (composeFinalMessage (getActivePrefixContent st) userMessage
                       (uploadedFiles st)) (uploadedFiles st))
         (turnReady env userMessage st)) = Thrown e →
  openTurn env userMessage st
    = (Thrown e,
       snd (attachFiles env
              (textParts (composeFinalMessage (getActivePrefixContent st) userMessage
                            (uploadedFiles st)) (uploadedFiles st))
              (turnReady env userMessage st))).
Proof.
  unfold clientReturns. intros Hg Ha. rewrite openTurn_eq.
  destruct (genAI st); [| done]. cbv zeta. rewrite Hg.
  destruct (attachFiles _ _ _) as [[parts'|e'] s1]; simpl in Ha; [discriminate |].
  by injection Ha as ->.
Qed.

(** The requests of a turn whose stream opened, in the order sent: for each
    queued file, in queue order, the start and the transfer of its upload;
    then the token count, addressed to the model selected; then the chat
    request, addressed to the session of the turn (the one already open, if
    any, whatever the selection says). Both carry the same parts: the text
    first, then the file references in queue order. *)
Theorem turn_request_trace (env : Env) (userMessage : string) (st : State)
    (responseId : Z) (stream : Stream) :
  fst (openTurn env userMessage st) = Returned (responseId, stream) →
  ∃ fileRefs,
    Some <$> fileRefs
      = (λ j, storedFile (upload_exchange env j)) <$> seq 0 (length (uploadedFiles st)) ∧
    requests (snd (openTurn env userMessage st))
      = requests st
        ++ uploadRequests (API_KEY st) (upload_exchange env) 0 (uploadedFiles st)
        ++ [CountTokens (default MODEL_NAME (modelSelectValue st))
              (textParts (composeFinalMessage (getActivePrefixContent st) userMessage
                            (uploadedFiles st)) (uploadedFiles st) ++ fileRefs);
            SendMessageStream (sessionOfTurn st)
              (textParts (composeFinalMessage (getActivePrefixContent st) userMessage
                            (uploadedFiles st)) (uploadedFiles st) ++ fileRefs)].
Proof.
  intros Hopen.
  assert (clientReturns st = true) as Hg.
  { destruct (clientReturns st) eqn:Hc; [done |].
    destruct (openTurn_without_client env userMessage st Hc) as [e E].
    rewrite E in Hopen. discriminate. }
  destruct (turnReady_fields env userMessage st) as (Hk & _ & Hq & _ & Hr & _).
  destruct (attachFiles_log env
              (textParts (composeFinalMessage (getActivePrefixContent st) userMessage
                            (uploadedFiles st)) (uploadedFiles st))
              (turnReady env userMessage st)) as (rs & E & _ & Hret).
  destruct (fst (attachFiles env _ (turnReady env userMessage st))) as [parts|e] eqn:Ha.
  - destruct (Hret parts eq_refl) as (_ & -> & fileRefs & -> & Hrefs).
    rewrite Hq, Hk in *.
    exists fileRefs. split; [exact Hrefs |].
    rewrite (proj2 (openTurn_after_attach env userMessage st _ Hg Ha)), E.
    by rewrite requests_addRequests, Hr, <- app_assoc.
  - rewrite (openTurn_attach_thrown env userMessage st e Hg Ha) in Hopen. discriminate.
Qed.

Lemma turn_request_trace_witness :
  let env := sampleEnv (λ _, completedUpload "files/1") (Returned sampleStream) in
  let st := set_uploadedFiles [reportPdf 10] sampleState in
  ∃ fileRefs,
    Some <$> fileRefs = [Some (FileDataPart "application/pdf" "files/1")] ∧
    requests (snd (openTurn env "Summarize" st))
      = [UploadStart "KEY" (reportPdf 10);
         UploadTransfer "https://upload.example/session" (reportPdf 10);
         CountTokens MODEL_NAME (textParts "Summarize" [reportPdf 10] ++ fileRefs);
         SendMessageStream (mkChatSession MODEL_NAME)
           (textParts "Summarize" [reportPdf 10] ++ fileRefs)].
Proof.
  cbv zeta.
  apply (turn_request_trace
           (sampleEnv (λ _, completedUpload "files/1") (Returned sampleStream))
           "Summarize" (set_uploadedFiles [reportPdf 10] sampleState) 102 sampleStream).
  by vm_compute.
Defined.

(** When every queued file uploads and is stored, and a key and a client
    are set and the model name selected is not empty, whether the turn
    opens is decided by the chat request alone: a failed token count does
    not stop it. *)
Theorem turn_opens_when_uploads_complete (env : Env) (userMessage : string) (st : State) :
  API_KEY st ≠ "" →
  genAI st ≠ None →
  default MODEL_NAME (modelSelectValue st) ≠ "" →
  (∀ j, (j < length (uploadedFiles st))%nat →
        uploadCompletes (upload_exchange env j) = true ∧
        is_Some (storedFile (upload_exchange env j))) →
  fst (openTurn env userMessage st)
    = match sendMessageStream_result env with
      | Returned stream => Returned (now_response env + 1, stream)
      | Thrown e => Thrown e
      end.
Proof.
  intros Hk Hg Hsel Hc.
  assert (clientReturns st = true) as Hcl.
  { unfold clientReturns. destruct (genAI st); [by apply truthy_true_iff | done]. }
  destruct (turnReady_fields env userMessage st) as (Hk' & _ & Hq & _).
  destruct (attachFiles_completes env
              (textParts (composeFinalMessage (getActivePrefixContent st) userMessage
                            (uploadedFiles st)) (uploadedFiles st))
              (turnReady env userMessage st)) as [parts Ha].
  - rewrite Hk'. by apply truthy_true_iff.
  - by rewrite Hq.
  - exact (proj1 (openTurn_after_attach env userMessage st parts Hcl Ha)).
Qed.

Lemma turn_opens_when_uploads_complete_witness :
  fst (openTurn (mkEnv 100 101 102 (λ _, completedUpload "files/1")
                   (Thrown "quota") (Returned sampleStream))
         "Summarize" (set_uploadedFiles [reportPdf 10] sampleState))
    = Returned (102, sampleStream).
Proof.
  apply (turn_opens_when_uploads_complete
           (mkEnv 100 101 102 (λ _, completedUpload "files/1")
              (Thrown "quota") (Returned sampleStream))
           "Summarize" (set_uploadedFiles [reportPdf 10] sampleState)).
  - discriminate.
  - discriminate.
  - discriminate.
  - intros j Hj. split; [reflexivity | by eexists].
Defined.

Lemma turnStart_requests (env : Env) (userMessage : string) (st : State) :
  requests (turnStart env userMessage st) = requests st.
Proof. unfold turnStart. by rewrite pushUserMessage_eq. Qed.

Lemma openTurn_thrown_by_upload (env : Env) (userMessage : string) (st : State) (j : nat) :
  (j < length (uploadedFiles st))%nat →
  uploadCompletes (upload_exchange env j) = false →
  ∃ e rs, fst (openTurn env userMessage st) = Thrown e ∧
          requests (snd (openTurn env userMessage st)) = requests st ++ rs ∧
          Forall (λ r, isUploadRequest r = true) rs.
Proof.
  intros Hj Hc.
  destruct (clientReturns st) eqn:Hg'.
  2:{ destruct (openTurn_without_client env userMessage st Hg') as [e ->].
      exists e, []. cbn [fst snd].
      rewrite turnStart_requests, app_nil_r. by split_and!. }
  destruct (turnReady_fields env userMessage st) as (_ & _ & Hq & _ & Hr & _).
  destruct (attachFiles_log env
              (textParts (composeFinalMessage (getActivePrefixContent st) userMessage
                            (uploadedFiles st)) (uploadedFiles st))
              (turnReady env userMessage st)) as (rs & E & Hup & Hret).
  destruct (fst (attachFiles env _ (turnReady env userMessage st))) as [parts|e] eqn:Ha.
  - destruct (Hret parts eq_refl) as (Hall & _). rewrite Hq in Hall.
    rewrite (Hall j Hj) in Hc. discriminate.
  - rewrite (openTurn_attach_thrown env userMessage st e Hg' Ha), E.
    exists e, rs. cbn [fst snd]. split_and!; [done | | done].
    by rewrite requests_addRequests, Hr.
Qed.

(** If the upload of some queued file does not complete, a submission sends
    upload requests only: no token count and no chat request leaves the
    page, and the queue is kept for another attempt. *)
Theorem failed_upload_sends_no_chat (env : Env) (st : State) (j : nat) :
  (j < length (uploadedFiles st))%nat →
  uploadCompletes (upload_exchange env j) = false →
  ∃ rs, requests (handleSendMessage env st) = requests st ++ rs ∧
        Forall (λ r, isUploadRequest r = true) rs ∧
        uploadedFiles (handleSendMessage env st) = uploadedFiles st.
Proof.
  intros Hj Hc.
  destruct (handleSendMessage_cases env st) as [[_ ->]|[(_ & _ & ->)|(_ & _ & ->)]].
  - exists []. by rewrite app_nil_r.
  - exists []. simpl. by rewrite app_nil_r.
  - destruct (openTurn_thrown_by_upload env (JS.trim (messageInputValue st)) st j Hj Hc)
      as (e & rs & He & Hr & Hup).
    exists rs.
    assert (sendTurn env (JS.trim (messageInputValue st)) st
            = (Thrown e, snd (openTurn env (JS.trim (messageInputValue st)) st))) as ->.
    { apply sendTurn_openTurn_thrown.
      destruct (openTurn env _ st) as [o s1]. simpl in He. by subst o. }
    cbn [fst snd].
    destruct (finally_fields (handleTurnError env e
                (snd (openTurn env (JS.trim (messageInputValue st)) st))))
      as (_ & -> & _ & _ & -> & _).
    destruct (handleTurnError_fields env e
                (snd (openTurn env (JS.trim (messageInputValue st)) st)))
      as (_ & -> & -> & _).
    split_and!; [done | done |].
    pose proof (openTurn_outside env (JS.trim (messageInputValue st)) st) as Ho.
    by apply outsideTranscript_inv in Ho as (_ & Hq & _).
Qed.

Lemma failed_upload_sends_no_chat_witness :
  let env := sampleEnv (λ _, refusedUpload "quota") (Returned sampleStream) in
  let st := set_uploadedFiles [reportPdf 10] sampleState in
  ∃ rs, requests (handleSendMessage env st) = requests st ++ rs ∧
        Forall (λ r, isUploadRequest r = true) rs ∧
        uploadedFiles (handleSendMessage env st) = uploadedFiles st.
Proof.
  cbv zeta.
  apply (failed_upload_sends_no_chat
           (sampleEnv (λ _, refusedUpload "quota") (Returned sampleStream))
           (set_uploadedFiles [reportPdf 10] sampleState) 0).
  - simpl. lia.
  - reflexivity.
Defined.

(** ** Turns: a stream that fails *)

Lemma chunksRead_readable (chunks : list Chunk) : Forall chunkReadable (chunksRead chunks).
Proof.
  induction chunks as [|chunk chunks IH]; simpl; [constructor |].
  destruct (chunk_text chunk) as [t|e] eqn:Ht; constructor; [by exists t | done].
Qed.

(** A loop that ends in an error leaves the state in which the chunks
    before the error were applied. *)
Lemma applyChunks_error (responseId : Z) (failure : option string) (chunks : list Chunk) :
  ∀ (said : string) (st : State) (e : string),
    chunksError chunks failure = Some e →
    mbind (λ responseText : string,
             match failure with
             | Some e' => throw e'
             | None => (mret responseText : Turn string)
             end)
      (applyChunks responseId chunks said) st
    = (Thrown e, snd (applyChunks responseId (chunksRead chunks) said st)).
Proof.
  induction chunks as [|chunk chunks IH]; intros said st e He; simpl in He.
  - by subst failure.
  - cbn [applyChunks chunksRead]. destruct (chunk_text chunk) as [t|e0] eqn:Ht.
    + destruct (applyChunk_readable responseId chunk said t st Ht) as (st1 & E1 & _).
      specialize (IH ((said +:+ t) +:+ chunkAnnotation chunk) st1 e He).
      cbn [applyChunks]. unfold mbind, Turn_bind in *. rewrite E1. exact IH.
    + injection He as ->. unfold mbind, Turn_bind, applyChunk. by rewrite Ht.
Qed.

Lemma consumeStream_error (responseId : Z) (stream : Stream) (st : State) (e : string) :
  streamError stream = Some e →
  consumeStream responseId stream st
    = (Thrown e, snd (applyChunks responseId (chunksRead (stream_chunks stream)) "" st)).
Proof. intros He. unfold consumeStream. by apply applyChunks_error. Qed.

Lemma userMessages_ids (now : Z) (userMessage : string) (files : list File) :
  Forall (λ m, msg_id m = now) (userMessages now userMessage files).
Proof.
  unfold userMessages. destruct (JS.truthy userMessage); [by repeat constructor |].
  destruct (bool_decide _); by repeat constructor.
Qed.

(** The search by id finds the placeholder when no message before it has
    its id. *)
Lemma placeholder_found (env : Env) (userMessage : string) (st st1 : State)
    (responseId : Z) (stream : Stream) :
  openTurn env userMessage st = (Returned (responseId, stream), st1) →
  Forall (λ m, msg_id m ≠ now_response env + 1) (messages st) →
  now_user env ≠ now_response env + 1 →
  responseIndex responseId (messages st1) = Z.of_nat (pred (length (messages st1))).
Proof.
  intros Hopen Hold Huser.
  destruct (openTurn_returned env userMessage st st1 responseId stream Hopen)
    as (-> & _ & Hh & _).
  assert (length (messages st1)
          = length (messages st ++ userMessages (now_user env) userMessage (uploadedFiles st)
                    ++ [placeholderMessage env])) as Hlen.
  { apply (f_equal length) in Hh. by rewrite !length_fmap in Hh. }
  rewrite (findIndex_same_ids _ _ _ (header_ids _ _ Hh)), Hlen.
  rewrite app_assoc, length_app. unfold responseIndex, JS.findIndex.
  rewrite list_find_app_r.
  - simpl. rewrite decide_True by done. simpl. f_equal. lia.
  - apply list_find_None, Forall_app. split; [exact Hold |].
    eapply Forall_impl; [apply userMessages_ids |]. simpl. intros m ->. exact Huser.
Qed.

(** When the stream fails after some chunks were read, the text read so far
    stays in the placeholder, the error message comes after it, and the
    queue is kept. *)
Theorem stream_failure_keeps_partial_text (env : Env) (st : State) (stream : Stream)
    (e : string) :
  submitBlank st = false →
  API_KEY st ≠ "" →
  fst (openTurn env (JS.trim (messageInputValue st)) st)
    = Returned (now_response env + 1, stream) →
  streamError stream = Some e →
  Forall (λ m, msg_id m ≠ now_response env + 1) (messages st) →
  now_user env ≠ now_response env + 1 →
  textAt (length (messages st) + 1) (handleSendMessage env st)
    = streamText (chunksRead (stream_chunks stream)) ∧
  messages (handleSendMessage env st) !! (length (messages st) + 2)%nat
    = Some (mkMessage (now_error env + 1) model (errorText e) None) ∧
  length (messages (handleSendMessage env st)) = (length (messages st) + 3)%nat ∧
  uploadedFiles (handleSendMessage env st) = uploadedFiles st.
Proof.
  intros Hb Hk Hopen He Hold Huser.
  destruct (openTurn env (JS.trim (messageInputValue st)) st) as [o st1] eqn:Eopen.
  simpl in Hopen. subst o.
  destruct (openTurn_returned env _ st st1 _ stream Eopen) as (_ & _ & Hh & _ & Hempty & Hq).
  pose proof (placeholder_found env _ st st1 _ stream Eopen Hold Huser) as Hfound.
  destruct (userMessages_one (now_user env) st Hb) as [shown Hu]. rewrite Hu in Hh.
  assert (length (messages st1) = (length (messages st) + 2)%nat) as Hlen.
  { apply (f_equal length) in Hh. rewrite !length_fmap, length_app in Hh. simpl in Hh. lia. }
  rewrite Hlen in Hfound, Hempty.
  replace (pred (length (messages st) + 2)) with (length (messages st) + 1)%nat
    in Hfound, Hempty by lia.
  pose proof (consumeStream_error (now_response env + 1) stream st1 e He) as Ec.
  pose proof (applyChunks_frame (now_response env + 1) (chunksRead (stream_chunks stream))
                "" st1) as Hframe.
  pose proof (proj1 (applyChunks_outside (now_response env + 1)
                       (chunksRead (stream_chunks stream)) "" st1)) as Hout.
  assert (textAt (length (messages st) + 1)
            (snd (applyChunks (now_response env + 1) (chunksRead (stream_chunks stream)) "" st1))
          = streamText (chunksRead (stream_chunks stream))) as Htext.
  { pose proof (chunksRead_readable (stream_chunks stream)) as Hread.
    destruct (chunksRead (stream_chunks stream)) as [|chunk chunks]; [exact Hempty |].
    by rewrite (applyChunks_fills _ chunks chunk "" st1 _ Hread Hfound). }
  set (s2 := snd (applyChunks (now_response env + 1)
                    (chunksRead (stream_chunks stream)) "" st1)) in *.
  assert (length (messages s2) = (length (messages st) + 2)%nat) as Hlen2.
  { apply (f_equal length) in Hframe. rewrite !length_fmap in Hframe. lia. }
  assert (sendTurn env (JS.trim (messageInputValue st)) st = (Thrown e, s2)) as Eturn.
  { unfold sendTurn, mbind, Turn_bind. by rewrite Eopen, Ec. }
  destruct (handleSendMessage_cases env st) as [[Hb' _]|[(_ & Hk' & _)|(_ & _ & ->)]];
    [congruence | done |].
  rewrite Eturn. cbn [fst snd].
  unfold textAt in *.
  destruct (finally_fields (handleTurnError env e s2)) as (-> & -> & _).
  destruct (handleTurnError_fields env e s2) as (-> & -> & _).
  split_and!.
  - rewrite lookup_app_l by lia. exact Htext.
  - rewrite lookup_app_r by lia.
    by replace (length (messages st) + 2 - length (messages s2))%nat with 0%nat by lia.
  - rewrite length_app. simpl. lia.
  - apply outsideTranscript_inv in Hout as (_ & Hq2 & _).
    unfold outsideTranscript in Hq2. congruence.
Qed.

Lemma stream_failure_keeps_partial_text_witness :
  let stream :=
    mkStream [mkChunk (Returned "Revenue grew") None None;
              mkChunk (Thrown "Failed to parse stream") None None;
              mkChunk (Returned " by 4%") None None] None in
  let env := sampleEnv (λ _, completedUpload "files/1") (Returned stream) in
  let st := set_messageInputValue "Summarize" sampleState in
  textAt 4 (handleSendMessage env st) = "Revenue grew" ∧
  messages (handleSendMessage env st) !! 5%nat
    = Some (mkMessage 103 model "Error: Failed to parse stream" None) ∧
  length (messages (handleSendMessage env st)) = 6%nat ∧
  uploadedFiles (handleSendMessage env st) = [].
Proof.
  cbv zeta.
  apply (stream_failure_keeps_partial_text
           (sampleEnv (λ _, completedUpload "files/1")
              (Returned (mkStream [mkChunk (Returned "Revenue grew") None None;
                                   mkChunk (Thrown "Failed to parse stream") None None;
                                   mkChunk (Returned " by 4%") None None] None)))
           (set_messageInputValue "Summarize" sampleState)
           (mkStream [mkChunk (Returned "Revenue grew") None None;
                      mkChunk (Thrown "Failed to parse stream") None None;
                      mkChunk (Returned " by 4%") None None] None)
           "Failed to parse stream").
  - reflexivity.
  - discriminate.
  - by vm_compute.
  - reflexivity.
  - repeat constructor; discriminate.
  - discriminate.
Defined.

(** ** Between the handlers *)

Lemma settled_fields (st st' : State) :
  sessionPart st' = sessionPart st →
  queueInvariant (uploadedFiles st') →
  settled st → settled st'.
Proof.
  unfold sessionPart, settled, clientMatchesKey.
  intros [= -> -> -> -> -> ->] Hq (Hl & Hc & _ & Hm & Hs & Hk). done.
Qed.

Lemma processFileUpload_session (file : File) (st : State) :
  sessionPart (processFileUpload file st) = sessionPart st.
Proof.
  unfold processFileUpload.
  destruct (hasValidType file); [destruct (bool_decide _) |]; reflexivity.
Qed.

Lemma processFiles_session (files : list File) :
  ∀ st, sessionPart (processFiles files st) = sessionPart st.
Proof.
  unfold processFiles. induction files as [|file files IH]; intros st; simpl; [done |].
  rewrite IH. apply processFileUpload_session.
Qed.

Lemma pasteItem_session (items : list ClipboardItem) :
  ∀ acc, sessionPart (fst (foldl pasteItem acc items)) = sessionPart (fst acc).
Proof.
  induction items as [|item items IH]; intros acc; simpl; [done |].
  rewrite IH. unfold pasteItem.
  destruct (bool_decide _); [| done].
  destruct (item_file item) as [file|]; [| done].
  destruct (String.prefix _ _); [| done].
  apply processFileUpload_session.
Qed.

Lemma queueInvariant_delete (i : nat) (queue : list File) :
  queueInvariant queue → queueInvariant (delete i queue).
Proof.
  intros [Hn Hf]. split.
  - rewrite list_fmap_delete. eapply sublist_NoDup; [exact Hn | apply sublist_delete].
  - by apply Forall_delete.
Qed.

Lemma resetSession_settled (now : Z) (st : State) :
  settled st → settled (resetSession now st).
Proof.
  intros (Hl & Hc & _ & _ & _ & Hk).
  destruct (resetSession_result now st) as (Hs & Hq & Hm).
  unfold settled. rewrite Hs, Hq, Hm.
  split_and!; [done | done | apply queueInvariant_nil | done | by intros [? ?] | done].
Qed.

Lemma storePrefix_session (nowId name content : string) (form : PrefixForm) (st : State) :
  sessionPart (storePrefix nowId name content form st) = sessionPart st ∧
  uploadedFiles (storePrefix nowId name content form st) = uploadedFiles st.
Proof.
  unfold storePrefix.
  destruct (JS.truthy (editingId form)); [| done].
  destruct (bool_decide _); [| done].
  destruct (promptPrefixes st !! _) as [old|]; [| done].
  by destruct (negb (prefix_isDefault old)).
Qed.

Lemma savePrefix_session (nowId : string) (form : PrefixForm) (st : State) :
  sessionPart (fst (snd (savePrefix nowId form st))) = sessionPart st ∧
  uploadedFiles (fst (snd (savePrefix nowId form st))) = uploadedFiles st.
Proof.
  unfold savePrefix. cbv zeta.
  destruct (negb _ || negb _); [done |].
  pose proof (storePrefix_session nowId (JS.trim (prefixNameInputValue form))
                (JS.trim (prefixContentInputValue form)) form st) as H.
  destruct (autoApplyChecked form); [| exact H].
  destruct (savedPrefix form _); exact H.
Qed.

(** The fields a turn that passed the guards ends with. *)
Lemma turn_end_fields (env : Env) (userMessage : string) (st : State) :
  let r := fst (sendTurn env userMessage st) in
  let s := snd (sendTurn env userMessage st) in
  let st' := render (set_isLoading false
                       (match r with Returned _ => s | Thrown e => handleTurnError env e s end)) in
  let cleared := match r with Thrown e => isApiKeyError e | Returned _ => false end in
  isLoading st' = false ∧
  storedApiKey st' = storedApiKey st ∧
  uploadedFiles st' = match r with Returned _ => [] | Thrown _ => uploadedFiles st end ∧
  messages st' = messages s ++ errorMessages env r ∧
  API_KEY st' = (if cleared then "" else API_KEY st) ∧
  genAI st' = (if cleared then None else genAI st) ∧
  chatSession st'
    = (if cleared then None
       else if clientReturns st then Some (sessionOfTurn st) else chatSession st).
Proof.
  cbv zeta.
  destruct (sendTurn_outside env userMessage st) as (Hu & _ & _ & Hcs & Hq).
  apply untouched_inv in Hu as (Hk & Hg & Hs & _).
  destruct (fst (sendTurn env userMessage st)) as [[]|e].
  - cbn [errorMessages]. rewrite app_nil_r. by split_and!.
  - destruct (handleTurnError_fields env e (snd (sendTurn env userMessage st)))
      as (Hm' & Hq' & _ & Hk' & Hc').
    destruct (handleTurnError_outside env e (snd (sendTurn env userMessage st)))
      as (Hs' & _ & _ & _ & _ & _ & _ & Hg').
    destruct (finally_fields (handleTurnError env e (snd (sendTurn env userMessage st))))
      as (-> & -> & -> & -> & _ & ->).
    destruct (finally_settings (handleTurnError env e (snd (sendTurn env userMessage st))))
      as (-> & _ & _ & _ & _ & -> & _).
    rewrite Hm', Hq', Hk', Hc', Hs', Hg', Hk, Hg, Hs, Hcs, Hq.
    by split_and!.
Qed.

Lemma handleSendMessage_settled (env : Env) (st : State) :
  settled st → settled (handleSendMessage env st).
Proof.
  intros Hst.
  destruct (handleSendMessage_cases env st) as [[_ ->]|[(_ & _ & ->)|(_ & Hkey & ->)]];
    [done | by apply (settled_fields st); [| apply Hst |] |].
  destruct Hst as (Hl & Hc & Hq & Hm & Hs & Hk).
  assert (genAI st = Some (API_KEY st)) as Hg.
  { unfold clientMatchesKey in Hc. by rewrite (proj2 (truthy_true_iff _) Hkey) in Hc. }
  pose proof (sendTurn_headers env (JS.trim (messageInputValue st)) st) as Hh.
  destruct (turn_end_fields env (JS.trim (messageInputValue st)) st)
    as (El & Es & Eq & Em & Ek & Eg & Ec). cbv zeta in *.
  unfold settled, clientMatchesKey.
  rewrite El, Es, Eq, Em, Ek, Eg, Ec, Hg.
  split_and!.
  - done.
  - destruct (fst (sendTurn env _ st)) as [[]|e];
      [| destruct (isApiKeyError e); [done |]];
      by rewrite (proj2 (truthy_true_iff _) Hkey).
  - destruct (fst (sendTurn env _ st)); [apply queueInvariant_nil | done].
  - intros [Hnil _]%app_eq_nil. rewrite Hnil in Hh.
    symmetry in Hh. apply fmap_nil_inv, app_eq_nil in Hh as [Hh _]. done.
  - destruct (fst (sendTurn env _ st)) as [[]|e];
      [| destruct (isApiKeyError e); [by intros [? ?] |]]; done.
  - destruct (fst (sendTurn env _ st)) as [[]|e];
      [| destruct (isApiKeyError e); [done |]]; done.
Qed.

Lemma handle_settled (ev : Event) (st : State) :
  settled st → settled (handle st ev).
Proof.
  intros Hst. destruct ev; cbn [handle].
  - apply (settled_fields st); [apply processFiles_session | | done].
    apply processFiles_invariant, Hst.
  - apply (settled_fields st); [apply (pasteItem_session items (st, [])) | | done].
    apply (pasteItem_fold items st []), Hst.
  - unfold removeFile. destruct (_ && _); [| done]. cbv zeta.
    apply (settled_fields st); [by destruct (bool_decide _) | | done].
    destruct (bool_decide _); apply queueInvariant_delete, Hst.
  - apply (settled_fields st); [done | apply queueInvariant_nil | done].
  - by apply resetSession_settled.
  - apply (settled_fields st); [done | apply Hst | done].
  - unfold openApiKeyModal.
    destruct (JS.truthy (API_KEY st)); (apply (settled_fields st); [done | apply Hst | done]).
  - apply (settled_fields st); [done | apply Hst | done].
  - unfold saveApiKey. destruct (JS.truthy (JS.trim (apiKeyInputValue st))) eqn:E; cbn [negb].
    + destruct Hst as (Hl & _ & Hq & _ & _ & _).
      unfold settled, clientMatchesKey. simpl. rewrite E.
      split_and!; [done | done | done | | by intros [? ?] | done].
      intros [_ H]%app_eq_nil. discriminate.
    + apply (settled_fields st); [done | apply Hst | done].
  - unfold modelSelectChange. destruct confirmed.
    + apply resetSession_settled. apply (settled_fields st); [done | apply Hst | done].
    + apply (settled_fields st); [done | apply Hst | done].
  - apply (settled_fields st); [done | apply Hst | done].
  - by apply handleSendMessage_settled.
  - destruct (savePrefix_session nowId form st) as [Hs Hq].
    apply (settled_fields st); [done | rewrite Hq; apply Hst | done].
  - unfold deletePrefix. destruct (list_find _ _); [destruct (bool_decide _) |];
      (apply (settled_fields st); [done | apply Hst | done]).
  - apply (settled_fields st); [done | apply Hst | done].
  - apply (settled_fields st); [done | apply Hst | done].
  - apply (settled_fields st); [done | apply Hst | done].
Qed.

(** At the start of the page, whatever key is stored and whatever the page
    holds: the key in use is the stored one (none when nothing is stored),
    the client exists exactly when that key is not empty and was built with
    it, the transcript is the greeting alone (with the setup notice exactly
    when no key is in use), nothing is queued or loading, no session is
    open, the prompt library is empty and no prefix is active; in
    particular the state is settled. *)
Theorem startup_is_settled (stored : option string) (now : Z) (page : State) :
  let st := startup stored now page in
  API_KEY st = default "" stored ∧
  genAI st = (if bool_decide (default "" stored = "") then None else Some (default "" stored)) ∧
  storedApiKey st = stored ∧
  messages st
    = [mkMessage now model
         (if bool_decide (default "" stored = "") then welcomeText +:+ setupNotice
          else welcomeText) None] ∧
  uploadedFiles st = [] ∧
  isLoading st = false ∧
  chatSession st = None ∧
  promptPrefixes st = [] ∧
  activePrefix st = "" ∧
  settled st.
Proof.
  cbv zeta. unfold startup, initializeChat, settled, clientMatchesKey, JS.truthy. simpl.
  destruct (bool_decide (default "" stored = "")) eqn:E; simpl;
    (split_and!; try done; [apply queueInvariant_nil |]);
    by destruct stored as [key|].
Qed.

(** Whatever the events and whatever the service answers, handlers that
    run one after the other keep the page settled: the loading flag is
    clear again, the client is the one of the key in use, the queue has no
    two files of one name, the transcript is not empty, a session is open
    only while a key is in use, and the key in use is the one stored. *)
Theorem run_keeps_settled (events : list Event) (st : State) :
  settled st → settled (run events st).
Proof.
  unfold run. revert st.
  induction events as [|ev events IH]; intros st Hst; simpl; [done |].
  by apply IH, handle_settled.
Qed.

Lemma run_keeps_settled_witness :
  settled (run [TypeMessage "Summarize";
                AddFiles [reportPdf 10; reportPdf 20];
                Submit (sampleEnv (λ _, completedUpload "files/1")
                          (Thrown "API key not valid"));
                TypeApiKey " KEY2 ";
                SaveApiKey 200;
                Submit (sampleEnv (λ _, completedUpload "files/1") (Returned sampleStream))]
             sampleState).
Proof.
  apply run_keeps_settled.
  unfold settled, clientMatchesKey. simpl.
  split_and!; [done | done | apply queueInvariant_nil | done | done | done].
Defined.

(** ** Turns: the token count *)

Lemma sameButTokens_refl (s : State) : sameButTokens s s.
Proof. by split_and!. Qed.

Lemma outsideTranscript_eq (s s' : State) :
  outsideTranscript s = outsideTranscript s' ↔
  untouched s = untouched s' ∧ uploadedFiles s = uploadedFiles s' ∧
  isLoading s = isLoading s' ∧ chatSession s = chatSession s' ∧
  messageInputValue s = messageInputValue s' ∧ fileInputValue s = fileInputValue s'.
Proof.
  split.
  - intros H. symmetry in H. apply outsideTranscript_inv in H. by destruct_and!.
  - unfold outsideTranscript. by intros (-> & -> & -> & -> & -> & ->).
Qed.

Lemma shown_ids (l l' : list Message) :
  shownPart <$> l = shownPart <$> l' → msg_id <$> l = msg_id <$> l'.
Proof.
  intros H. apply (f_equal (fmap (λ x : Z * Role * string, fst (fst x)))) in H.
  by rewrite <- !list_fmap_compose in H.
Qed.

Lemma countInputTokens_sim (env env' : Env) (modelName : string) (responseId : Z)
    (parts : list Part) (st : State) :
  sameButTokens (snd (countInputTokens env modelName responseId parts st))
    (snd (countInputTokens env' modelName responseId parts st)).
Proof.
  assert (∀ env0, shownPart <$> messages (snd (countInputTokens env0 modelName responseId
                                                   parts st))
                  = shownPart <$> messages st) as Hshown.
  { intros env0. unfold countInputTokens.
    destruct (countTokens_result env0) as [count|e]; [| done].
    destruct (bool_decide _); [| done].
    destruct (messages (send _ st) !! _) as [[? ? ? [tc|]]|]; try done.
    simpl. apply fmap_alter_same. intros m. unfold setInputTokens.
    by destruct (msg_tokenCounts m). }
  destruct (countInputTokens_outside env modelName responseId parts st) as [Ho Hr].
  destruct (countInputTokens_outside env' modelName responseId parts st) as [Ho' Hr'].
  unfold sameButTokens. by rewrite !Hshown, Ho, Ho', Hr, Hr'.
Qed.

Lemma sendMessageStream_sim (env : Env) (parts : list Part) (s s' : State) :
  sameButTokens s s' →
  fst (sendMessageStream env parts s) = fst (sendMessageStream env parts s') ∧
  sameButTokens (snd (sendMessageStream env parts s)) (snd (sendMessageStream env parts s')).
Proof.
  intros (Hm & Ho & Hr). unfold sendMessageStream.
  assert (chatSession s = chatSession s') as <-.
  { unfold outsideTranscript in Ho. congruence. }
  destruct (chatSession s) as [session|]; [| by split_and!].
  destruct (sendMessageStream_result env); (split; [done |]);
    (split_and!; [exact Hm | exact Ho |]); simpl; by rewrite Hr.
Qed.

Lemma applyChunk_sim (responseId : Z) (chunk : Chunk) (said : string) (s s' : State) :
  sameButTokens s s' →
  fst (applyChunk responseId chunk said s) = fst (applyChunk responseId chunk said s') ∧
  sameButTokens (snd (applyChunk responseId chunk said s))
    (snd (applyChunk responseId chunk said s')).
Proof.
  intros (Hm & Ho & Hr). unfold applyChunk.
  destruct (chunk_text chunk) as [chunkText|e]; [| by split_and!].
  pose proof (findIndex_same_ids responseId _ _ (shown_ids _ _ Hm)) as Hi.
  unfold responseIndex in Hi. rewrite Hi.
  destruct (bool_decide _); [| by split_and!].
  split; [done |]. split_and!; [| exact Ho | exact Hr].
  cbn [snd messages render set_messages].
  rewrite !(list_fmap_alter shownPart _
              (λ p, (fst (fst p), snd (fst p), (said +:+ chunkText) +:+ chunkAnnotation chunk)));
    [by rewrite Hm | |]; by apply Forall_forall.
Qed.

Lemma applyChunks_sim (responseId : Z) (chunks : list Chunk) :
  ∀ (said : string) (s s' : State),
    sameButTokens s s' →
    fst (applyChunks responseId chunks said s) = fst (applyChunks responseId chunks said s') ∧
    sameButTokens (snd (applyChunks responseId chunks said s))
      (snd (applyChunks responseId chunks said s')).
Proof.
  induction chunks as [|chunk chunks IH]; intros said s s' Hs; [by split |].
  cbn [applyChunks]. unfold mbind, Turn_bind.
  destruct (applyChunk_sim responseId chunk said s s' Hs) as [Hf Hs1].
  destruct (applyChunk responseId chunk said s) as [[t|e] s1],
           (applyChunk responseId chunk said s') as [[t'|e'] s1'];
    simpl in Hf, Hs1; try discriminate.
  - injection Hf as <-. by apply IH.
  - by split.
Qed.

Lemma sendTurn_sim (env : Env) (answer : outcome (option Z)) (userMessage : string)
    (st : State) :
  fst (sendTurn env userMessage st) = fst (sendTurn (withCountTokens answer env) userMessage st) ∧
  sameButTokens (snd (sendTurn env userMessage st))
    (snd (sendTurn (withCountTokens answer env) userMessage st)).
Proof.
  assert (fst (openTurn env userMessage st)
            = fst (openTurn (withCountTokens answer env) userMessage st) ∧
          sameButTokens (snd (openTurn env userMessage st))
            (snd (openTurn (withCountTokens answer env) userMessage st))) as [Hf Hs].
  { rewrite !openTurn_eq. destruct (genAI st); [| split; [done | apply sameButTokens_refl]].
    cbv zeta.
    destruct (JS.truthy (default MODEL_NAME (modelSelectValue st)));
      [| split; [done | apply sameButTokens_refl]].
    change (turnReady (withCountTokens answer env) userMessage st)
      with (turnReady env userMessage st).
    change (attachFiles (withCountTokens answer env)) with (attachFiles env).
    change (now_response (withCountTokens answer env)) with (now_response env).
    destruct (attachFiles env _ (turnReady env userMessage st)) as [[parts|e] s1];
      [| split; [done | apply sameButTokens_refl]].
    pose proof (countInputTokens_sim env (withCountTokens answer env)
                  (default MODEL_NAME (modelSelectValue st)) (now_response env + 1) parts s1)
      as Hc.
    destruct (countInputTokens_frame env (default MODEL_NAME (modelSelectValue st))
                (now_response env + 1) parts s1) as (s2 & E2 & _).
    destruct (countInputTokens_frame (withCountTokens answer env)
                (default MODEL_NAME (modelSelectValue st))
                (now_response env + 1) parts s1) as (s2' & E2' & _).
    rewrite E2, E2' in Hc |- *. cbn [snd] in Hc.
    change (sendMessageStream (withCountTokens answer env)) with (sendMessageStream env).
    destruct (sendMessageStream_sim env parts s2 s2' Hc) as [Hf Hs].
    destruct (sendMessageStream env parts s2) as [[stream|e] s3],
             (sendMessageStream env parts s2') as [[stream'|e'] s3'];
      simpl in Hf, Hs; try discriminate.
    - by injection Hf as <-.
    - by injection Hf as <-. }
  unfold sendTurn, mbind, Turn_bind.
  destruct (openTurn env userMessage st) as [[[responseId stream]|e] s1],
           (openTurn (withCountTokens answer env) userMessage st)
             as [[[responseId' stream']|e'] s1'];
    simpl in Hf, Hs; try discriminate;
    [| injection Hf as ->; split; [reflexivity | exact Hs]].
  injection Hf as <- <-.
  unfold consumeStream, mbind, Turn_bind.
  destruct (applyChunks_sim responseId (stream_chunks stream) "" s1 s1' Hs) as [Hf Hs2].
  destruct (applyChunks responseId (stream_chunks stream) "" s1) as [[said|e] s2],
           (applyChunks responseId (stream_chunks stream) "" s1') as [[said'|e'] s2'];
    simpl in Hf, Hs2; try discriminate;
    [| injection Hf as ->; split; [reflexivity | exact Hs2]].
  destruct (stream_failure stream); [split; [done | exact Hs2] |].
  cbn [mret Turn_ret fst snd modify]. split; [done |].
  destruct Hs2 as (Hm & Ho & Hr).
  assert (uploadedFiles s2 = uploadedFiles s2') as Hq.
  { unfold outsideTranscript in Ho. congruence. }
  unfold clearFilesAfterSuccess. rewrite <- Hq.
  destruct (bool_decide _); [| by split_and!].
  split_and!; [exact Hm | | exact Hr].
  apply outsideTranscript_eq in Ho as (Hu & _ & Hl & Hc & Hi & _).
  apply outsideTranscript_eq. by split_and!.
Qed.

(** What [countTokens] answers, or whether it answers at all, decides
    nothing but the token counts shown: with any other answer the
    submission ends with the same ids, roles and texts in the transcript,
    the same requests sent, and the same queue, key, session and inputs. *)
Theorem token_count_only_counts (env : Env) (answer : outcome (option Z)) (st : State) :
  sameButTokens (handleSendMessage env st)
    (handleSendMessage (withCountTokens answer env) st).
Proof.
  destruct (sendTurn_sim env answer (JS.trim (messageInputValue st)) st) as [Hf Hs].
  destruct (handleSendMessage_cases env st) as [[Hb ->]|[(Hb & Hk & ->)|(Hb & Hk & ->)]];
    destruct (handleSendMessage_cases (withCountTokens answer env) st)
      as [[Hb' ->]|[(Hb' & Hk' & ->)|(Hb' & Hk' & ->)]];
    try congruence; try apply sameButTokens_refl.
  rewrite <- Hf. destruct Hs as (Hm & Ho & Hr).
  destruct (fst (sendTurn env _ st)) as [[]|e].
  - split_and!; [exact Hm | | exact Hr].
    apply outsideTranscript_eq in Ho as (Hu & Hq & _ & Hc & Hi & Hfi).
    apply outsideTranscript_eq. by split_and!.
  - apply outsideTranscript_eq in Ho as (Hu & Hq & _ & Hc & Hi & Hfi).
    symmetry in Hu.
    apply untouched_inv in Hu as (Ek & Eg & Est & Ep & Ea & Eai & Eah & Ems & Eal).
    unfold handleTurnError.
    change (now_error (withCountTokens answer env)) with (now_error env).
    destruct (isApiKeyError e); (split_and!; [| | exact Hr]).
    + cbn [messages render set_isLoading set_messages set_chatSession set_genAI set_API_KEY].
      by rewrite !fmap_app, Hm.
    + apply outsideTranscript_eq. unfold untouched. simpl. split_and!; congruence.
    + cbn [messages render set_isLoading set_messages].
      by rewrite !fmap_app, Hm.
    + apply outsideTranscript_eq. unfold untouched. simpl. split_and!; congruence.
Qed.

(** * The claims on whole turns *)

(** ** Messages a turn does not write *)






Lemma submitBlank_false (st : State) :
  submitBlank st = false ↔ (JS.trim (messageInputValue st) ≠ "" ∨ uploadedFiles st ≠ []).
Proof.
  unfold submitBlank. rewrite andb_false_iff, negb_false_iff, truthy_true_iff.
  rewrite bool_decide_eq_false. split; (intros [H|H]; [by left | right]).
  - intros Hq. apply H. by rewrite Hq.
  - by destruct (uploadedFiles st).
Qed.





(** ** Requests of a turn *)




(** ** The composed text, on every submitted turn *)





(** ** Errors of a turn, on every path *)








(** ** Finish reasons, on the whole turn *)

(** C9: the loop calls [chunk.text()] (line 1251) before it looks at the
    finish reason (lines 1254-1268), and the SDK's [text()] throws for a
    candidate that was blocked for safety. For such a stream the branch
    that would append the safety annotation is never reached: the
    placeholder keeps the text received so far without any annotation, the
    error message follows it, and the queue is kept. Had [text()] returned,
    the annotation of the safety branch would have been appended. *)
Theorem C9_safety_block_ends_in_error :
  let blocked := "[GoogleGenerativeAI Error]: Candidate was blocked due to SAFETY" in
  let stream :=
    mkStream [mkChunk (Returned "Partial answer") (Some [mkCandidate ""]) None;
              mkChunk (Thrown blocked) (Some [mkCandidate "SAFETY"]) None] None in
  let env := sampleEnv (λ _, completedUpload "files/1") (Returned stream) in
  let st := set_messageInputValue "Summarize" (set_uploadedFiles [reportPdf 100] sampleState) in
  let st' := handleSendMessage env st in
  messages st'
    = messages st
      ++ [mkMessage 100 user "Summarize" None;
          mkMessage 102 model "Partial answer" (Some (mkTokenCounts (Some 12) (Some 0) None));
          mkMessage 103 model ("Error: " +:+ blocked) None] ∧
  Forall (λ m, JS.includes "Generation stopped" (msg_text m) = false) (messages st') ∧
  uploadedFiles st' = [reportPdf 100] ∧
  isLoading st' = false ∧
  chunkAnnotation (mkChunk (Returned "") (Some [mkCandidate "SAFETY"]) None)
    = nl +:+ nl +:+ "**[Generation stopped due to Safety Filters]**".
Proof.
  cbv zeta. split_and!; try (by vm_compute).
  vm_compute. repeat constructor.
Qed.

Lemma finishAnnotation_label (reason : string) :
  finishAnnotation reason
    = nl +:+ nl +:+ "**["
      +:+ (if bool_decide (reason = "SAFETY") then "Generation stopped due to Safety Filters"
           else if bool_decide (reason = "MAX_TOKENS")
                then "Generation stopped due to Max Token Limit"
                else "Generation stopped: " +:+ reason)
      +:+ "]**".
Proof.
  unfold finishAnnotation.
  destruct (bool_decide (reason = "SAFETY")); [reflexivity |].
  destruct (bool_decide (reason = "MAX_TOKENS")); [reflexivity |].
  by rewrite !append_assoc.
Qed.

(** A chunk whose [text()] returns and whose first candidate carries a
    finish reason other than STOP gets the bracketed annotation after its
    text, and the annotation reaches the placeholder: when every chunk is
    readable and the iteration does not fail, the placeholder ends with the
    text of the chunks before, the chunk's own text, the annotation and the
    text of the chunks after; the turn ends as a success, without an error
    message and with the queue cleared. *)
Theorem finish_reason_reaches_placeholder (env : Env) (st : State) (stream : Stream)
    (pre post : list Chunk) (chunk : Chunk) (chunkText reason : string)
    (others : list Candidate) :
  API_KEY st ≠ "" →
  submitBlank st = false →
  fst (openTurn env (JS.trim (messageInputValue st)) st)
    = Returned (now_response env + 1, stream) →
  stream_chunks stream = pre ++ chunk :: post →
  Forall chunkReadable (stream_chunks stream) →
  stream_failure stream = None →
  chunk_text chunk = Returned chunkText →
  chunk_candidates chunk = Some (mkCandidate reason :: others) →
  reason ≠ "" → reason ≠ "STOP" →
  Forall (λ m, msg_id m ≠ now_response env + 1) (messages st) →
  now_user env ≠ now_response env + 1 →
  let label :=
    if bool_decide (reason = "SAFETY") then "Generation stopped due to Safety Filters"
    else if bool_decide (reason = "MAX_TOKENS") then "Generation stopped due to Max Token Limit"
    else "Generation stopped: " +:+ reason in
  let st' := handleSendMessage env st in
  textAt (length (messages st) + 1) st'
    = streamText pre +:+ chunkText +:+ nl +:+ nl +:+ "**[" +:+ label +:+ "]**"
      +:+ streamText post ∧
  fst (sendTurn env (JS.trim (messageInputValue st)) st) = Returned tt ∧
  length (messages st') = (length (messages st) + 2)%nat ∧
  isLoading st' = false ∧
  uploadedFiles st' = [].
Proof.
  cbv zeta. intros Hk Hb Hopen Hchunks Hread Hfail Ht Hc Hne Hstop Hold Huser.
  destruct (openTurn env (JS.trim (messageInputValue st)) st) as [o st1] eqn:Eopen.
  simpl in Hopen. subst o.
  destruct (openTurn_returned env _ st st1 _ stream Eopen) as (_ & _ & Hh & _).
  pose proof (placeholder_found env _ st st1 _ stream Eopen Hold Huser) as Hfound.
  destruct (userMessages_one (now_user env) st Hb) as [shown Hu]. rewrite Hu in Hh.
  assert (length (messages st1) = (length (messages st) + 2)%nat) as Hlen.
  { apply (f_equal length) in Hh. rewrite !length_fmap, length_app in Hh. simpl in Hh. lia. }
  assert (JS.truthy (API_KEY st) = true) as Hk' by (by apply truthy_true_iff).
  assert (JS.truthy (JS.trim (messageInputValue st)) = true ∨ uploadedFiles st ≠ []) as Hg.
  { apply submitBlank_false in Hb as [H|H]; [left; by apply truthy_true_iff | by right]. }
  assert (stream_chunks stream ≠ []) as Hnil by (rewrite Hchunks; by destruct pre).
  pose proof (handleSendMessage_fills_placeholder env st st1 _ stream Hk' Hg Eopen Hread
                Hnil Hfail Hfound) as Hfill.
  rewrite Hlen in Hfill.
  replace (pred (length (messages st) + 2)) with (length (messages st) + 1)%nat in Hfill by lia.
  destruct (applyChunks_readable (now_response env + 1) _ Hread "" st1) as (st2 & E2 & Hh2 & _).
  assert (sendTurn env (JS.trim (messageInputValue st)) st
          = (Returned tt, clearFilesAfterSuccess st2)) as Eturn.
  { unfold sendTurn, consumeStream, mbind, Turn_bind. by rewrite Eopen, E2, Hfail. }
  split_and!.
  - rewrite Hfill, Hchunks, streamText_app. cbn [streamText].
    rewrite (chunkAdds_readable _ _ Ht). unfold chunkAnnotation. rewrite Hc.
    cbn [finishReason]. unfold JS.truthy.
    rewrite !bool_decide_eq_false_2 by done. cbn [negb andb].
    by rewrite finishAnnotation_label, !append_assoc.
  - by rewrite Eturn.
  - rewrite (handleSendMessage_returned env st _ Hk' Hg Eturn).
    rewrite (proj1 (finally_fields _)), (proj1 (clearFilesAfterSuccess_fields st2)).
    apply (f_equal length) in Hh2. rewrite !length_fmap in Hh2. lia.
  - by rewrite (handleSendMessage_returned env st _ Hk' Hg Eturn).
  - rewrite (handleSendMessage_returned env st _ Hk' Hg Eturn).
    rewrite (proj1 (proj2 (finally_fields _))).
    apply clearFilesAfterSuccess_fields.
Qed.

Lemma finish_reason_reaches_placeholder_witness :
  let env := sampleEnv (λ _, completedUpload "files/1") (Returned sampleStream) in
  let st := set_messageInputValue "Summarize" (set_uploadedFiles [reportPdf 100] sampleState) in
  let st' := handleSendMessage env st in
  textAt 4 st' = "Revenue grew" +:+ " by 4%" +:+ nl +:+ nl
                 +:+ "**[Generation stopped due to Max Token Limit]**" ∧
  length (messages st') = 5%nat ∧
  uploadedFiles st' = [].
Proof.
  cbv zeta.
  destruct (finish_reason_reaches_placeholder
              (sampleEnv (λ _, completedUpload "files/1") (Returned sampleStream))
              (set_messageInputValue "Summarize" (set_uploadedFiles [reportPdf 100] sampleState))
              sampleStream
              [mkChunk (Returned "Revenue grew") (Some [mkCandidate ""]) None] []
              (mkChunk (Returned " by 4%") (Some [mkCandidate "MAX_TOKENS"])
                 (Some (mkUsageMetadata (Some 12) (Some 5) (Some 17))))
              " by 4%" "MAX_TOKENS" [])
    as (Htext & _ & Hlen & _ & Hq).
  - discriminate.
  - reflexivity.
  - by vm_compute.
  - reflexivity.
  - repeat constructor; by eexists.
  - reflexivity.
  - reflexivity.
  - reflexivity.
  - discriminate.
  - discriminate.
  - repeat constructor; discriminate.
  - discriminate.
  - split_and!; [| exact Hlen | exact Hq].
    etrans; [exact Htext |]. by vm_compute.
Defined.
